(** * nostrcal: the NIP-52 calendar model, its validators, codec and
      query post-processing, embedded from

      - [lib/calendar/validation.ts]  (validateCalendarEvent, validateCalendar,
        validateCalendarEventRSVP),
      - [lib/calendar/types.ts]       (getTagValue, getTagValues,
        parseCalendarEvent, serializeCalendarEvent, serializeCalendarRSVP),
      - [hooks/calendar/useCalendarEvents.ts] (the queryFn bodies of
        useUpcomingCalendarEvents, useCalendarEventsByDateRange and
        useCalendarEventSearch).

    Conventions of the embedding.

    - A JavaScript string is a Rocq [string]; its characters stand for the
      UTF-16 code units below 256, compared by code as [<=] on JS strings does.
    - A JavaScript number is a [Z] (Unix seconds, kinds, limits are integers in
      the safe range); [NaN] is the [None] of [option Z].
    - A value of static type [string] that can be [undefined] at run time
      (the slot [tag[1]] of a one-element tag) is an [option string]; so is
      every optional field [x?: string].
    - [if (x)] on such a value is [truthy x]: defined and not the empty string.
    - A function that can raise a [TypeError] returns a [completion].
    - What the hooks get from outside is a parameter: the relay pool
      ([nostr.query]), the clock ([Date.now()], today's ISO date), the
      runtime's collation ([localeCompare]) and its time-zone table
      ([isValidTimeZone]).

    The file has three parts: the embedding of the source, the notions and
    concrete events the statements use, and the properties, grouped by the
    function they are about. *)

From Stdlib Require Import ZArith List String Ascii Bool Lia.
From Stdlib Require Import DecimalString DecimalZ DecimalPos DecimalN.
From Stdlib Require Import DecimalFacts.
From Stdlib Require Import Sorted.
Import ListNotations.
Local Open Scope string_scope.
Local Open Scope list_scope.
Local Open Scope Z_scope.

Set Implicit Arguments.

(* ===================================================================== *)
(** ** JavaScript primitives used by the source                           *)
(* ===================================================================== *)

Module JS.

(** [string | undefined] *)
Definition value := option string.

(** [if (v)] for a [string | undefined]: the empty string is falsy. *)
Definition truthy (v : value) : bool :=
  match v with
  | Some s => negb (s =? "")%string
  | None => false
  end.

(** [if (n)] for a [number | undefined] without NaN: zero is falsy. *)
Definition truthy_num (n : option Z) : bool :=
  match n with
  | Some z => negb (z =? 0)%Z
  | None => false
  end.

(** [a === b] where [b] is a string literal. *)
Definition strict_eq (a : value) (b : string) : bool :=
  match a with
  | Some s => (s =? b)%string
  | None => false
  end.

(** [arr.includes(x)] on an array of strings / of numbers. *)
Definition includes (arr : list string) (x : string) : bool :=
  existsb (String.eqb x) arr.

Definition includes_num (arr : list Z) (x : Z) : bool :=
  existsb (Z.eqb x) arr.

(** Completion of a call: a normal return or a thrown TypeError. *)
Inductive completion (A : Type) : Type :=
| Return (a : A)
| ThrowTypeError.
Arguments ThrowTypeError {A}.

(** *** parseInt(string) with no radix argument (ECMAScript 19.2.5) *)

(** StrWhiteSpaceChar among the code units below 256:
    TAB, LF, VT, FF, CR, SP, NBSP. *)
Definition is_whitespace (c : ascii) : bool :=
  let n := N_of_ascii c in
  ((9 <=? n) && (n <=? 13) || (n =? 32) || (n =? 160))%N.

Fixpoint trim_start (s : string) : string :=
  match s with
  | String c s' => if is_whitespace c then trim_start s' else s
  | EmptyString => EmptyString
  end.

(** Value of a code unit as a digit: 0-9, then a-z / A-Z as 10-35. *)
Definition digit_value (c : ascii) : option Z :=
  let n := Z.of_N (N_of_ascii c) in
  if (48 <=? n) && (n <=? 57) then Some (n - 48)
  else if (97 <=? n) && (n <=? 122) then Some (n - 87)
  else if (65 <=? n) && (n <=? 90) then Some (n - 55)
  else None.

Definition radix_digit (R : Z) (c : ascii) : option Z :=
  match digit_value c with
  | Some v => if v <? R then Some v else None
  | None => None
  end.

(** The longest prefix of radix-R digits, read left to right; [acc] is
    [None] while no digit has been read (an empty prefix gives NaN). *)
Fixpoint parse_digits (R : Z) (s : string) (acc : option Z) : option Z :=
  match s with
  | EmptyString => acc
  | String c s' =>
      match radix_digit R c with
      | Some v =>
          parse_digits R s'
            (Some (match acc with Some a => a * R + v | None => v end))
      | None => acc
      end
  end.

Definition parseInt (input : string) : option Z :=
  let S0 := trim_start input in
  let '(sign, S1) :=
    match S0 with
    | String "-" r => (-1, r)
    | String "+" r => (1, r)
    | _ => (1, S0)
    end in
  let '(R, S2) :=
    match S1 with
    | String "0" (String "x" r) => (16, r)
    | String "0" (String "X" r) => (16, r)
    | _ => (10, S1)
    end in
  option_map (Z.mul sign) (parse_digits R S2 None).

(** [isNaN(n)] *)
Definition isNaN (n : option Z) : bool :=
  match n with Some _ => false | None => true end.

(** [n.toString()] of an integer: decimal digits, a leading [-] if
    negative. *)
Definition toString (n : Z) : string :=
  NilZero.string_of_int (Z.to_int n).

(** *** /^\d{4}-\d{2}-\d{2}$/.test(s) *)

Definition is_digit (c : ascii) : bool :=
  let n := N_of_ascii c in ((48 <=? n) && (n <=? 57))%N.

Definition dateRegex_test (s : string) : bool :=
  match s with
  | String y1 (String y2 (String y3 (String y4 (String "-"
      (String m1 (String m2 (String "-"
        (String day1 (String day2 EmptyString))))))))) =>
      is_digit y1 && is_digit y2 && is_digit y3 && is_digit y4
      && is_digit m1 && is_digit m2 && is_digit day1 && is_digit day2
  | _ => false
  end.

(** *** s.split(c) for a one-character separator: never empty. *)
Fixpoint split (sep : ascii) (s : string) : list string :=
  match s with
  | EmptyString => [EmptyString]
  | String c s' =>
      if Ascii.eqb c sep then EmptyString :: split sep s'
      else match split sep s' with
           | hd :: tl => String c hd :: tl
           | [] => [String c EmptyString]
           end
  end.

End JS.

Import JS.

(* ===================================================================== *)
(** ** Wire events and the tag accessor (types.ts)                        *)
(* ===================================================================== *)

(** A tag is a JS array of strings.  Its slots are [JS.value]s: a slot read
    past the length is [undefined], and a serializer handed an undefined
    field writes [undefined] into the slot.  Tags that come off the wire
    hold strings only ([tag_of]). *)
Definition Tag := list JS.value.

(** [tag[i]] *)
Definition slot (tag : Tag) (i : nat) : JS.value :=
  match nth_error tag i with
  | Some v => v
  | None => None
  end.

(** The tag [[name, v1, ...]] of string literals. *)
Definition tag_of (l : list string) : Tag := map Some l.

Record NostrEvent := {
  id : string;
  pubkey : string;
  created_at : Z;
  kind : Z;
  tags : list Tag;
  content : string;
  sig : string
}.

(** Partial<NostrEvent> as the serializers build it. *)
Record PartialNostrEvent := {
  p_kind : Z;
  p_content : string;
  p_tags : list Tag
}.

(** [tag => tag[0] === tagName] *)
Definition has_name (tagName : string) (tag : Tag) : bool :=
  strict_eq (slot tag 0) tagName.

(** [event.tags.find(tag => tag[0] === tagName)?.[1]] *)
Definition getTagValue_tags (ts : list Tag) (tagName : string) : JS.value :=
  match find (has_name tagName) ts with
  | Some tag => slot tag 1
  | None => None
  end.

Definition getTagValue (event : NostrEvent) (tagName : string) : JS.value :=
  getTagValue_tags (tags event) tagName.

(** [event.tags.filter(tag => tag[0] === tagName).map(tag => tag[1])] *)
Definition getTagValues_tags (ts : list Tag) (tagName : string)
  : list JS.value :=
  map (fun tag => slot tag 1) (filter (has_name tagName) ts).

Definition getTagValues (event : NostrEvent) (tagName : string)
  : list JS.value :=
  getTagValues_tags (tags event) tagName.

(* ===================================================================== *)
(** ** Validators (validation.ts)                                         *)
(* ===================================================================== *)

Section Validation.

(** [isValidTimeZone] asks the runtime ([Intl.DateTimeFormat]) and
    catches its error: total, and external to the repository. *)
Variable isValidTimeZone : string -> bool.

(** [tzid && !isValidTimeZone(tzid)] *)
Definition bad_tz (tzid : JS.value) : bool :=
  match tzid with
  | Some tz => truthy tzid && negb (isValidTimeZone tz)
  | None => false
  end.

(** The block [if (event.kind === 31922) { ... }]: [false] when one of
    its [return false] fires. *)
Definition date_rules (event : NostrEvent) (start : string) : bool :=
  if negb (dateRegex_test start) then false else
  let end_ := getTagValue event "end" in
  match end_ with
  | Some end_s =>
      if truthy end_ then
        if negb (dateRegex_test end_s) then false else
        if (end_s <=? start)%string then false else true
      else true
  | None => true
  end.

(** The block [if (event.kind === 31923) { ... }]. *)
Definition time_rules (event : NostrEvent) (start : string) : bool :=
  let timestamp := parseInt start in
  match timestamp with
  | None => false                              (* isNaN(timestamp) *)
  | Some ts =>
      if ts <=? 0 then false else
      let endStr := getTagValue event "end" in
      if (match endStr with
          | Some end_s =>
              truthy endStr &&
              match parseInt end_s with
              | None => true                   (* isNaN(endTime) *)
              | Some endTime => (endTime <=? 0) || (endTime <=? ts)
              end
          | None => false
          end)
      then false else
      if bad_tz (getTagValue event "start_tzid") then false else
      if bad_tz (getTagValue event "end_tzid") then false else
      true
  end.

Definition validateCalendarEvent (event : NostrEvent) : bool :=
  if negb (includes_num [31922; 31923] (kind event)) then false else
  let d := getTagValue event "d" in
  let title := getTagValue event "title" in
  let start := getTagValue event "start" in
  match start with
  | Some start_s =>
      if negb (truthy d) || negb (truthy title) || negb (truthy start)
      then false else
      if (kind event =? 31922) && negb (date_rules event start_s)
      then false else
      if (kind event =? 31923) && negb (time_rules event start_s)
      then false else
      true
  | None => false                              (* !start *)
  end.

Definition validateCalendar (event : NostrEvent) : bool :=
  if negb (kind event =? 31924) then false else
  let d := getTagValue event "d" in
  let title := getTagValue event "title" in
  truthy d && truthy title.

Definition validateCalendarEventRSVP (event : NostrEvent)
  : completion bool :=
  if negb (kind event =? 31925) then Return false else
  let d := getTagValue event "d" in
  let status := getTagValue event "status" in
  let aTag := find (has_name "a") (tags event) in
  match status, aTag with
  | Some status_s, Some aTag_ =>
    if negb (truthy d) || negb (truthy status) then Return false else
    if negb (includes ["accepted"; "declined"; "tentative"] status_s)
    then Return false else
    if (status_s =? "declined")%string
       && (match find (has_name "fb") (tags event) with
           | Some _ => true
           | None => false
           end)
    then Return false else
    let fbValue := getTagValue event "fb" in
    if (match fbValue with
        | Some fb => truthy fbValue && negb (includes ["free"; "busy"] fb)
        | None => false
        end)
    then Return false else
    let aValue := slot aTag_ 1 in
    match aValue with
    | None => ThrowTypeError   (* undefined.split(':') *)
    | Some aValue_s =>
        let aParts := split ":" aValue_s in
        if (Z.of_nat (List.length aParts) <? 3) then Return false else
        let kind_ := parseInt (nth 0 aParts "") in
        match kind_ with
        | None => Return false
        | Some k =>
            if negb (includes_num [31922; 31923] k) then Return false
            else Return true
        end
    end
  | _, _ => Return false
  end.

End Validation.

(* ===================================================================== *)
(** ** Domain objects (types.ts)                                          *)
(* ===================================================================== *)

Module Participant.
(** [pubkey] is [tag[1]] of a p-tag: undefined for the tag [["p"]]. *)
Record ParticipantInfo := {
  pubkey : JS.value;
  relayUrl : JS.value;
  role : JS.value
}.
End Participant.
Definition ParticipantInfo := Participant.ParticipantInfo.

Module Base.
Record BaseCalendarEvent := {
  id : string;
  pubkey : string;
  created_at : Z;
  content : string;
  tags : list Tag;
  d : string;
  title : string;
  summary : JS.value;
  image : JS.value;
  locations : list JS.value;
  geohash : JS.value;
  participants : list ParticipantInfo;
  hashtags : list JS.value;
  references : list JS.value;
  calendarRefs : list JS.value
}.
End Base.
Definition BaseCalendarEvent := Base.BaseCalendarEvent.

(** [CalendarEvent = DateBasedCalendarEvent | TimeBasedCalendarEvent];
    the constructor carries the literal [kind]. *)
Inductive CalendarEvent :=
| DateBased (base : BaseCalendarEvent)
            (start : string) (end_ : JS.value)
| TimeBased (base : BaseCalendarEvent)
            (start : Z) (end_ : option Z)
            (start_tzid end_tzid : JS.value).

Definition base_of (e : CalendarEvent) : BaseCalendarEvent :=
  match e with
  | DateBased b _ _ => b
  | TimeBased b _ _ _ _ => b
  end.

Definition kind_of (e : CalendarEvent) : Z :=
  match e with
  | DateBased _ _ _ => 31922
  | TimeBased _ _ _ _ _ => 31923
  end.

Definition isDateBasedEvent (e : CalendarEvent) : bool := kind_of e =? 31922.
Definition isTimeBasedEvent (e : CalendarEvent) : bool := kind_of e =? 31923.

Inductive RSVPStatus := accepted | declined | tentative.
Inductive FreeBusy := free | busy.

Definition status_string (s : RSVPStatus) : string :=
  match s with
  | accepted => "accepted"
  | declined => "declined"
  | tentative => "tentative"
  end.

Definition freebusy_string (f : FreeBusy) : string :=
  match f with free => "free" | busy => "busy" end.

Module RSVP.
Record CalendarEventRSVP := {
  id : string;
  pubkey : string;
  created_at : Z;
  content : string;
  eventCoordinates : string;
  eventId : JS.value;
  d : string;
  status : RSVPStatus;
  freebusy : option FreeBusy;
  authorPubkey : JS.value
}.
End RSVP.
Definition CalendarEventRSVP := RSVP.CalendarEventRSVP.

(* ===================================================================== *)
(** ** Codec (types.ts)                                                   *)
(* ===================================================================== *)

(** [tag => ({pubkey: tag[1], relayUrl: tag[2], role: tag[3]})] *)
Definition participant_of_tag (tag : Tag) : ParticipantInfo :=
  {| Participant.pubkey := slot tag 1;
     Participant.relayUrl := slot tag 2;
     Participant.role := slot tag 3 |}.

Definition parseCalendarEvent (event : NostrEvent) : option CalendarEvent :=
  if negb (kind event =? 31922) && negb (kind event =? 31923) then None else
  let d := getTagValue event "d" in
  let title := getTagValue event "title" in
  let start := getTagValue event "start" in
  match d, title, start with
  | Some d_s, Some title_s, Some start_s =>
      if negb (truthy d) || negb (truthy title) || negb (truthy start)
      then None else
      let summary := getTagValue event "summary" in
      let image := getTagValue event "image" in
      let geohash := getTagValue event "g" in
      let locations := getTagValues event "location" in
      let hashtags := getTagValues event "t" in
      let references := getTagValues event "r" in
      let calendarRefs := getTagValues event "a" in
      let participants :=
        map participant_of_tag (filter (has_name "p") (tags event)) in
      let baseEvent :=
        {| Base.id := id event;
           Base.pubkey := pubkey event;
           Base.created_at := created_at event;
           Base.content := content event;
           Base.tags := tags event;
           Base.d := d_s;
           Base.title := title_s;
           Base.summary := summary;
           Base.image := image;
           Base.locations := locations;
           Base.geohash := geohash;
           Base.participants := participants;
           Base.hashtags := hashtags;
           Base.references := references;
           Base.calendarRefs := calendarRefs |} in
      if kind event =? 31922 then
        Some (DateBased baseEvent start_s (getTagValue event "end"))
      else
        let startTime := parseInt start_s in
        match startTime with
        | None => None                            (* isNaN(startTime) *)
        | Some startTime_n =>
            let endStr := getTagValue event "end" in
            (* endStr ? parseInt(endStr) : undefined; undefined and NaN
               are both falsy in the test below *)
            let end_ :=
              match endStr with
              | Some end_s => if truthy endStr then parseInt end_s else None
              | None => None
              end in
            Some (TimeBased baseEvent startTime_n
                    (* end && !isNaN(end) ? end : undefined *)
                    (if truthy_num end_ && negb (isNaN end_)
                     then end_ else None)
                    (getTagValue event "start_tzid")
                    (getTagValue event "end_tzid"))
        end
  | _, _, _ => None                               (* !d || !title || !start *)
  end.

(** [if (v) tags.push([name, v])] *)
Definition push_if (name : string) (v : JS.value) : list Tag :=
  if truthy v then [[Some name; v]] else [].

(** [list.forEach(x => tags.push([name, x]))] *)
Definition push_each (name : string) (l : list JS.value) : list Tag :=
  map (fun x => [Some name; x]) l.

Definition participant_tag (participant : ParticipantInfo) : Tag :=
  [Some "p"; Participant.pubkey participant]
    ++ (if truthy (Participant.relayUrl participant)
        then [Participant.relayUrl participant] else [])
    ++ (if truthy (Participant.role participant)
        then [Participant.role participant] else []).

(** The tags pushed before the kind-specific ones. *)
Definition common_tags (b : BaseCalendarEvent) : list Tag :=
  [ [Some "d"; Some (Base.d b)]; [Some "title"; Some (Base.title b)] ]
    ++ push_if "summary" (Base.summary b)
    ++ push_if "image" (Base.image b)
    ++ push_each "location" (Base.locations b)
    ++ push_if "g" (Base.geohash b)
    ++ map participant_tag (Base.participants b)
    ++ push_each "t" (Base.hashtags b)
    ++ push_each "r" (Base.references b)
    ++ push_each "a" (Base.calendarRefs b).

Definition serializeCalendarEvent (event : CalendarEvent)
  : PartialNostrEvent :=
  match event with
  | DateBased b start end_ =>
      {| p_kind := 31922;
         p_content := Base.content b;
         p_tags := common_tags b
                     ++ [[Some "start"; Some start]]
                     ++ push_if "end" end_ |}
  | TimeBased b start end_ start_tzid end_tzid =>
      {| p_kind := 31923;
         p_content := Base.content b;
         p_tags := common_tags b
                     ++ [[Some "start"; Some (toString start)]]
                     ++ (match end_ with           (* end !== undefined *)
                         | Some e => [[Some "end"; Some (toString e)]]
                         | None => []
                         end)
                     ++ push_if "start_tzid" start_tzid
                     ++ push_if "end_tzid" end_tzid |}
  end.

Definition serializeCalendarRSVP (rsvp : CalendarEventRSVP)
  : PartialNostrEvent :=
  {| p_kind := 31925;
     p_content := RSVP.content rsvp;
     p_tags :=
       [ [Some "a"; Some (RSVP.eventCoordinates rsvp)];
         [Some "d"; Some (RSVP.d rsvp)];
         [Some "status"; Some (status_string (RSVP.status rsvp))] ]
       ++ push_if "e" (RSVP.eventId rsvp)
       ++ (match RSVP.freebusy rsvp with
           | Some fb =>
               if negb (status_string (RSVP.status rsvp) =? "declined")%string
               then [[Some "fb"; Some (freebusy_string fb)]] else []
           | None => []
           end)
       ++ push_if "p" (RSVP.authorPubkey rsvp) |}.

(** The publisher's part: the partial event merged with
    [{id, pubkey, created_at}] (and a signature). *)
Definition merged (p : PartialNostrEvent)
    (id_ pubkey_ : string) (created_at_ : Z) (sig_ : string) : NostrEvent :=
  {| id := id_; pubkey := pubkey_; created_at := created_at_;
     kind := p_kind p; tags := p_tags p; content := p_content p;
     sig := sig_ |}.

(* ===================================================================== *)
(** ** Runtime facilities used by the hooks                               *)
(* ===================================================================== *)

Module Runtime.

(** *** [new Date(s).getTime()] on the date-only form YYYY-MM-DD

    ECMAScript 21.4.1.32: a date-only string denotes 00:00 of that day in
    UTC; an out-of-range month or day gives NaN.  After validation a
    date-based start always has this form; other forms are not modelled
    and read as NaN here. *)

Definition digit (c : ascii) : Z := Z.of_N (N_of_ascii c) - 48.

Definition is_leap (y : Z) : bool :=
  ((y mod 4 =? 0) && negb (y mod 100 =? 0)) || (y mod 400 =? 0).

Definition days_in_month (y m : Z) : Z :=
  if m =? 2 then (if is_leap y then 29 else 28)
  else if (m =? 4) || (m =? 6) || (m =? 9) || (m =? 11) then 30
  else 31.

(** Days from 1970-01-01 to the civil date y-m-d (proleptic Gregorian). *)
Definition days_from_civil (y m d : Z) : Z :=
  let y' := if m <=? 2 then y - 1 else y in
  let era := y' / 400 in
  let yoe := y' - era * 400 in
  let mp := if 2 <? m then m - 3 else m + 9 in
  let doy := (153 * mp + 2) / 5 + d - 1 in
  let doe := yoe * 365 + yoe / 4 - yoe / 100 + doy in
  era * 146097 + doe - 719468.

(** The year, month and day of a string in the date-only form. *)
Definition civil_of_string (s : string) : option (Z * Z * Z) :=
  match s with
  | String y1 (String y2 (String y3 (String y4 (String "-"
      (String m1 (String m2 (String "-"
        (String day1 (String day2 EmptyString))))))))) =>
      if dateRegex_test s then
        Some (digit y1 * 1000 + digit y2 * 100 + digit y3 * 10 + digit y4,
              digit m1 * 10 + digit m2,
              digit day1 * 10 + digit day2)
      else None
  | _ => None
  end.

Definition valid_civil (ymd : Z * Z * Z) : bool :=
  let '(y, m, d) := ymd in
  (1 <=? m) && (m <=? 12) && (1 <=? d) && (d <=? days_in_month y m).

(** [new Date(s).getTime()], milliseconds; [None] is NaN. *)
Definition Date_getTime (s : string) : option Z :=
  match civil_of_string s with
  | Some (y, m, d) =>
      if valid_civil (y, m, d)
      then Some (days_from_civil y m d * 86400000)
      else None
  | None => None
  end.

(** *** [Array.prototype.sort(comparefn)]

    The sort is stable and a NaN from [comparefn] counts as +0.  It is
    modelled by a stable insertion sort: for a comparator that is a
    consistent ordering every conforming sort returns this list. *)
Section Sort.
Variable A : Type.
Variable comparefn : A -> A -> option Z.

Definition SortCompare (x y : A) : Z :=
  match comparefn x y with
  | Some v => v
  | None => 0
  end.

Fixpoint insert (x : A) (l : list A) : list A :=
  match l with
  | [] => [x]
  | y :: l' =>
      if SortCompare x y <=? 0 then x :: y :: l'
      else y :: insert x l'
  end.

Definition sort (l : list A) : list A := fold_right insert [] l.
End Sort.

(** *** [new Map(entries)] and [map.values()]

    A Map keeps its keys in insertion order; setting a key that is
    already there replaces the value and leaves the key where it is. *)
Section JSMap.
Variable V : Type.

Definition Map := list (string * V).

Fixpoint Map_set (m : Map) (k : string) (v : V) : Map :=
  match m with
  | [] => [(k, v)]
  | (k', v') :: m' =>
      if (k' =? k)%string then (k', v) :: m'
      else (k', v') :: Map_set m' k v
  end.

Definition Map_new (entries : list (string * V)) : Map :=
  fold_left (fun m kv => Map_set m (fst kv) (snd kv)) entries [].

Definition Map_values (m : Map) : list V := map snd m.

(** [map.keys()] *)
Definition Map_keys (m : Map) : list string := map fst m.

(** [map.get(k)] *)
Fixpoint Map_get (m : Map) (k : string) : option V :=
  match m with
  | [] => None
  | (k', v) :: m' => if (k' =? k)%string then Some v else Map_get m' k
  end.
End JSMap.

End Runtime.

Import Runtime.

(* ===================================================================== *)
(** ** Query post-processing (useCalendarEvents.ts)                       *)
(* ===================================================================== *)

(** A filter object handed to [nostr.query]. *)
Record Filter := {
  kinds : list Z;
  limit : Z;
  until : option Z
}.

Definition ce_id (e : CalendarEvent) : string := Base.id (base_of e).
Definition ce_created_at (e : CalendarEvent) : Z :=
  Base.created_at (base_of e).

Section Hooks.

Variable isValidTimeZone : string -> bool.

(** [a.localeCompare(b)]: the runtime's collation. *)
Variable localeCompare : string -> string -> Z.

(** [nostr.query([filter], {signal})]: the relay pool. *)
Variable query : Filter -> list NostrEvent.

(** [.filter(validateCalendarEvent).map(event => parseCalendarEvent(event))
     .filter(event => event && keep(event))] *)
Definition validate_parse_keep (keep : CalendarEvent -> bool)
    (events : list NostrEvent) : list CalendarEvent :=
  flat_map
    (fun parsed =>
       match parsed with
       | Some e => if keep e then [e] else []
       | None => []
       end)
    (map parseCalendarEvent
         (filter (validateCalendarEvent isValidTimeZone) events)).

(** *** useUpcomingCalendarEvents *)

(** The filter callback: upcoming events only. *)
Definition is_upcoming (now : Z) (today : string) (event : CalendarEvent)
  : bool :=
  match event with
  | TimeBased _ start _ _ _ => now <? start
  | DateBased _ start _ => (today <=? start)%string
  end.

(** The sort callback. *)
Definition upcoming_compare (a b : CalendarEvent) : option Z :=
  match a, b with
  | TimeBased _ a_start _ _ _, TimeBased _ b_start _ _ _ =>
      Some (a_start - b_start)
  | DateBased _ a_start _, DateBased _ b_start _ =>
      Some (localeCompare a_start b_start)
  | DateBased _ a_start _, TimeBased _ b_start _ _ _ =>
      (* aDate = new Date(a.start).getTime() / 1000 *)
      match Date_getTime a_start with
      | Some ms => Some (ms / 1000 - b_start)
      | None => None
      end
  | TimeBased _ a_start _ _ _, DateBased _ b_start _ =>
      match Date_getTime b_start with
      | Some ms => Some (a_start - ms / 1000)
      | None => None
      end
  end.

(** [queryFn({pageParam})] with the clock read as [now] and [today]. *)
Definition useUpcomingCalendarEvents_queryFn (limit_ : Z) (now : Z)
    (today : string) (pageParam : option Z) : list CalendarEvent :=
  let until_ := if truthy_num pageParam then pageParam else None in
  let filter_ := {| kinds := [31923]; limit := limit_; until := until_ |} in
  let timeBasedEvents := query filter_ in
  let dateBasedFilter :=
    {| kinds := [31922]; limit := limit_; until := until_ |} in
  let dateBasedEvents := query dateBasedFilter in
  let allEvents := timeBasedEvents ++ dateBasedEvents in
  sort upcoming_compare
       (validate_parse_keep (is_upcoming now today) allEvents).

(** [getNextPageParam(lastPage)]; [None] is undefined: no next page. *)
Definition getNextPageParam (lastPage : list CalendarEvent) : option Z :=
  match rev lastPage with
  | [] => None
  | last_ :: _ => Some (ce_created_at last_ - 1)
  end.

(** The pages the infinite query holds after at most [n] fetches, each
    fetch passing the cursor computed from the page before. *)
Fixpoint fetch_pages (n : nat) (limit_ now : Z) (today : string)
    (pageParam : option Z) : list (list CalendarEvent) :=
  match n with
  | O => []
  | S n' =>
      let page :=
        useUpcomingCalendarEvents_queryFn limit_ now today pageParam in
      page ::
        match getNextPageParam page with
        | Some next => fetch_pages n' limit_ now today (Some next)
        | None => []
        end
  end.

(** *** useCalendarEventsByDateRange: the filter callback *)
Definition in_date_range (startTimestamp endTimestamp : Z)
    (startIsoDate endIsoDate : string) (event : CalendarEvent) : bool :=
  match event with
  | TimeBased _ start end_ _ _ =>
      match end_ with
      | Some e =>
          if truthy_num end_
          then (start <=? endTimestamp) && (startTimestamp <=? e)
          else (startTimestamp <=? start) && (start <=? endTimestamp)
      | None => (startTimestamp <=? start) && (start <=? endTimestamp)
      end
  | DateBased _ start end_ =>
      match end_ with
      | Some e =>
          if truthy end_
          then ((start <=? endIsoDate) && (startIsoDate <=? e))%string
          else ((startIsoDate <=? start) && (start <=? endIsoDate))%string
      | None => ((startIsoDate <=? start) && (start <=? endIsoDate))%string
      end
  end.

Definition useCalendarEventsByDateRange_queryFn
    (startTimestamp endTimestamp : Z) (startIsoDate endIsoDate : string)
  : list CalendarEvent :=
  let timeBasedEvents :=
    query {| kinds := [31923]; limit := 100; until := None |} in
  let dateBasedEvents :=
    query {| kinds := [31922]; limit := 100; until := None |} in
  let allEvents := timeBasedEvents ++ dateBasedEvents in
  validate_parse_keep
    (in_date_range startTimestamp endTimestamp startIsoDate endIsoDate)
    allEvents.

(** *** useCalendarEventSearch: combining the two result sets
    [Array.from(new Map(combinedEvents.map(e => [e.id, e])).values())] *)
Definition uniqueEvents (hashtagEvents parsedEvents : list CalendarEvent)
  : list CalendarEvent :=
  let combinedEvents := hashtagEvents ++ parsedEvents in
  Map_values (Map_new (map (fun event => (ce_id event, event))
                           combinedEvents)).

End Hooks.

(* ===================================================================== *)
(** ** Readings of the specification's words, and notions the statements use *)
(* ===================================================================== *)

(** What parseCalendarEvent tests before it builds an object. *)
Definition parse_checks (event : NostrEvent) : bool :=
  ((kind event =? 31922) || (kind event =? 31923))
  && truthy (getTagValue event "d")
  && truthy (getTagValue event "title")
  && truthy (getTagValue event "start")
  && ((kind event =? 31922)
      || match getTagValue event "start" with
         | Some s => negb (isNaN (parseInt s))
         | None => false
         end).

(** The optional tag [[name, v]]: there when [v] was supplied (a defined,
    non-empty string, which is what [if (v)] accepts). *)
Definition optional_tag (name : string) (v : JS.value) : list Tag :=
  match v with
  | Some s => if (s =? "")%string then [] else [tag_of [name; s]]
  | None => []
  end.

(** The keys of a list, each at its first occurrence. *)
Fixpoint first_occurrences (ks : list string) : list string :=
  match ks with
  | [] => []
  | k :: ks' =>
      k :: filter (fun x => negb (x =? k)%string) (first_occurrences ks')
  end.

Definition mem (k : string) (ks : list string) : bool :=
  existsb (fun x => (x =? k)%string) ks.

(** The first binding of [k] in a list of entries. *)
Fixpoint assoc (V : Type) (k : string) (l : list (string * V)) : option V :=
  match l with
  | [] => None
  | (k', v) :: l' => if (k' =? k)%string then Some v else assoc k l'
  end.

(** The deduplication as the specification words it: an event is kept
    when no earlier event of the list has its id (first occurrence
    wins). *)
Fixpoint dedupe_first_wins (l : list CalendarEvent) : list CalendarEvent :=
  match l with
  | [] => []
  | e :: l' =>
      e :: filter (fun x => negb (ce_id x =? ce_id e)%string)
                  (dedupe_first_wins l')
  end.

Definition entry_of (event : CalendarEvent) : string * CalendarEvent :=
  (ce_id event, event).

(** The Unix timestamp of 00:00 UTC on the civil date y-m-d. *)
Definition utc_start_of_day (y m d : Z) : Z :=
  days_from_civil y m d * 86400.

(** The Unix timestamp of 00:00 on the civil date y-m-d for an observer
    whose clock runs [offset] seconds ahead of UTC: local midnight falls
    [offset] seconds before UTC midnight. *)
Definition local_start_of_day (offset : Z) (y m d : Z) : Z :=
  days_from_civil y m d * 86400 - offset.

(** The instants a time-based event covers when both of its ends count:
    from start to end, or the start alone without an end. *)
Definition covers_instant (start : Z) (end_ : option Z) (t : Z) : Prop :=
  match end_ with
  | Some e => start <= t <= e
  | None => t = start
  end.

(** The same for the days of a date-based event; an empty end string
    counts as no end. *)
Definition covers_day (start : string) (end_ : JS.value) (t : string)
  : Prop :=
  if truthy end_ then
    match end_ with
    | Some e => (start <=? t)%string = true /\ (t <=? e)%string = true
    | None => False
    end
  else t = start.

(** An event shares a point with the closed range: the timestamps
    [startTimestamp..endTimestamp] for a time-based event, the date strings
    [startIsoDate..endIsoDate] for a date-based one. *)
Definition overlaps_closed_range (startTimestamp endTimestamp : Z)
    (startIsoDate endIsoDate : string) (event : CalendarEvent) : Prop :=
  match event with
  | TimeBased _ start end_ _ _ =>
      exists t, startTimestamp <= t <= endTimestamp
                /\ covers_instant start end_ t
  | DateBased _ start end_ =>
      exists t, (startIsoDate <=? t)%string = true
                /\ (t <=? endIsoDate)%string = true
                /\ covers_day start end_ t
  end.

(** Overlap with a half-open interval, as the specification words it.
    Which side is open is not said, so both readings are given: the
    event's own end is exclusive, or the range's end is. *)
Definition overlaps_event_end_exclusive (startTimestamp endTimestamp : Z)
    (start : Z) (end_ : option Z) : bool :=
  match end_ with
  | Some e => (start <=? endTimestamp) && (startTimestamp <? e)
  | None => (startTimestamp <=? start) && (start <=? endTimestamp)
  end.

Definition overlaps_range_end_exclusive (startTimestamp endTimestamp : Z)
    (start : Z) (end_ : option Z) : bool :=
  match end_ with
  | Some e => (start <? endTimestamp) && (startTimestamp <=? e)
  | None => (startTimestamp <=? start) && (start <? endTimestamp)
  end.

(** A relay as NIP-01 has it: the stored events that match the filter's
    kinds and are not newer than [until], newest first, at most [limit]
    of them. *)
Module Relay.

Definition matches (f : Filter) (e : NostrEvent) : bool :=
  includes_num (kinds f) (kind e)
  && match until f with
     | Some u => created_at e <=? u
     | None => true
     end.

Definition newest_first (a b : NostrEvent) : option Z :=
  Some (created_at b - created_at a).

Definition query (stored : list NostrEvent) (f : Filter)
  : list NostrEvent :=
  firstn (Z.to_nat (limit f))
         (sort newest_first (filter (matches f) stored)).

End Relay.

(** A relay that honours [until]. *)
Definition honours_until (query : Filter -> list NostrEvent) : Prop :=
  forall f u event,
    until f = Some u -> In event (query f) -> created_at event <= u.

(** The number a digit sequence denotes, read from the left onto [acc]. *)
Fixpoint uint_value (u : Decimal.uint) (acc : Z) : Z :=
  match u with
  | Decimal.Nil => acc
  | Decimal.D0 u' => uint_value u' (acc * 10 + 0)
  | Decimal.D1 u' => uint_value u' (acc * 10 + 1)
  | Decimal.D2 u' => uint_value u' (acc * 10 + 2)
  | Decimal.D3 u' => uint_value u' (acc * 10 + 3)
  | Decimal.D4 u' => uint_value u' (acc * 10 + 4)
  | Decimal.D5 u' => uint_value u' (acc * 10 + 5)
  | Decimal.D6 u' => uint_value u' (acc * 10 + 6)
  | Decimal.D7 u' => uint_value u' (acc * 10 + 7)
  | Decimal.D8 u' => uint_value u' (acc * 10 + 8)
  | Decimal.D9 u' => uint_value u' (acc * 10 + 9)
  end.

(** An optional value as it survives [if (v) tags.push(...)]: the empty
    string is not written and reads back undefined. *)
Definition kept (v : JS.value) : JS.value := if truthy v then v else None.

(** [end && !isNaN(end) ? end : undefined]: a zero end is dropped. *)
Definition kept_num (n : option Z) : option Z :=
  if truthy_num n then n else None.

(** The kind-specific tags, for both kinds: a date-based event has no
    zone tags, a time-based event writes its numbers with toString. *)
Definition kind_tags (start : string) (end_ tz1 tz2 : JS.value)
  : list Tag :=
  [[Some "start"; Some start]]
    ++ push_if "end" end_
    ++ push_if "start_tzid" tz1
    ++ push_if "end_tzid" tz2.

Definition wire_start (e : CalendarEvent) : string :=
  match e with
  | DateBased _ start _ => start
  | TimeBased _ start _ _ _ => toString start
  end.

Definition wire_end (e : CalendarEvent) : JS.value :=
  match e with
  | DateBased _ _ end_ => end_
  | TimeBased _ _ end_ _ _ => option_map toString end_
  end.

Definition wire_tzids (e : CalendarEvent) : JS.value * JS.value :=
  match e with
  | DateBased _ _ _ => (None, None)
  | TimeBased _ _ _ tz1 tz2 => (tz1, tz2)
  end.

(** A run of tags that all carry the name [m], seen through the filter
    for the name [n]. *)
Definition seg (n m : string) (l : list Tag) : list Tag :=
  if (m =? n)%string then l else [].

Definition wire_tags (b : BaseCalendarEvent) (start : string)
    (end_ tz1 tz2 : JS.value) : list Tag :=
  common_tags b ++ kind_tags start end_ tz1 tz2.

(** A participant as it is read back from its own p-tag. *)
Definition reread_participant (p : ParticipantInfo) : ParticipantInfo :=
  participant_of_tag (participant_tag p).

(** The object parseCalendarEvent builds from the serialized form of [e]
    merged into the wire event [raw_event]. *)
Definition reread_base (b : BaseCalendarEvent) (raw_event : NostrEvent)
  : BaseCalendarEvent :=
  {| Base.id := id raw_event;
     Base.pubkey := pubkey raw_event;
     Base.created_at := created_at raw_event;
     Base.content := Base.content b;
     Base.tags := tags raw_event;
     Base.d := Base.d b;
     Base.title := Base.title b;
     Base.summary := kept (Base.summary b);
     Base.image := kept (Base.image b);
     Base.locations := Base.locations b;
     Base.geohash := kept (Base.geohash b);
     Base.participants := map reread_participant (Base.participants b);
     Base.hashtags := Base.hashtags b;
     Base.references := Base.references b;
     Base.calendarRefs := Base.calendarRefs b |}.

Definition reread (e : CalendarEvent) (raw_event : NostrEvent)
  : CalendarEvent :=
  match e with
  | DateBased b start end_ =>
      DateBased (reread_base b raw_event) start (kept end_)
  | TimeBased b start end_ tz1 tz2 =>
      TimeBased (reread_base b raw_event) start (kept_num end_)
                (kept tz1) (kept tz2)
  end.

(** [e] with the wire-only fields of [raw_event] (and its tag list) in
    place of its own; every other field is that of [e]. *)
Definition with_wire (e : CalendarEvent) (raw_event : NostrEvent)
  : CalendarEvent :=
  let wire (b : BaseCalendarEvent) :=
    {| Base.id := id raw_event;
       Base.pubkey := pubkey raw_event;
       Base.created_at := created_at raw_event;
       Base.content := Base.content b;
       Base.tags := tags raw_event;
       Base.d := Base.d b;
       Base.title := Base.title b;
       Base.summary := Base.summary b;
       Base.image := Base.image b;
       Base.locations := Base.locations b;
       Base.geohash := Base.geohash b;
       Base.participants := Base.participants b;
       Base.hashtags := Base.hashtags b;
       Base.references := Base.references b;
       Base.calendarRefs := Base.calendarRefs b |} in
  match e with
  | DateBased b start end_ => DateBased (wire b) start end_
  | TimeBased b start end_ tz1 tz2 => TimeBased (wire b) start end_ tz1 tz2
  end.

(** An optional string that is present is not empty. *)
Definition not_empty (v : JS.value) : Prop := v <> Some "".

(** No optional string of the object is the empty string. *)
Definition optional_strings_not_empty (e : CalendarEvent) : Prop :=
  let b := base_of e in
  not_empty (Base.summary b)
  /\ not_empty (Base.image b)
  /\ not_empty (Base.geohash b)
  /\ Forall (fun p => not_empty (Participant.relayUrl p)
                      /\ not_empty (Participant.role p))
            (Base.participants b)
  /\ match e with
     | DateBased _ _ end_ => not_empty end_
     | TimeBased _ _ _ tz1 tz2 => not_empty tz1 /\ not_empty tz2
     end.

(** A participant with a role also has a relay URL. *)
Definition roles_have_relay (e : CalendarEvent) : Prop :=
  Forall (fun p => Participant.role p <> None ->
                   Participant.relayUrl p <> None)
         (Base.participants (base_of e)).

(* ===================================================================== *)
(** ** Concrete wire events *)
(* ===================================================================== *)

(** The one-element a-tag, which [string[][]] admits. *)
Definition rsvp_bare_a_tag : NostrEvent :=
  {| id := "e1"; pubkey := "pub1"; created_at := 1717200000;
     kind := 31925;
     tags := [ tag_of ["a"]; tag_of ["d"; "r1"];
               tag_of ["status"; "accepted"] ];
     content := ""; sig := "" |}.

Definition declined_with_fb : NostrEvent :=
  {| id := "e2"; pubkey := "pub1"; created_at := 1717200000;
     kind := 31925;
     tags := [ tag_of ["a"; "31923:pub1:ev1"]; tag_of ["d"; "r1"];
               tag_of ["status"; "declined"]; tag_of ["fb"; "busy"] ];
     content := ""; sig := "" |}.



Definition raw (kind_ : Z) (tags_ : list Tag) : NostrEvent :=
  {| id := "e6"; pubkey := "pub1"; created_at := 1717200000;
     kind := kind_; tags := tags_; content := ""; sig := "" |}.

(** A date-based event whose start is not a date. *)
Definition date_event_bad_format : NostrEvent :=
  raw 31922 [ tag_of ["d"; "abc"]; tag_of ["title"; "Meetup"];
              tag_of ["start"; "next tuesday"] ].

(** A time-based event whose start is not positive. *)
Definition time_event_nonpositive_start : NostrEvent :=
  raw 31923 [ tag_of ["d"; "abc"]; tag_of ["title"; "Meetup"];
              tag_of ["start"; "-5"] ].

(** A time-based event that ends when it starts. *)
Definition time_event_end_at_start : NostrEvent :=
  raw 31923 [ tag_of ["d"; "abc"]; tag_of ["title"; "Meetup"];
              tag_of ["start"; "1717200000"];
              tag_of ["end"; "1717200000"] ].

(** A time-based event with a start_tzid. *)
Definition time_event_in_zone (tz : string) : NostrEvent :=
  raw 31923 [ tag_of ["d"; "abc"]; tag_of ["title"; "Meetup"];
              tag_of ["start"; "1717200000"];
              tag_of ["start_tzid"; tz] ].

(** June 2024 as a range, and a relay holding three events. *)
Definition june_start : Z := 1717200000.
Definition june_end : Z := 1719791999.

Definition ends_as_june_begins : NostrEvent :=
  {| id := "r1"; pubkey := "pub1"; created_at := 1717000000; kind := 31923;
     tags := [ tag_of ["d"; "a1"]; tag_of ["title"; "May closing"];
               tag_of ["start"; "1717192800"];
               tag_of ["end"; "1717200000"] ];
     content := ""; sig := "" |}.

Definition at_last_second_of_june : NostrEvent :=
  {| id := "r2"; pubkey := "pub1"; created_at := 1717000001; kind := 31923;
     tags := [ tag_of ["d"; "a2"]; tag_of ["title"; "Countdown"];
               tag_of ["start"; "1719791999"] ];
     content := ""; sig := "" |}.

Definition july_all_day : NostrEvent :=
  {| id := "r3"; pubkey := "pub1"; created_at := 1717000002; kind := 31922;
     tags := [ tag_of ["d"; "a3"]; tag_of ["title"; "Fair"];
               tag_of ["start"; "2024-07-01"] ];
     content := ""; sig := "" |}.

Definition small_relay (f : Filter) : list NostrEvent :=
  filter (fun e => includes_num (kinds f) (kind e))
         [ends_as_june_begins; at_last_second_of_june; july_all_day].

(** Two valid time-based events, both in the future of [clock_now]: the
    one published later starts later. *)
Definition clock_now : Z := 1717200000.
Definition clock_today : string := "2024-06-01".

Definition published_later_starts_later : NostrEvent :=
  {| id := "A"; pubkey := "pub1"; created_at := 1717100000; kind := 31923;
     tags := [ tag_of ["d"; "a"]; tag_of ["title"; "Autumn fair"];
               tag_of ["start"; "1727000000"] ];
     content := ""; sig := "" |}.

Definition published_earlier_starts_sooner : NostrEvent :=
  {| id := "B"; pubkey := "pub1"; created_at := 1717000000; kind := 31923;
     tags := [ tag_of ["d"; "b"]; tag_of ["title"; "Summer picnic"];
               tag_of ["start"; "1720000000"] ];
     content := ""; sig := "" |}.

Definition two_event_relay : Filter -> list NostrEvent :=
  Relay.query [published_later_starts_later;
               published_earlier_starts_sooner].

(** A valid upcoming event published at Unix second 1: the cursor after
    it is 0. *)
Definition published_at_second_one : NostrEvent :=
  {| id := "Z"; pubkey := "pub1"; created_at := 1; kind := 31923;
     tags := [ tag_of ["d"; "z"]; tag_of ["title"; "Long planned"];
               tag_of ["start"; "1727000000"] ];
     content := ""; sig := "" |}.

(* ===================================================================== *)
(** ** Concrete calendar objects *)
(* ===================================================================== *)

Definition base_with (id_ title_ : string) : BaseCalendarEvent :=
  {| Base.id := id_; Base.pubkey := "pub1"; Base.created_at := 1717200000;
     Base.content := ""; Base.tags := [];
     Base.d := "abc"; Base.title := title_;
     Base.summary := None; Base.image := None; Base.locations := [];
     Base.geohash := None; Base.participants := [];
     Base.hashtags := []; Base.references := []; Base.calendarRefs := [] |}.


(** A time-based event at 2024-05-31T23:00:00Z, which is 01:00 on June 1
    for an observer two hours ahead of UTC. *)
Definition late_evening_utc : CalendarEvent :=
  TimeBased (base_with "id3" "Night walk") 1717196400 None None None.

Definition all_day_june_first : CalendarEvent :=
  DateBased (base_with "id4" "Open day") "2024-06-01" None.

(** The second stored event as parseCalendarEvent returns it. *)
Definition countdown_parsed : CalendarEvent :=
  TimeBased
    {| Base.id := "r2"; Base.pubkey := "pub1";
       Base.created_at := 1717000001; Base.content := "";
       Base.tags := tags at_last_second_of_june;
       Base.d := "a2"; Base.title := "Countdown";
       Base.summary := None; Base.image := None; Base.locations := [];
       Base.geohash := None; Base.participants := [];
       Base.hashtags := []; Base.references := [];
       Base.calendarRefs := [] |}
    1719791999 None None None.



Definition meetup_base (summary_ : JS.value)
    (participants_ : list ParticipantInfo) : BaseCalendarEvent :=
  {| Base.id := ""; Base.pubkey := "pub1"; Base.created_at := 1717000000;
     Base.content := "Bring snacks"; Base.tags := [];
     Base.d := "abc"; Base.title := "Meetup";
     Base.summary := summary_; Base.image := None;
     Base.locations := [Some "Town hall"]; Base.geohash := Some "u33d";
     Base.participants := participants_;
     Base.hashtags := [Some "music"]; Base.references := [];
     Base.calendarRefs := [Some "31924:pub1:cal"] |}.



(** A participant with a role and no relay URL. *)
Definition speaker : ParticipantInfo :=
  {| Participant.pubkey := Some "pk3";
     Participant.relayUrl := None;
     Participant.role := Some "speaker" |}.

Definition meetup_with_speaker : CalendarEvent :=
  TimeBased (meetup_base (Some "Monthly") [speaker])
            1717200000 (Some 1717203600) (Some "Europe/Berlin") None.


Definition participants_of (o : option CalendarEvent)
  : option (list ParticipantInfo) :=
  option_map (fun e => Base.participants (base_of e)) o.

(* ===================================================================== *)
(** ** More JavaScript string primitives                                  *)
(* ===================================================================== *)

Module JSString.

(** [s.toLowerCase()] on code units below 256: A-Z and the Latin-1
    capitals (all of 0xC0-0xDE but the multiplication sign) move up by
    32. *)
Definition lower_char (c : ascii) : ascii :=
  let n := N_of_ascii c in
  if ((65 <=? n) && (n <=? 90)
      || (192 <=? n) && (n <=? 222) && negb (n =? 215))%N
  then ascii_of_N (n + 32)
  else c.

Fixpoint toLowerCase (s : string) : string :=
  match s with
  | EmptyString => EmptyString
  | String c s' => String (lower_char c) (toLowerCase s')
  end.

(** The trailing half of [s.trim()]. *)
Fixpoint trim_end (s : string) : string :=
  match s with
  | EmptyString => EmptyString
  | String c s' =>
      match trim_end s' with
      | EmptyString => if is_whitespace c then EmptyString
                       else String c EmptyString
      | rest => String c rest
      end
  end.

(** [s.trim()] *)
Definition trim (s : string) : string := trim_end (trim_start s).

(** [s.includes(sub)] *)
Fixpoint includes (sub s : string) : bool :=
  String.prefix sub s
  || match s with
     | EmptyString => false
     | String _ s' => includes sub s'
     end.

(** [s.startsWith(c)] for a one-character literal. *)
Definition startsWith (c : ascii) (s : string) : bool :=
  match s with
  | String c' _ => Ascii.eqb c' c
  | EmptyString => false
  end.

(** [s.slice(1)] *)
Definition slice1 (s : string) : string :=
  match s with
  | String _ s' => s'
  | EmptyString => EmptyString
  end.

(** [s.length > 0] *)
Definition nonempty (s : string) : bool := negb (s =? "")%string.

End JSString.

(** An async function's end: the value it resolves with, or the message
    of the [Error] it throws. *)
Inductive outcome (A : Type) : Type :=
| Resolved (a : A)
| Rejected (message : string).
Arguments Rejected {A} message.

(** [arr.filter(f)] for a callback that can throw: the first throw ends
    the call. *)
Fixpoint filter_throwing (A : Type) (f : A -> completion bool)
    (l : list A) : completion (list A) :=
  match l with
  | [] => Return []
  | x :: l' =>
      match f x with
      | ThrowTypeError => ThrowTypeError
      | Return keep =>
          match filter_throwing f l' with
          | ThrowTypeError => ThrowTypeError
          | Return rest => Return (if keep then x :: rest else rest)
          end
      end
  end.

(* ===================================================================== *)
(** ** The other query hooks (useCalendarEvents.ts)                       *)
(* ===================================================================== *)

(** A filter object with the [ids] and ['#t'] keys that the search and
    by-id hooks set. *)
Record NostrFilter := {
  nf_kinds : list Z;
  nf_ids : option (list string);
  nf_t : option (list string);
  nf_limit : option Z
}.

Section MoreHooks.

Variable isValidTimeZone : string -> bool.
Variable localeCompare : string -> string -> Z.

(** [nostr.query([filter], {signal})], for the two shapes of filter. *)
Variable query : Filter -> list NostrEvent.
Variable nostr_query : NostrFilter -> list NostrEvent.

(** *** useRecentCalendarEvents *)

(** The sort callback: ['start' in a && 'start' in b] holds of every
    parsed event. *)
Definition recent_compare (a b : CalendarEvent) : option Z :=
  match a, b with
  | DateBased _ a_start _, DateBased _ b_start _ =>
      Some (localeCompare a_start b_start)
  | TimeBased _ a_start _ _ _, TimeBased _ b_start _ _ _ =>
      Some (a_start - b_start)
  | _, _ => Some (ce_created_at a - ce_created_at b)
  end.

Definition useRecentCalendarEvents_queryFn (limit_ : Z)
  : list CalendarEvent :=
  let events :=
    query {| kinds := [31922; 31923]; limit := limit_; until := None |} in
  sort recent_compare
       (validate_parse_keep isValidTimeZone (fun _ => true) events).

(** *** useCalendarEventSearch *)

(** [event.locations.some(loc => loc.toLowerCase().includes(q))]: an
    undefined location has no [toLowerCase]. *)
Fixpoint some_location_includes (normalizedQuery : string)
    (locations : list JS.value) : completion bool :=
  match locations with
  | [] => Return false
  | None :: _ => ThrowTypeError
  | Some loc :: rest =>
      if JSString.includes normalizedQuery (JSString.toLowerCase loc)
      then Return true
      else some_location_includes normalizedQuery rest
  end.

(** The filter callback of the client-side text search. *)
Definition search_matches (normalizedQuery : string)
    (event : CalendarEvent) : completion bool :=
  let b := base_of event in
  if JSString.includes normalizedQuery
       (JSString.toLowerCase (Base.title b))
  then Return true else
  if JSString.includes normalizedQuery
       (JSString.toLowerCase (Base.content b))
  then Return true else
  (* event.summary?.toLowerCase().includes(normalizedQuery) *)
  if (match Base.summary b with
      | Some s => JSString.includes normalizedQuery (JSString.toLowerCase s)
      | None => false
      end)
  then Return true else
  some_location_includes normalizedQuery (Base.locations b).

Definition useCalendarEventSearch_queryFn (query_ : string) (limit_ : Z)
  : completion (list CalendarEvent) :=
  let normalizedQuery := JSString.toLowerCase (JSString.trim query_) in
  if negb (JSString.nonempty normalizedQuery) then Return [] else
  let hashtagEvents :=
    if JSString.startsWith "#" normalizedQuery then
      let hashtag := JSString.slice1 normalizedQuery in
      let events :=
        nostr_query {| nf_kinds := [31922; 31923]; nf_ids := None;
                       nf_t := Some [hashtag]; nf_limit := Some limit_ |} in
      validate_parse_keep isValidTimeZone (fun _ => true) events
    else [] in
  let allEvents :=
    nostr_query {| nf_kinds := [31922; 31923]; nf_ids := None;
                   nf_t := None;
                   nf_limit := Some (Z.max (limit_ * 2) 100) |} in
  match filter_throwing (search_matches normalizedQuery)
          (validate_parse_keep isValidTimeZone (fun _ => true) allEvents)
  with
  | ThrowTypeError => ThrowTypeError
  | Return parsedEvents => Return (uniqueEvents hashtagEvents parsedEvents)
  end.

(** *** useCalendarEvent *)

Definition useCalendarEvent_queryFn (id_ : string) : option CalendarEvent :=
  if negb (JSString.nonempty id_) then None else
  let events :=
    nostr_query {| nf_kinds := [31922; 31923]; nf_ids := Some [id_];
                   nf_t := None; nf_limit := None |} in
  match events with
  | [] => None
  | event :: _ =>
      if negb (validateCalendarEvent isValidTimeZone event) then None
      else parseCalendarEvent event
  end.

End MoreHooks.

(* ===================================================================== *)
(** ** Publishing (useCalendarPublish.ts)                                 *)
(* ===================================================================== *)

Module DateProps.
Record CreateDateEventProps := {
  title : string;
  start : string;
  end_ : JS.value;
  content : string;
  summary : JS.value;
  image : JS.value;
  locations : option (list JS.value);
  hashtags : option (list JS.value);
  references : option (list JS.value);
  calendarRefs : option (list JS.value)
}.
End DateProps.
Definition CreateDateEventProps := DateProps.CreateDateEventProps.

Module TimeProps.
(** [start: number] is NaN when it is [None]; [end?: number] can be
    undefined, NaN or a number. *)
Record CreateTimeEventProps := {
  title : string;
  start : option Z;
  end_ : option (option Z);
  content : string;
  summary : JS.value;
  image : JS.value;
  start_tzid : JS.value;
  end_tzid : JS.value;
  locations : option (list JS.value);
  hashtags : option (list JS.value);
  references : option (list JS.value);
  calendarRefs : option (list JS.value)
}.
End TimeProps.
Definition CreateTimeEventProps := TimeProps.CreateTimeEventProps.

Module RSVPArgs.
Record RSVPArgs := {
  eventId : JS.value;
  eventCoordinates : string;
  status : RSVPStatus;
  freebusy : option FreeBusy;
  note : JS.value;
  authorPubkey : JS.value
}.
End RSVPArgs.
Definition RSVPArgs := RSVPArgs.RSVPArgs.

(** [list || []] *)
Definition or_empty (l : option (list JS.value)) : list JS.value :=
  match l with
  | Some l' => l'
  | None => []
  end.

(** [note || ''] *)
Definition or_empty_string (v : JS.value) : string :=
  match v with
  | Some s => s
  | None => ""
  end.

Section Publish.

Variable isValidTimeZone : string -> bool.

(** [useCurrentUser()]: the pubkey of the logged-in user, if any. *)
Variable user : option string.

(** [Math.floor(Date.now() / 1000)] and the string
    [generateCalendarId()] returns. *)
Variable now : Z.
Variable generatedId : string.

(** The mutation of useDateBasedCalendarEvent, up to the call of
    [publishEvent]: it resolves with the event handed to the publisher. *)
Definition useDateBasedCalendarEvent_mutationFn
    (props : CreateDateEventProps) : outcome PartialNostrEvent :=
  match user with
  | None => Rejected "You must be logged in to create a calendar event"
  | Some user_pubkey =>
    if negb (dateRegex_test (DateProps.start props))
    then Rejected "Invalid start date format. Use YYYY-MM-DD" else
    if (match DateProps.end_ props with
        | Some e => truthy (DateProps.end_ props) && negb (dateRegex_test e)
        | None => false
        end)
    then Rejected "Invalid end date format. Use YYYY-MM-DD" else
    if (match DateProps.end_ props with
        | Some e => truthy (DateProps.end_ props)
                    && (e <=? DateProps.start props)%string
        | None => false
        end)
    then Rejected "End date must be after start date" else
    let event :=
      DateBased
        {| Base.id := "";
           Base.pubkey := user_pubkey;
           Base.created_at := now;
           Base.content := DateProps.content props;
           Base.tags := [];
           Base.d := generatedId;
           Base.title := DateProps.title props;
           Base.summary := DateProps.summary props;
           Base.image := DateProps.image props;
           Base.locations := or_empty (DateProps.locations props);
           Base.geohash := None;
           Base.participants := [];
           Base.hashtags := or_empty (DateProps.hashtags props);
           Base.references := or_empty (DateProps.references props);
           Base.calendarRefs := or_empty (DateProps.calendarRefs props) |}
        (DateProps.start props) (DateProps.end_ props) in
    Resolved (serializeCalendarEvent event)
  end.


(** The mutation of useCalendarEventRSVP: it builds the tags itself. *)
Definition useCalendarEventRSVP_mutationFn (args : RSVPArgs)
  : outcome PartialNostrEvent :=
  match user with
  | None => Rejected "You must be logged in to RSVP to an event"
  | Some _ =>
    if (status_string (RSVPArgs.status args) =? "declined")%string
       && (match RSVPArgs.freebusy args with
           | Some _ => true
           | None => false
           end)
    then Rejected "Free/busy status cannot be set when declining an event"
    else
    let tags_ :=
      [ [Some "a"; Some (RSVPArgs.eventCoordinates args)];
        [Some "d"; Some generatedId];
        [Some "status"; Some (status_string (RSVPArgs.status args))] ]
      ++ push_if "e" (RSVPArgs.eventId args)
      ++ (match RSVPArgs.freebusy args with
          | Some fb =>
              if negb (status_string (RSVPArgs.status args)
                       =? "declined")%string
              then [[Some "fb"; Some (freebusy_string fb)]] else []
          | None => []
          end)
      ++ push_if "p" (RSVPArgs.authorPubkey args) in
    Resolved {| p_kind := 31925;
                p_content := or_empty_string (RSVPArgs.note args);
                p_tags := tags_ |}
  end.

End Publish.

(* ===================================================================== *)
(** ** Callers in the components                                          *)
(* ===================================================================== *)

(** CalendarEventCard.handleRSVP: the arguments it sends for [event]. *)
Definition handleRSVP (event : CalendarEvent) (status_ : RSVPStatus)
  : RSVPArgs :=
  let b := base_of event in
  (* `${event.kind}:${event.pubkey}:${event.d}` *)
  let eventCoordinates_ :=
    (toString (kind_of event) ++ ":" ++ Base.pubkey b ++ ":" ++ Base.d b)
      %string in
  {| RSVPArgs.eventId := Some (Base.id b);
     RSVPArgs.eventCoordinates := eventCoordinates_;
     RSVPArgs.status := status_;
     RSVPArgs.freebusy :=
       if negb (status_string status_ =? "declined")%string
       then Some busy else None;
     RSVPArgs.note := Some "";
     RSVPArgs.authorPubkey := Some (Base.pubkey b) |}.

(** CalendarEventForm.processHashtags:
    [hashtagsStr.split(',').map(tag => tag.trim())
       .filter(tag => tag.length > 0)] *)
Definition processHashtags (hashtagsStr : JS.value) : list string :=
  match hashtagsStr with
  | Some s =>
      if negb (truthy hashtagsStr) then []
      else filter JSString.nonempty (map JSString.trim (split "," s))
  | None => []
  end.

(** The values of the date-based form.  Its two dates are [Date]
    objects that the handler formats with date-fns; the formatted
    strings are arguments of the model. *)
Module DateForm.
Record DateBasedFormValues := {
  title : string;
  content : string;
  summary : JS.value;
  image : JS.value;
  location : JS.value;
  hashtags : JS.value
}.
End DateForm.
Definition DateBasedFormValues := DateForm.DateBasedFormValues.

(** [v || undefined] *)
Definition or_undefined (v : JS.value) : JS.value :=
  if truthy v then v else None.

(** CalendarEventForm.onDateBasedSubmit: the argument it passes to
    [createDateEvent], for the formatted [startDate] and [endDate]. *)
Definition onDateBasedSubmit_props (values : DateBasedFormValues)
    (startDate : string) (endDate : JS.value) : CreateDateEventProps :=
  {| DateProps.title := DateForm.title values;
     DateProps.start := startDate;
     DateProps.end_ := endDate;
     DateProps.content := DateForm.content values;
     DateProps.summary := or_undefined (DateForm.summary values);
     DateProps.image := or_undefined (DateForm.image values);
     DateProps.locations :=
       Some (if truthy (DateForm.location values)
             then [DateForm.location values] else []);
     DateProps.hashtags :=
       Some (map Some (processHashtags (DateForm.hashtags values)));
     DateProps.references := None;
     DateProps.calendarRefs := None |}.

(* ===================================================================== *)
(** ** Notions the further statements use                                 *)
(* ===================================================================== *)

(** The start of a time-based event. *)
Definition time_start (e : CalendarEvent) : option Z :=
  match e with
  | TimeBased _ start _ _ _ => Some start
  | DateBased _ _ _ => None
  end.

(** [a] starts no later than [b], both time-based. *)
Definition starts_no_later (a b : CalendarEvent) : Prop :=
  match time_start a, time_start b with
  | Some sa, Some sb => sa <= sb
  | _, _ => False
  end.

(** The calendar object an RSVP is, for the arguments of the hook. *)
Definition rsvp_of_args (user_pubkey : string) (now : Z)
    (generatedId : string) (args : RSVPArgs) : CalendarEventRSVP :=
  {| RSVP.id := "";
     RSVP.pubkey := user_pubkey;
     RSVP.created_at := now;
     RSVP.content := or_empty_string (RSVPArgs.note args);
     RSVP.eventCoordinates := RSVPArgs.eventCoordinates args;
     RSVP.eventId := RSVPArgs.eventId args;
     RSVP.d := generatedId;
     RSVP.status := RSVPArgs.status args;
     RSVP.freebusy := RSVPArgs.freebusy args;
     RSVP.authorPubkey := RSVPArgs.authorPubkey args |}.

(** A coordinate string [kind:pubkey:identifier] of a calendar event. *)
Definition coordinate (kind_ : Z) (pubkey_ identifier : string) : string :=
  (toString kind_ ++ ":" ++ pubkey_ ++ ":" ++ identifier)%string.

(** [s] does not begin with white space. *)
Definition no_leading_whitespace (s : string) : Prop :=
  match s with
  | String c _ => is_whitespace c = false
  | EmptyString => True
  end.

(** A time-based event. *)
Definition is_time_based (e : CalendarEvent) : Prop := time_start e <> None.

(** The search hook's [normalizedQuery] and the two filters it sends. *)
Definition search_term (query_ : string) : string :=
  JSString.toLowerCase (JSString.trim query_).

Definition broad_filter (limit_ : Z) : NostrFilter :=
  {| nf_kinds := [31922; 31923]; nf_ids := None; nf_t := None;
     nf_limit := Some (Z.max (limit_ * 2) 100) |}.

Definition hashtag_filter (hashtag : string) (limit_ : Z) : NostrFilter :=
  {| nf_kinds := [31922; 31923]; nf_ids := None; nf_t := Some [hashtag];
     nf_limit := Some limit_ |}.

(** A relay that honours [ids]: it answers with events of these ids. *)
Definition honours_ids (nostr_query : NostrFilter -> list NostrEvent)
  : Prop :=
  forall f ids event,
    nf_ids f = Some ids -> In event (nostr_query f) -> In (id event) ids.

(** A relay over a fixed store, for filters with [ids] and ['#t']: the
    events matching every key of the filter, newest first, at most
    [limit] of them. *)
Definition nostr_matches (f : NostrFilter) (e : NostrEvent) : bool :=
  includes_num (nf_kinds f) (kind e)
  && match nf_ids f with
     | Some ids => JS.includes ids (id e)
     | None => true
     end
  && match nf_t f with
     | Some names =>
         existsb (fun tag =>
                    has_name "t" tag
                    && match slot tag 1 with
                       | Some v => JS.includes names v
                       | None => false
                       end)
                 (tags e)
     | None => true
     end.

Definition stored_query (stored : list NostrEvent) (f : NostrFilter)
  : list NostrEvent :=
  let hits := sort Relay.newest_first (filter (nostr_matches f) stored) in
  match nf_limit f with
  | Some n => firstn (Z.to_nat n) hits
  | None => hits
  end.

(** A civil date as one number: the digits of YYYYMMDD. *)
Definition date_key (ymd : Z * Z * Z) : Z :=
  let '(y, m, d) := ymd in y * 10000 + m * 100 + d.

(** The days of a year before the first of month [m]. *)
Definition days_before_month (leap : bool) (m : Z) : Z :=
  if m =? 1 then 0 else if m =? 2 then 31 else
  (if leap then 1 else 0)
  + (if m =? 3 then 59 else if m =? 4 then 90 else if m =? 5 then 120 else
     if m =? 6 then 151 else if m =? 7 then 181 else if m =? 8 then 212 else
     if m =? 9 then 243 else if m =? 10 then 273 else if m =? 11 then 304
     else 334).

(** The instant an event begins, in Unix seconds: its start, or 00:00
    UTC of its start date; [None] when the start is no calendar date. *)
Definition start_instant (e : CalendarEvent) : option Z :=
  match e with
  | TimeBased _ start _ _ _ => Some start
  | DateBased _ start _ =>
      match Date_getTime start with
      | Some ms => Some (ms / 1000)
      | None => None
      end
  end.

Definition begins_no_later (a b : CalendarEvent) : Prop :=
  match start_instant a, start_instant b with
  | Some ia, Some ib => ia <= ib
  | _, _ => False
  end.

(** A collation that orders strings by their code units. *)
Definition code_unit_compare (a b : string) : Z :=
  match String.compare a b with
  | Lt => -1
  | Eq => 0
  | Gt => 1
  end.

(* ===================================================================== *)
(** ** Further concrete events                                            *)
(* ===================================================================== *)

(** A time-based event whose end tag reads as 0, and what
    parseCalendarEvent makes of it. *)
Definition time_event_end_zero : NostrEvent :=
  raw 31923 [ tag_of ["d"; "abc"]; tag_of ["title"; "Meetup"];
              tag_of ["start"; "1717200000"]; tag_of ["end"; "0"] ].

Definition end_zero_parsed : CalendarEvent :=
  TimeBased
    {| Base.id := "e6"; Base.pubkey := "pub1";
       Base.created_at := 1717200000; Base.content := "";
       Base.tags := tags time_event_end_zero;
       Base.d := "abc"; Base.title := "Meetup";
       Base.summary := None; Base.image := None; Base.locations := [];
       Base.geohash := None; Base.participants := [];
       Base.hashtags := []; Base.references := [];
       Base.calendarRefs := [] |}
    1717200000 None None None.

(* ===================================================================== *)
(** ** Concrete form input and RSVPs                                      *)
(* ===================================================================== *)

Definition picnic_props : CreateDateEventProps :=
  {| DateProps.title := "Picnic";
     DateProps.start := "2024-06-01";
     DateProps.end_ := Some "2024-06-02";
     DateProps.content := "Bring food";
     DateProps.summary := None;
     DateProps.image := None;
     DateProps.locations := Some [Some "Park"];
     DateProps.hashtags := Some [Some "food"];
     DateProps.references := None;
     DateProps.calendarRefs := None |}.


(** A time-zone table that knows two zones. *)
Definition two_zones (tz : string) : bool :=
  ((tz =? "Europe/Berlin") || (tz =? "UTC"))%string.

(** What the hooks hand to the publisher for this input, for the user
    pub1 and the generated identifier k3x9. *)
Definition picnic_wire : PartialNostrEvent :=
  {| p_kind := 31922;
     p_content := "Bring food";
     p_tags := [ tag_of ["d"; "k3x9"]; tag_of ["title"; "Picnic"];
                 tag_of ["location"; "Park"]; tag_of ["t"; "food"];
                 tag_of ["start"; "2024-06-01"];
                 tag_of ["end"; "2024-06-02"] ] |}.


(** An accepted RSVP to a time-based event. *)
Definition going : CalendarEventRSVP :=
  {| RSVP.id := "";
     RSVP.pubkey := "pub2";
     RSVP.created_at := 1717000500;
     RSVP.content := "";
     RSVP.eventCoordinates := "31923:pub1:abc";
     RSVP.eventId := Some "e1";
     RSVP.d := "r7";
     RSVP.status := accepted;
     RSVP.freebusy := Some busy;
     RSVP.authorPubkey := Some "pub1" |}.

(** The two events of [two_event_relay], parsed. *)
Definition autumn_fair : CalendarEvent :=
  TimeBased
    {| Base.id := "A"; Base.pubkey := "pub1";
       Base.created_at := 1717100000; Base.content := "";
       Base.tags := tags published_later_starts_later;
       Base.d := "a"; Base.title := "Autumn fair";
       Base.summary := None; Base.image := None; Base.locations := [];
       Base.geohash := None; Base.participants := [];
       Base.hashtags := []; Base.references := [];
       Base.calendarRefs := [] |}
    1727000000 None None None.

Definition summer_picnic : CalendarEvent :=
  TimeBased
    {| Base.id := "B"; Base.pubkey := "pub1";
       Base.created_at := 1717000000; Base.content := "";
       Base.tags := tags published_earlier_starts_sooner;
       Base.d := "b"; Base.title := "Summer picnic";
       Base.summary := None; Base.image := None; Base.locations := [];
       Base.geohash := None; Base.participants := [];
       Base.hashtags := []; Base.references := [];
       Base.calendarRefs := [] |}
    1720000000 None None None.

(** An event with a location and a hashtag, and a relay that stores it
    beside two others. *)
Definition garden_party : NostrEvent :=
  {| id := "g1"; pubkey := "pub1"; created_at := 1717000003; kind := 31923;
     tags := [ tag_of ["d"; "g"]; tag_of ["title"; "Garden Party"];
               tag_of ["start"; "1718000000"];
               tag_of ["location"; "Botanic Garden"];
               tag_of ["t"; "music"] ];
     content := ""; sig := "" |}.

Definition garden_parsed : CalendarEvent :=
  TimeBased
    {| Base.id := "g1"; Base.pubkey := "pub1";
       Base.created_at := 1717000003; Base.content := "";
       Base.tags := tags garden_party;
       Base.d := "g"; Base.title := "Garden Party";
       Base.summary := None; Base.image := None;
       Base.locations := [Some "Botanic Garden"];
       Base.geohash := None; Base.participants := [];
       Base.hashtags := [Some "music"]; Base.references := [];
       Base.calendarRefs := [] |}
    1718000000 None None None.

Definition library_relay : NostrFilter -> list NostrEvent :=
  stored_query [garden_party; at_last_second_of_june; july_all_day].

(** A date-based event of two days, and what parseCalendarEvent makes
    of it. *)
Definition weekend_fair : NostrEvent :=
  {| id := "w1"; pubkey := "pub1"; created_at := 1717000004; kind := 31922;
     tags := [ tag_of ["d"; "w"]; tag_of ["title"; "Weekend fair"];
               tag_of ["start"; "2024-07-06"];
               tag_of ["end"; "2024-07-07"] ];
     content := ""; sig := "" |}.

Definition weekend_fair_parsed_base : BaseCalendarEvent :=
  {| Base.id := "w1"; Base.pubkey := "pub1";
     Base.created_at := 1717000004; Base.content := "";
     Base.tags := tags weekend_fair;
     Base.d := "w"; Base.title := "Weekend fair";
     Base.summary := None; Base.image := None; Base.locations := [];
     Base.geohash := None; Base.participants := [];
     Base.hashtags := []; Base.references := [];
     Base.calendarRefs := [] |}.

(** A filled-in date-based form. *)
Definition picnic_form : DateBasedFormValues :=
  {| DateForm.title := "Picnic";
     DateForm.content := "Bring food";
     DateForm.summary := Some "";
     DateForm.image := Some "";
     DateForm.location := Some "Park";
     DateForm.hashtags := Some " food, ,outdoor fun ," |}.

Definition picnic_form_wire : PartialNostrEvent :=
  {| p_kind := 31922;
     p_content := "Bring food";
     p_tags := [ tag_of ["d"; "k3x9"]; tag_of ["title"; "Picnic"];
                 tag_of ["location"; "Park"]; tag_of ["t"; "food"];
                 tag_of ["t"; "outdoor fun"];
                 tag_of ["start"; "2024-06-01"] ] |}.

(* ===================================================================== *)
(** * Properties                                                          *)
(* ===================================================================== *)

(** ** Tag accessor facts *)

Lemma truthy_Some (s : string) : truthy (Some s) = true <-> s <> "".
Proof.
  unfold truthy. destruct (String.eqb_spec s ""); simpl; split;
    congruence.
Qed.

Lemma truthy_defined (v : JS.value) :
  truthy v = true -> exists s, v = Some s /\ s <> "".
Proof.
  destruct v as [s|]; simpl; [|discriminate].
  intros H. exists s. split; [reflexivity|]. now apply truthy_Some.
Qed.

Lemma find_existsb (A : Type) (f : A -> bool) (l : list A) :
  existsb f l = true -> exists x, find f l = Some x.
Proof.
  induction l as [|a l IH]; simpl; [discriminate|].
  destruct (f a); [eauto | exact IH].
Qed.

(** ** The validators *)

(** C3 (the code departs from it).  Stated: each validator returns a
    boolean on every raw event and never throws.  On an RSVP whose first
    a-tag has no value, [aTag[1]] is undefined and [aValue.split(':')]
    raises a TypeError, so validateCalendarEventRSVP does not return. *)
Theorem validateCalendarEventRSVP_throws_on_bare_a_tag :
  validateCalendarEventRSVP rsvp_bare_a_tag = ThrowTypeError.
Proof. reflexivity. Qed.

(** The throw has that one cause: the first a-tag lacks its value. *)
Lemma validateCalendarEventRSVP_throws_only_on_bare_a_tag event :
  validateCalendarEventRSVP event = ThrowTypeError ->
  exists aTag, find (has_name "a") (tags event) = Some aTag
               /\ slot aTag 1 = None.
Proof.
  unfold validateCalendarEventRSVP.
  destruct (negb (kind event =? 31925)); [discriminate|].
  destruct (getTagValue event "status") as [st|]; [|discriminate].
  destruct (find (has_name "a") (tags event)) as [aTag|]; [|discriminate].
  intros H. exists aTag. split; [reflexivity|].
  repeat match type of H with
         | (if ?c then _ else _) = _ => destruct c; [discriminate|]
         end.
  destruct (slot aTag 1) as [v|]; [|reflexivity].
  exfalso.
  repeat match type of H with
         | (if ?c then _ else _) = _ => destruct c; try discriminate
         | match ?c with _ => _ end = _ => destruct c; try discriminate
         end.
Qed.

(** Everywhere else it returns a boolean.  validateCalendarEvent and
    validateCalendar read tag values through getTagValue's [?.] only and
    isValidTimeZone catches its own error: they are total functions to
    [bool]. *)
Lemma validateCalendarEventRSVP_returns event :
  (forall aTag, find (has_name "a") (tags event) = Some aTag ->
                slot aTag 1 <> None) ->
  exists result, validateCalendarEventRSVP event = Return result.
Proof.
  intros Ha.
  destruct (validateCalendarEventRSVP event) as [result|] eqn:Hr;
    [now exists result|].
  apply validateCalendarEventRSVP_throws_only_on_bare_a_tag in Hr.
  destruct Hr as (aTag & Hfind & Hslot). now apply Ha in Hfind.
Qed.

(** C4.  A kind-31925 event whose status is "declined" and that carries
    any tag named "fb" is rejected: validateCalendarEventRSVP returns
    false, whatever the fb tag holds. *)
Theorem declined_rsvp_with_fb_is_invalid event :
  kind event = 31925 ->
  getTagValue event "status" = Some "declined" ->
  existsb (has_name "fb") (tags event) = true ->
  validateCalendarEventRSVP event = Return false.
Proof.
  intros Hk Hs Hfb. unfold validateCalendarEventRSVP.
  rewrite Hk, Hs. simpl.
  destruct (find (has_name "a") (tags event)); [|reflexivity].
  destruct (find_existsb _ _ Hfb) as [fb ->].
  destruct (negb (truthy (getTagValue event "d"))); reflexivity.
Qed.

Lemma declined_rsvp_with_fb_is_invalid_witness :
  validateCalendarEventRSVP declined_with_fb = Return false.
Proof.
  apply (declined_rsvp_with_fb_is_invalid declined_with_fb);
    reflexivity.
Defined.

(** The same tags with status "accepted" pass (scenario 5 of the spec). *)
Example accepted_rsvp_with_fb_is_valid :
  validateCalendarEventRSVP
    {| id := "e3"; pubkey := "pub1"; created_at := 1717200000;
       kind := 31925;
       tags := [ tag_of ["a"; "31923:pub1:ev1"]; tag_of ["d"; "r1"];
                 tag_of ["status"; "accepted"]; tag_of ["fb"; "busy"] ];
       content := ""; sig := "" |} = Return true.
Proof. reflexivity. Qed.

(** ** parseCalendarEvent *)

Lemma parseCalendarEvent_defined_iff event :
  parseCalendarEvent event <> None <-> parse_checks event = true.
Proof.
  unfold parseCalendarEvent, parse_checks.
  destruct (kind event =? 31922), (kind event =? 31923); simpl;
    try (split; [congruence | discriminate]);
    destruct (getTagValue event "d") as [dv|]; simpl;
    try (split; [congruence | discriminate]);
    destruct (getTagValue event "title") as [tv|]; simpl;
    try (split; [congruence | rewrite ?andb_false_r; discriminate]);
    destruct (getTagValue event "start") as [sv|]; simpl;
    try (split; [congruence | rewrite ?andb_false_r; discriminate]);
    destruct (dv =? "")%string, (tv =? "")%string, (sv =? "")%string; simpl;
    try (split; [congruence | discriminate]);
    try destruct (parseInt sv); simpl;
    split; congruence.
Qed.



(** ** parseCalendarEvent against validateCalendarEvent *)

Lemma validated_event_parses isValidTimeZone event :
  validateCalendarEvent isValidTimeZone event = true ->
  parseCalendarEvent event <> None.
Proof.
  intros Hv. apply parseCalendarEvent_defined_iff.
  revert Hv. unfold validateCalendarEvent, parse_checks, includes_num.
  simpl existsb. rewrite orb_false_r.
  destruct (kind event =? 31922) eqn:K2, (kind event =? 31923) eqn:K3;
    simpl; try discriminate;
    destruct (getTagValue event "start") as [sv|]; try discriminate;
    destruct (truthy (getTagValue event "d")); simpl; try discriminate;
    destruct (truthy (getTagValue event "title")); simpl; try discriminate;
    destruct (negb (sv =? "")%string); simpl; try discriminate;
    try reflexivity.
  unfold time_rules. destruct (parseInt sv); simpl; [reflexivity|discriminate].
Qed.

(** C10.  parseCalendarEvent accepts every event that
    validateCalendarEvent accepts and strictly more.  It returns an object
    exactly when the kind is 31922 or 31923, the d, title and start values
    are there and non-empty, and, for kind 31923, start parses to a number.
    So it has no date-format check, no positivity check, no end-after-start
    check and no timezone check: an event failing any one of these is
    rejected by the validator and still parsed. *)
Theorem parse_enforces_less_than_validator
    (isValidTimeZone : string -> bool) :
  (forall event, validateCalendarEvent isValidTimeZone event = true ->
                 parseCalendarEvent event <> None)
  /\ (forall event, parseCalendarEvent event <> None
                    <-> parse_checks event = true)
  /\ (validateCalendarEvent isValidTimeZone date_event_bad_format = false
      /\ exists b, parseCalendarEvent date_event_bad_format
                   = Some (DateBased b "next tuesday" None))
  /\ (validateCalendarEvent isValidTimeZone time_event_nonpositive_start
      = false
      /\ exists b, parseCalendarEvent time_event_nonpositive_start
                   = Some (TimeBased b (-5) None None None))
  /\ (validateCalendarEvent isValidTimeZone time_event_end_at_start = false
      /\ exists b, parseCalendarEvent time_event_end_at_start
                   = Some (TimeBased b 1717200000 (Some 1717200000)
                                     None None))
  /\ (forall tz, tz <> "" -> isValidTimeZone tz = false ->
        validateCalendarEvent isValidTimeZone (time_event_in_zone tz) = false
        /\ exists b, parseCalendarEvent (time_event_in_zone tz)
                     = Some (TimeBased b 1717200000 None (Some tz) None)).
Proof.
  split; [intros e; apply validated_event_parses|].
  split; [exact parseCalendarEvent_defined_iff|].
  split; [split; [reflexivity | eexists; reflexivity]|].
  split; [split; [reflexivity | eexists; reflexivity]|].
  split; [split; [reflexivity | eexists; reflexivity]|].
  intros tz Hne Hbad. split; [|eexists; reflexivity].
  apply truthy_Some in Hne. simpl in Hne.
  unfold validateCalendarEvent. simpl.
  unfold time_rules, bad_tz. simpl. rewrite Hne, Hbad. reflexivity.
Qed.

Lemma parse_enforces_less_than_validator_witness :
  validateCalendarEvent (fun tz => (tz =? "UTC")%string)
                        (time_event_in_zone "Mars/Olympus") = false
  /\ exists b, parseCalendarEvent (time_event_in_zone "Mars/Olympus")
               = Some (TimeBased b 1717200000 None
                                 (Some "Mars/Olympus") None).
Proof.
  apply (proj2 (proj2 (proj2 (proj2 (proj2
           (parse_enforces_less_than_validator
              (fun tz => (tz =? "UTC")%string))))))
           "Mars/Olympus");
    [discriminate | reflexivity].
Defined.

(** ** serializeCalendarRSVP *)

(** C8.  serializeCalendarRSVP returns a kind-31925 partial event whose
    tags are, in this order: the a-tag with the coordinates, d, status,
    an e-tag iff an event id was supplied, an fb-tag iff a free/busy value
    was supplied and the status is not "declined" (with "declined" the
    value is dropped, nothing is raised), a p-tag iff the original author's
    pubkey was supplied. *)
Theorem serializeCalendarRSVP_tag_order (rsvp : CalendarEventRSVP) :
  p_kind (serializeCalendarRSVP rsvp) = 31925
  /\ p_content (serializeCalendarRSVP rsvp) = RSVP.content rsvp
  /\ p_tags (serializeCalendarRSVP rsvp)
     = [ tag_of ["a"; RSVP.eventCoordinates rsvp];
         tag_of ["d"; RSVP.d rsvp];
         tag_of ["status"; status_string (RSVP.status rsvp)] ]
       ++ optional_tag "e" (RSVP.eventId rsvp)
       ++ match RSVP.status rsvp, RSVP.freebusy rsvp with
          | declined, _ => []
          | _, None => []
          | _, Some fb => [tag_of ["fb"; freebusy_string fb]]
          end
       ++ optional_tag "p" (RSVP.authorPubkey rsvp).
Proof.
  split; [reflexivity|]. split; [reflexivity|].
  unfold serializeCalendarRSVP, push_if, optional_tag, truthy. simpl.
  do 3 f_equal.
  destruct (RSVP.eventId rsvp) as [e|];
    [destruct (e =? "")%string|]; simpl;
    (destruct (RSVP.status rsvp), (RSVP.freebusy rsvp) as [fb|]; simpl;
     (destruct (RSVP.authorPubkey rsvp) as [p|];
      [destruct (p =? "")%string|]; reflexivity)).
Qed.

(** A declined RSVP never carries an fb-tag, so the serializer's output
    cannot trip the validator's declined/fb rule. *)
Lemma serializeCalendarRSVP_declined_no_fb (rsvp : CalendarEventRSVP) :
  RSVP.status rsvp = declined ->
  existsb (has_name "fb") (p_tags (serializeCalendarRSVP rsvp)) = false.
Proof.
  intros Hd. unfold serializeCalendarRSVP, push_if, truthy. simpl.
  rewrite Hd. simpl.
  destruct (RSVP.eventId rsvp) as [e|];
    [destruct (e =? "")%string|];
    (destruct (RSVP.freebusy rsvp);
     (destruct (RSVP.authorPubkey rsvp) as [p|];
      [destruct (p =? "")%string|])); reflexivity.
Qed.

(** ** The insertion-ordered Map and the search deduplication *)

Section MapFacts.
Variable V : Type.

Lemma Map_keys_set (m : Map V) k v :
  Map_keys (Map_set m k v)
  = if mem k (Map_keys m) then Map_keys m else Map_keys m ++ [k].
Proof.
  induction m as [|[k' v'] m IH]; simpl; [reflexivity|].
  destruct (k' =? k)%string; simpl; [reflexivity|].
  rewrite IH. fold (Map_keys m). destruct (mem k (Map_keys m)); reflexivity.
Qed.

Lemma Map_get_set (m : Map V) k v k' :
  Map_get (Map_set m k v) k'
  = if (k =? k')%string then Some v else Map_get m k'.
Proof.
  induction m as [|[k0 v0] m IH]; simpl.
  - reflexivity.
  - destruct (String.eqb_spec k0 k) as [->|Hne]; simpl.
    + destruct (k =? k')%string; reflexivity.
    + rewrite IH. destruct (String.eqb_spec k0 k') as [->|Hne'].
      * destruct (String.eqb_spec k k'); [congruence | reflexivity].
      * reflexivity.
Qed.

Lemma filter_not_mem_app ks k (X : list string) :
  filter (fun x => negb (mem x (ks ++ [k]))) X
  = filter (fun x => negb (mem x ks))
           (filter (fun x => negb (x =? k)%string) X).
Proof.
  induction X as [|x X IH]; simpl; [reflexivity|].
  unfold mem at 1. rewrite existsb_app. simpl. rewrite orb_false_r.
  fold (mem x ks). rewrite (String.eqb_sym k x).
  destruct (x =? k)%string; simpl.
  - rewrite orb_true_r. simpl. exact IH.
  - rewrite orb_false_r. destruct (mem x ks); simpl; rewrite IH;
      reflexivity.
Qed.

Lemma filter_not_mem_absorb ks k (X : list string) :
  mem k ks = true ->
  filter (fun x => negb (mem x ks))
         (filter (fun x => negb (x =? k)%string) X)
  = filter (fun x => negb (mem x ks)) X.
Proof.
  intros Hk. induction X as [|x X IH]; simpl; [reflexivity|].
  destruct (String.eqb_spec x k) as [->|Hne]; simpl.
  - rewrite Hk. simpl. exact IH.
  - rewrite IH. reflexivity.
Qed.

Lemma Map_keys_fold (entries : list (string * V)) (m : Map V) :
  Map_keys (fold_left (fun m kv => Map_set m (fst kv) (snd kv)) entries m)
  = Map_keys m
    ++ filter (fun x => negb (mem x (Map_keys m)))
              (first_occurrences (map fst entries)).
Proof.
  revert m. induction entries as [|[k v] es IH]; intros m; simpl.
  - now rewrite List.app_nil_r.
  - rewrite IH, Map_keys_set.
    destruct (mem k (Map_keys m)) eqn:Hk; simpl.
    + now rewrite filter_not_mem_absorb.
    + rewrite <- List.app_assoc. simpl. now rewrite filter_not_mem_app.
Qed.

Lemma filter_all (A : Type) (l : list A) : filter (fun _ => true) l = l.
Proof. induction l; simpl; congruence. Qed.

(** The keys of [new Map(entries)]: every key once, where it first
    occurs. *)
Lemma Map_keys_new (entries : list (string * V)) :
  Map_keys (Map_new entries) = first_occurrences (map fst entries).
Proof.
  unfold Map_new. rewrite Map_keys_fold. simpl. apply filter_all.
Qed.

(** The value of [new Map(entries)] at a key: the last one set. *)
Lemma Map_get_new (entries : list (string * V)) k :
  Map_get (Map_new entries) k = assoc k (rev entries).
Proof.
  unfold Map_new. rewrite <- fold_left_rev_right.
  induction (rev entries) as [|[k' v'] l IH]; simpl; [reflexivity|].
  rewrite Map_get_set, IH. reflexivity.
Qed.

Lemma first_occurrences_In ks k :
  In k (first_occurrences ks) <-> In k ks.
Proof.
  induction ks as [|a ks IH]; simpl; [tauto|].
  rewrite filter_In, IH. destruct (String.eqb_spec k a) as [->|Hne];
    simpl; intuition congruence.
Qed.

Lemma NoDup_filter (A : Type) (f : A -> bool) (l : list A) :
  NoDup l -> NoDup (filter f l).
Proof.
  induction 1 as [|x l Hx Hl IH]; simpl; [constructor|].
  destruct (f x); [constructor|]; auto.
  rewrite filter_In. tauto.
Qed.

Lemma first_occurrences_NoDup ks : NoDup (first_occurrences ks).
Proof.
  induction ks as [|a ks IH]; simpl; constructor.
  - rewrite filter_In. intros [_ H]. now rewrite String.eqb_refl in H.
  - now apply NoDup_filter.
Qed.

Lemma Map_get_In (m : Map V) k v :
  NoDup (Map_keys m) -> In (k, v) m -> Map_get m k = Some v.
Proof.
  induction m as [|[k' v'] m IH]; simpl; [tauto|].
  intros Hnd [Heq|Hin].
  - injection Heq as -> ->. now rewrite String.eqb_refl.
  - inversion Hnd as [|? ? Hk' Hnd']; subst.
    destruct (String.eqb_spec k' k) as [->|Hne].
    + exfalso. apply Hk'. change k with (fst (k, v)).
      now apply in_map.
    + now apply IH.
Qed.

End MapFacts.

Lemma assoc_entries k (l : list CalendarEvent) :
  assoc k (map entry_of l) = find (fun x => (ce_id x =? k)%string) l.
Proof.
  induction l as [|e l IH]; simpl; [reflexivity|].
  rewrite IH. reflexivity.
Qed.

Lemma uniqueEvents_ids hashtagEvents parsedEvents :
  map ce_id (uniqueEvents hashtagEvents parsedEvents)
  = first_occurrences (map ce_id (hashtagEvents ++ parsedEvents)).
Proof.
  unfold uniqueEvents, Map_values.
  set (entries := map _ (hashtagEvents ++ parsedEvents)).
  assert (Hk := Map_keys_new entries).
  assert (He : map fst entries = map ce_id (hashtagEvents ++ parsedEvents)).
  { unfold entries. rewrite map_map. reflexivity. }
  rewrite He in Hk. rewrite <- Hk. unfold Map_keys.
  assert (Hinv : forall kv, In kv (Map_new entries) -> fst kv = ce_id (snd kv)).
  { intros [k v] Hin. simpl.
    assert (Hnd : NoDup (Map_keys (Map_new entries)))
      by (rewrite Map_keys_new; apply first_occurrences_NoDup).
    pose proof (Map_get_In _ _ _ Hnd Hin) as Hg.
    rewrite Map_get_new in Hg. unfold entries in Hg.
    rewrite <- map_rev in Hg. change (fun event => (ce_id event, event))
      with entry_of in Hg. rewrite assoc_entries in Hg.
    apply find_some in Hg. destruct Hg as [_ Hg].
    apply String.eqb_eq in Hg. congruence. }
  rewrite map_map. apply map_ext_in. intros kv Hin. symmetry. now apply Hinv.
Qed.




(** ** The upcoming-events comparator across kinds *)

Example Date_getTime_epoch : Date_getTime "1970-01-01" = Some 0.
Proof. reflexivity. Qed.

Example Date_getTime_2024_06_01 :
  Date_getTime "2024-06-01" = Some 1717200000000.
Proof. reflexivity. Qed.

Example Date_getTime_leap_day :
  Date_getTime "2024-02-29" = Some 1709164800000
  /\ Date_getTime "2023-02-29" = None.
Proof. split; reflexivity. Qed.

Lemma Date_getTime_seconds s y m d :
  civil_of_string s = Some (y, m, d) ->
  valid_civil (y, m, d) = true ->
  exists ms, Date_getTime s = Some ms /\ ms / 1000 = utc_start_of_day y m d.
Proof.
  intros Hc Hv. unfold Date_getTime. rewrite Hc, Hv.
  eexists. split; [reflexivity|]. unfold utc_start_of_day.
  replace (days_from_civil y m d * 86400000)
    with (days_from_civil y m d * 86400 * 1000) by ring.
  apply Z.div_mul. discriminate.
Qed.

(** C6, as the code has it.  When the upcoming-events sort compares a
    date-based event whose start is a calendar date with a time-based
    event, the date is converted to the Unix timestamp of 00:00 UTC of
    that day (the observer's time zone plays no part) and the two numbers
    are subtracted, in the order of the arguments. *)
Theorem upcoming_compare_mixed_uses_utc_midnight
    (localeCompare : string -> string -> Z)
    (a : BaseCalendarEvent) (a_start : string) (a_end : JS.value)
    (b : BaseCalendarEvent) (b_start : Z) (b_end : option Z)
    (b_start_tzid b_end_tzid : JS.value) (y m d : Z) :
  civil_of_string a_start = Some (y, m, d) ->
  valid_civil (y, m, d) = true ->
  upcoming_compare localeCompare
    (DateBased a a_start a_end)
    (TimeBased b b_start b_end b_start_tzid b_end_tzid)
  = Some (utc_start_of_day y m d - b_start)
  /\
  upcoming_compare localeCompare
    (TimeBased b b_start b_end b_start_tzid b_end_tzid)
    (DateBased a a_start a_end)
  = Some (b_start - utc_start_of_day y m d).
Proof.
  intros Hc Hv.
  destruct (Date_getTime_seconds _ Hc Hv) as (ms & Hms & Hdiv).
  simpl. rewrite Hms, Hdiv. split; reflexivity.
Qed.

Lemma upcoming_compare_mixed_uses_utc_midnight_witness :
  upcoming_compare (fun _ _ => 0) all_day_june_first late_evening_utc
  = Some (utc_start_of_day 2024 6 1 - 1717196400)
  /\
  upcoming_compare (fun _ _ => 0) late_evening_utc all_day_june_first
  = Some (1717196400 - utc_start_of_day 2024 6 1).
Proof.
  apply (@upcoming_compare_mixed_uses_utc_midnight (fun _ _ => 0)
           (base_with "id4" "Open day") "2024-06-01" None
           (base_with "id3" "Night walk") 1717196400 None None None
           2024 6 1); reflexivity.
Defined.

(** C6 as stated fails.  For an observer two hours ahead of UTC the local
    start of 2024-06-01 is 1717192800, before the time-based event, so
    the claimed comparison is negative (the all-day event first); the
    code subtracts from UTC midnight and returns a positive number. *)
Lemma upcoming_compare_not_local_midnight :
  local_start_of_day 7200 2024 6 1 = 1717192800
  /\ upcoming_compare (fun _ _ => 0) all_day_june_first late_evening_utc
     = Some 3600
  /\ upcoming_compare (fun _ _ => 0) all_day_june_first late_evening_utc
     <> Some (local_start_of_day 7200 2024 6 1 - 1717196400).
Proof.
  split; [reflexivity|]. split; [reflexivity|]. discriminate.
Qed.

(** A start that passes the validator's pattern without being a calendar
    date gives NaN, which the sort reads as "equal". *)
Example upcoming_compare_invalid_date :
  upcoming_compare (fun _ _ => 0)
    (DateBased (base_with "id5" "Nowhen") "2024-13-45" None)
    late_evening_utc = None.
Proof. reflexivity. Qed.

(** ** The order on strings that [<=] uses *)

Lemma string_compare_trans_le (s1 s2 s3 : string) :
  String.compare s1 s2 <> Gt -> String.compare s2 s3 <> Gt ->
  String.compare s1 s3 <> Gt.
Proof.
  revert s2 s3. induction s1 as [|a s1 IH]; intros [|b s2] [|c s3]; simpl;
    try congruence.
  unfold Ascii.compare.
  destruct (N.compare_spec (N_of_ascii a) (N_of_ascii b)) as [Hab|Hab|Hab];
    destruct (N.compare_spec (N_of_ascii b) (N_of_ascii c)) as [Hbc|Hbc|Hbc];
    destruct (N.compare_spec (N_of_ascii a) (N_of_ascii c)) as [Hac|Hac|Hac];
    try congruence; try lia.
  apply IH.
Qed.

Lemma string_leb_le (s1 s2 : string) :
  (s1 <=? s2)%string = true <-> String.compare s1 s2 <> Gt.
Proof.
  unfold String.leb. destruct (String.compare s1 s2); split;
    congruence.
Qed.

Lemma string_leb_trans (s1 s2 s3 : string) :
  (s1 <=? s2)%string = true -> (s2 <=? s3)%string = true ->
  (s1 <=? s3)%string = true.
Proof.
  rewrite !string_leb_le. apply string_compare_trans_le.
Qed.

Lemma string_leb_refl (s : string) : (s <=? s)%string = true.
Proof. destruct (String.leb_total s s); assumption. Qed.

Lemma string_leb_false (s1 s2 : string) :
  (s1 <=? s2)%string = false -> (s2 <=? s1)%string = true.
Proof.
  intros H. destruct (String.leb_total s1 s2); congruence.
Qed.

(** ** What validation guarantees of a parsed event *)

Ltac split_if H :=
  repeat match type of H with
         | (if ?c then _ else _) = _ =>
             let E := fresh "E" in destruct c eqn:E; try discriminate H
         | match ?c with _ => _ end = _ =>
             let E := fresh "E" in destruct c eqn:E; try discriminate H
         end.

Lemma validated_parsed_time isValidTimeZone event b s en tz1 tz2 :
  validateCalendarEvent isValidTimeZone event = true ->
  parseCalendarEvent event = Some (TimeBased b s en tz1 tz2) ->
  0 < s /\ (forall e, en = Some e -> s < e).
Proof.
  unfold validateCalendarEvent, parseCalendarEvent, includes_num.
  simpl existsb. rewrite orb_false_r.
  destruct (kind event =? 31922) eqn:K2, (kind event =? 31923) eqn:K3;
    simpl; try discriminate;
    try (apply Z.eqb_eq in K2, K3; congruence);
    try (intros _ Hp; split_if Hp; fail).
  destruct (getTagValue event "d") as [dv|]; simpl;
    [|intros _ Hp; discriminate Hp].
  destruct (getTagValue event "title") as [tv|]; simpl;
    [|intros _ Hp; discriminate Hp].
  destruct (getTagValue event "start") as [sv|]; simpl; [|discriminate].
  destruct (negb (negb (dv =? "")%string) || negb (negb (tv =? "")%string)
            || negb (negb (sv =? "")%string)); [discriminate|].
  unfold time_rules.
  destruct (parseInt sv) as [ts|]; [|discriminate].
  destruct (ts <=? 0) eqn:Hpos; [discriminate|].
  intros Hv Hp. injection Hp as <- <- Hen <- <-.
  split; [lia|]. intros e He. subst en.
  destruct (getTagValue event "end") as [ev|]; [|discriminate].
  simpl in Hv, He.
  destruct (negb (ev =? "")%string); simpl in Hv, He; [|discriminate].
  destruct (parseInt ev) as [endTime|]; simpl in Hv, He; [|discriminate].
  destruct (negb (endTime =? 0)); simpl in He; [|discriminate].
  injection He as <-.
  destruct (endTime <=? 0) eqn:H0; simpl in Hv; [discriminate|].
  destruct (endTime <=? ts) eqn:H1; simpl in Hv; [discriminate|].
  lia.
Qed.

Lemma validated_parsed_date isValidTimeZone event b s en :
  validateCalendarEvent isValidTimeZone event = true ->
  parseCalendarEvent event = Some (DateBased b s en) ->
  dateRegex_test s = true
  /\ (forall e, en = Some e -> e <> "" ->
        dateRegex_test e = true /\ (e <=? s)%string = false).
Proof.
  unfold validateCalendarEvent, parseCalendarEvent, includes_num.
  simpl existsb. rewrite orb_false_r.
  destruct (kind event =? 31922) eqn:K2, (kind event =? 31923) eqn:K3;
    simpl; try discriminate;
    try (apply Z.eqb_eq in K2, K3; congruence);
    try (intros _ Hp; split_if Hp; fail).
  destruct (getTagValue event "d") as [dv|]; simpl;
    [|intros _ Hp; discriminate Hp].
  destruct (getTagValue event "title") as [tv|]; simpl;
    [|intros _ Hp; discriminate Hp].
  destruct (getTagValue event "start") as [sv|]; simpl; [|discriminate].
  destruct (negb (negb (dv =? "")%string) || negb (negb (tv =? "")%string)
            || negb (negb (sv =? "")%string)); [discriminate|].
  unfold date_rules.
  destruct (dateRegex_test sv) eqn:Hs; simpl; [|discriminate].
  intros Hv Hp. injection Hp as <- <- <-.
  split; [exact Hs|]. intros e He Hne. rewrite He in Hv.
  apply truthy_Some in Hne. rewrite Hne in Hv.
  destruct (dateRegex_test e); simpl in Hv; [|discriminate].
  destruct (e <=? sv)%string; [discriminate|]. split; reflexivity.
Qed.

(** ** The by-date-range filter *)

Lemma validate_parse_keep_In isValidTimeZone keep events e :
  In e (validate_parse_keep isValidTimeZone keep events)
  <-> exists raw_event,
        In raw_event events
        /\ validateCalendarEvent isValidTimeZone raw_event = true
        /\ parseCalendarEvent raw_event = Some e
        /\ keep e = true.
Proof.
  unfold validate_parse_keep. rewrite in_flat_map. split.
  - intros (parsed & Hin & He). apply in_map_iff in Hin.
    destruct Hin as (raw_event & <- & Hin). apply filter_In in Hin.
    destruct Hin as [Hin Hv].
    destruct (parseCalendarEvent raw_event) as [e'|] eqn:Hp;
      [|contradiction].
    destruct (keep e') eqn:Hk; [|contradiction].
    destruct He as [->|[]]. exists raw_event. auto.
  - intros (raw_event & Hin & Hv & Hp & Hk).
    exists (Some e). split.
    + rewrite <- Hp. apply in_map. apply filter_In. auto.
    + rewrite Hk. left. reflexivity.
Qed.

Lemma in_date_range_closed isValidTimeZone raw_event e
    startTimestamp endTimestamp startIsoDate endIsoDate :
  validateCalendarEvent isValidTimeZone raw_event = true ->
  parseCalendarEvent raw_event = Some e ->
  startTimestamp <= endTimestamp ->
  (startIsoDate <=? endIsoDate)%string = true ->
  in_date_range startTimestamp endTimestamp startIsoDate endIsoDate e = true
  <-> overlaps_closed_range startTimestamp endTimestamp
        startIsoDate endIsoDate e.
Proof.
  intros Hv Hp HSE HSEiso. destruct e as [b s en | b s en tz1 tz2]; simpl.
  - destruct (validated_parsed_date _ _ Hv Hp) as [_ Hend].
    unfold covers_day. destruct en as [e|]; simpl.
    + destruct (String.eqb_spec e "") as [->|Hne]; simpl.
      * rewrite andb_true_iff. split.
        -- intros [H1 H2]. exists s. auto.
        -- intros (t & H1 & H2 & ->). auto.
      * destruct (Hend e eq_refl Hne) as [_ Hlt].
        apply string_leb_false in Hlt.
        rewrite andb_true_iff. split.
        -- intros [H1 H2].
           destruct (String.leb_total s startIsoDate) as [Hs|Hs].
           ++ exists startIsoDate. repeat split; auto using string_leb_refl.
           ++ exists s. repeat split; auto using string_leb_refl.
        -- intros (t & H1 & H2 & H3 & H4). split;
             eauto using string_leb_trans.
    + rewrite andb_true_iff. split.
      * intros [H1 H2]. exists s. auto.
      * intros (t & H1 & H2 & ->). auto.
  - destruct (validated_parsed_time _ _ Hv Hp) as [Hpos Hend].
    unfold covers_instant. destruct en as [e|]; simpl.
    + specialize (Hend e eq_refl).
      destruct (Z.eqb_spec e 0) as [->|Hne]; [lia|]. simpl.
      rewrite andb_true_iff, !Z.leb_le. split.
      * intros [H1 H2]. exists (Z.max s startTimestamp). lia.
      * intros (t & H1 & H2). lia.
    + rewrite andb_true_iff, !Z.leb_le. split.
      * intros [H1 H2]. exists s. lia.
      * intros (t & H1 & ->). lia.
Qed.

(** C7, as the code has it.  For a well-formed range (start not after
    end) the by-date-range query returns exactly the validated-and-parsed
    events that share a point with the CLOSED range, both ends inclusive:
    a time-based event covers its start through its end if it has one and
    its start alone otherwise, tested on the range's timestamps; a
    date-based event is tested the same way on the date strings. *)
Theorem dateRange_keeps_closed_overlap
    (isValidTimeZone : string -> bool) (query : Filter -> list NostrEvent)
    (startTimestamp endTimestamp : Z) (startIsoDate endIsoDate : string) :
  startTimestamp <= endTimestamp ->
  (startIsoDate <=? endIsoDate)%string = true ->
  forall e,
    In e (useCalendarEventsByDateRange_queryFn isValidTimeZone query
            startTimestamp endTimestamp startIsoDate endIsoDate)
    <-> exists raw_event,
          In raw_event
             (query {| kinds := [31923]; limit := 100; until := None |}
              ++ query {| kinds := [31922]; limit := 100; until := None |})
          /\ validateCalendarEvent isValidTimeZone raw_event = true
          /\ parseCalendarEvent raw_event = Some e
          /\ overlaps_closed_range startTimestamp endTimestamp
               startIsoDate endIsoDate e.
Proof.
  intros HSE HSEiso e. unfold useCalendarEventsByDateRange_queryFn.
  rewrite validate_parse_keep_In. split.
  - intros (r & Hin & Hv & Hp & Hk). exists r.
    pose proof (@in_date_range_closed isValidTimeZone r e startTimestamp
                  endTimestamp startIsoDate endIsoDate Hv Hp HSE HSEiso).
    tauto.
  - intros (r & Hin & Hv & Hp & Hk). exists r.
    pose proof (@in_date_range_closed isValidTimeZone r e startTimestamp
                  endTimestamp startIsoDate endIsoDate Hv Hp HSE HSEiso).
    tauto.
Qed.

Lemma dateRange_keeps_closed_overlap_witness :
  In countdown_parsed
     (useCalendarEventsByDateRange_queryFn (fun _ => true) small_relay
        june_start june_end "2024-06-01" "2024-06-30")
  <-> exists raw_event,
        In raw_event
           (small_relay {| kinds := [31923]; limit := 100; until := None |}
            ++ small_relay
                 {| kinds := [31922]; limit := 100; until := None |})
        /\ validateCalendarEvent (fun _ => true) raw_event = true
        /\ parseCalendarEvent raw_event = Some countdown_parsed
        /\ overlaps_closed_range june_start june_end
             "2024-06-01" "2024-06-30" countdown_parsed.
Proof.
  apply (@dateRange_keeps_closed_overlap (fun _ => true) small_relay
           june_start june_end "2024-06-01" "2024-06-30").
  - unfold june_start, june_end. lia.
  - reflexivity.
Defined.

Example countdown_parsed_is_parsed :
  parseCalendarEvent at_last_second_of_june = Some countdown_parsed.
Proof. reflexivity. Qed.

(** C7 as stated fails under either reading: the query for June returns
    the event that ends exactly when June begins and the event that sits
    on the range's last second. *)
Lemma dateRange_not_half_open :
  map ce_id (useCalendarEventsByDateRange_queryFn (fun _ => true) small_relay
               june_start june_end "2024-06-01" "2024-06-30")
  = ["r1"; "r2"]
  /\ overlaps_event_end_exclusive june_start june_end
       1717192800 (Some 1717200000) = false
  /\ overlaps_range_end_exclusive june_start june_end
       1719791999 None = false.
Proof. repeat split; reflexivity. Qed.

(** ** Pagination of the upcoming events *)

(** C2 (the code departs from it).  Stated: along a chain of cursors
    no event of an earlier page comes back on a later page.  A page is
    sorted by start while the cursor is the creation time of its last
    item, so an item that starts sooner but was published earlier than
    the last one lies below the cursor and is fetched again: event B is
    on page one and on page two. *)
Theorem upcoming_pages_repeat_an_event :
  map (map ce_id)
      (fetch_pages (fun _ => true) (fun _ _ => 0) two_event_relay
                   3 20 clock_now clock_today None)
  = [ ["B"; "A"]; ["B"]; [] ]
  /\ getNextPageParam
       (useUpcomingCalendarEvents_queryFn (fun _ => true) (fun _ _ => 0)
          two_event_relay 20 clock_now clock_today None)
     = Some (1717100000 - 1).
Proof. split; reflexivity. Qed.

(** ** parseInt reads back what toString writes *)

Lemma parse_digits_uint (u : Decimal.uint) (acc : Z) :
  parse_digits 10 (NilEmpty.string_of_uint u) (Some acc)
  = Some (uint_value u acc).
Proof.
  revert acc. induction u; intros acc; simpl; try reflexivity;
    rewrite IHu; reflexivity.
Qed.

Lemma parse_digits_uint_start (u : Decimal.uint) :
  u <> Decimal.Nil ->
  parse_digits 10 (NilEmpty.string_of_uint u) None = Some (uint_value u 0).
Proof.
  destruct u; intros Hne; try congruence; simpl;
    rewrite parse_digits_uint; reflexivity.
Qed.

Lemma of_uint_acc_value (u : Decimal.uint) (acc : positive) :
  Z.pos (Pos.of_uint_acc u acc) = uint_value u (Z.pos acc).
Proof.
  revert acc. induction u; intros acc;
    cbn [Pos.of_uint_acc uint_value]; try reflexivity;
    rewrite IHu; f_equal; lia.
Qed.

Lemma of_uint_value (u : Decimal.uint) :
  Z.of_N (Pos.of_uint u) = uint_value u 0.
Proof.
  induction u; cbn [Pos.of_uint uint_value Z.of_N]; try reflexivity;
    try exact IHu; rewrite of_uint_acc_value; reflexivity.
Qed.

(** On a non-empty digit string parseInt has nothing to trim, no sign
    and no 0x prefix to strip. *)
Lemma parseInt_uint (u : Decimal.uint) :
  u <> Decimal.Nil ->
  parseInt (NilEmpty.string_of_uint u)
  = parse_digits 10 (NilEmpty.string_of_uint u) None
  /\ parseInt (String "-" (NilEmpty.string_of_uint u))
     = option_map Z.opp (parse_digits 10 (NilEmpty.string_of_uint u) None).
Proof.
  intros Hne.
  assert (Hid : forall o : option Z, option_map (Z.mul 1) o = o)
    by (intros [z|]; simpl; [destruct z|]; reflexivity).
  assert (Hopp : forall o : option Z,
             option_map (Z.mul (-1)) o = option_map Z.opp o)
    by (intros [z|]; simpl; [destruct z|]; reflexivity).
  destruct u as [|u|u|u|u|u|u|u|u|u|u]; try congruence;
    try (split; unfold parseInt; simpl;
         [apply Hid | apply Hopp]);
    destruct u; split; unfold parseInt; simpl;
      first [reflexivity | apply Hid | apply Hopp].
Qed.

Lemma parseInt_toString (n : Z) : parseInt (toString n) = Some n.
Proof.
  unfold toString. destruct n as [|p|p]; [reflexivity| |];
    simpl; unfold NilZero.string_of_uint;
    pose proof (DecimalPos.Unsigned.to_uint_nonnil p) as Hnn;
    destruct (parseInt_uint Hnn) as [Hpos Hneg];
    pose proof (parse_digits_uint_start Hnn) as Hd;
    rewrite <- of_uint_value, DecimalPos.Unsigned.of_to in Hd;
    destruct (Pos.to_uint p) eqn:Hu; try congruence;
    first [rewrite Hpos | rewrite Hneg]; rewrite Hd; reflexivity.
Qed.

Lemma toString_nonempty (n : Z) : toString n <> "".
Proof.
  intros H. pose proof (parseInt_toString n) as Hp. rewrite H in Hp.
  discriminate.
Qed.

Example parseInt_examples :
  parseInt "1717200000" = Some 1717200000
  /\ parseInt "  42abc" = Some 42
  /\ parseInt "-7" = Some (-7)
  /\ parseInt "0x1F" = Some 31
  /\ parseInt "" = None
  /\ parseInt "soon" = None
  /\ parseInt "-" = None.
Proof. repeat split; reflexivity. Qed.

(** ** The tags serializeCalendarEvent writes, as parseCalendarEvent reads
       them *)

Lemma push_if_toString (name : string) (n : Z) :
  push_if name (Some (toString n)) = [[Some name; Some (toString n)]].
Proof.
  unfold push_if, truthy.
  destruct (String.eqb_spec (toString n) "") as [H|_];
    [now apply toString_nonempty in H | reflexivity].
Qed.

Lemma serialized_tags (e : CalendarEvent) :
  p_tags (serializeCalendarEvent e)
  = common_tags (base_of e)
    ++ kind_tags (wire_start e) (wire_end e)
                 (fst (wire_tzids e)) (snd (wire_tzids e)).
Proof.
  destruct e as [b s en | b s en tz1 tz2]; simpl; unfold kind_tags.
  - simpl. now rewrite List.app_nil_r.
  - destruct en as [n|]; simpl; [|reflexivity].
    now rewrite push_if_toString.
Qed.

Lemma filter_push_each n m l :
  filter (has_name n) (push_each m l) = seg n m (push_each m l).
Proof.
  unfold seg, push_each. induction l as [|x l IH]; simpl.
  - now destruct (m =? n)%string.
  - unfold has_name at 1. simpl. rewrite IH.
    destruct (m =? n)%string; reflexivity.
Qed.

Lemma filter_push_if n m v :
  filter (has_name n) (push_if m v) = seg n m (push_if m v).
Proof.
  unfold seg, push_if. destruct (truthy v); simpl.
  - unfold has_name. simpl. destruct (m =? n)%string; reflexivity.
  - now destruct (m =? n)%string.
Qed.

Lemma filter_participant_tags n ps :
  filter (has_name n) (map participant_tag ps)
  = seg n "p" (map participant_tag ps).
Proof.
  unfold seg. induction ps as [|p ps IH]; cbn [map filter].
  - now destruct ("p" =? n)%string.
  - change (has_name n (participant_tag p)) with ("p" =? n)%string.
    rewrite IH. destruct ("p" =? n)%string; reflexivity.
Qed.

Lemma filter_one n m v :
  filter (has_name n) [[Some m; v]] = seg n m [[Some m; v]].
Proof.
  unfold seg, has_name. simpl. destruct (m =? n)%string; reflexivity.
Qed.

Lemma filter_wire_tags n b start end_ tz1 tz2 :
  filter (has_name n) (wire_tags b start end_ tz1 tz2)
  = seg n "d" [[Some "d"; Some (Base.d b)]]
    ++ seg n "title" [[Some "title"; Some (Base.title b)]]
    ++ seg n "summary" (push_if "summary" (Base.summary b))
    ++ seg n "image" (push_if "image" (Base.image b))
    ++ seg n "location" (push_each "location" (Base.locations b))
    ++ seg n "g" (push_if "g" (Base.geohash b))
    ++ seg n "p" (map participant_tag (Base.participants b))
    ++ seg n "t" (push_each "t" (Base.hashtags b))
    ++ seg n "r" (push_each "r" (Base.references b))
    ++ seg n "a" (push_each "a" (Base.calendarRefs b))
    ++ seg n "start" [[Some "start"; Some start]]
    ++ seg n "end" (push_if "end" end_)
    ++ seg n "start_tzid" (push_if "start_tzid" tz1)
    ++ seg n "end_tzid" (push_if "end_tzid" tz2).
Proof.
  unfold wire_tags, common_tags, kind_tags.
  change [[Some "d"; Some (Base.d b)]; [Some "title"; Some (Base.title b)]]
    with ([[Some "d"; Some (Base.d b)]]
          ++ [[Some "title"; Some (Base.title b)]]).
  rewrite !filter_app, !filter_push_each, !filter_push_if,
    filter_participant_tags, !filter_one, <- !List.app_assoc.
  reflexivity.
Qed.

Lemma find_filter_hd (A : Type) (f : A -> bool) (l : list A) :
  find f l = hd_error (filter f l).
Proof.
  induction l as [|a l IH]; simpl; [reflexivity|].
  destruct (f a); [reflexivity | exact IH].
Qed.

Lemma getTagValue_tags_filter ts n :
  getTagValue_tags ts n
  = match hd_error (filter (has_name n) ts) with
    | Some tag => slot tag 1
    | None => None
    end.
Proof. unfold getTagValue_tags. now rewrite find_filter_hd. Qed.

Lemma first_push_if m v :
  match hd_error (push_if m v) with
  | Some tag => slot tag 1
  | None => None
  end = kept v.
Proof. unfold push_if, kept. destruct (truthy v); reflexivity. Qed.

Lemma values_push_each m l :
  map (fun tag => slot tag 1) (push_each m l) = l.
Proof.
  unfold push_each. rewrite map_map. simpl. apply map_id.
Qed.

Ltac read_tags :=
  rewrite ?getTagValue_tags_filter; unfold getTagValues_tags;
  rewrite !filter_wire_tags; unfold seg; simpl;
  rewrite ?List.app_nil_r.

Section ReadBack.
Variables (b : BaseCalendarEvent) (start : string) (end_ tz1 tz2 : JS.value).
Let W := wire_tags b start end_ tz1 tz2.

Lemma read_d : getTagValue_tags W "d" = Some (Base.d b).
Proof. unfold W. read_tags. reflexivity. Qed.

Lemma read_title : getTagValue_tags W "title" = Some (Base.title b).
Proof. unfold W. read_tags. reflexivity. Qed.

Lemma read_start : getTagValue_tags W "start" = Some start.
Proof. unfold W. read_tags. reflexivity. Qed.

Lemma read_summary : getTagValue_tags W "summary" = kept (Base.summary b).
Proof. unfold W. read_tags. apply first_push_if. Qed.

Lemma read_image : getTagValue_tags W "image" = kept (Base.image b).
Proof. unfold W. read_tags. apply first_push_if. Qed.

Lemma read_geohash : getTagValue_tags W "g" = kept (Base.geohash b).
Proof. unfold W. read_tags. apply first_push_if. Qed.

Lemma read_end : getTagValue_tags W "end" = kept end_.
Proof. unfold W. read_tags. apply first_push_if. Qed.

Lemma read_start_tzid : getTagValue_tags W "start_tzid" = kept tz1.
Proof. unfold W. read_tags. apply first_push_if. Qed.

Lemma read_end_tzid : getTagValue_tags W "end_tzid" = kept tz2.
Proof. unfold W. read_tags. apply first_push_if. Qed.

Lemma read_locations : getTagValues_tags W "location" = Base.locations b.
Proof. unfold W. read_tags. apply values_push_each. Qed.

Lemma read_hashtags : getTagValues_tags W "t" = Base.hashtags b.
Proof. unfold W. read_tags. apply values_push_each. Qed.

Lemma read_references : getTagValues_tags W "r" = Base.references b.
Proof. unfold W. read_tags. apply values_push_each. Qed.

Lemma read_calendarRefs : getTagValues_tags W "a" = Base.calendarRefs b.
Proof. unfold W. read_tags. apply values_push_each. Qed.

Lemma read_participant_tags :
  filter (has_name "p") W = map participant_tag (Base.participants b).
Proof. unfold W. read_tags. reflexivity. Qed.

End ReadBack.

(** ** The round trip through serializeCalendarEvent and
       parseCalendarEvent *)

Lemma merged_tags e id_ pubkey_ created_at_ sig_ :
  tags (merged (serializeCalendarEvent e) id_ pubkey_ created_at_ sig_)
  = wire_tags (base_of e) (wire_start e) (wire_end e)
              (fst (wire_tzids e)) (snd (wire_tzids e)).
Proof. simpl. apply serialized_tags. Qed.

(** What parseCalendarEvent returns on a serialized event, with no
    assumption beyond the three required values being non-empty. *)
Lemma truthy_toString (n : Z) : truthy (Some (toString n)) = true.
Proof. apply truthy_Some, toString_nonempty. Qed.

Lemma reread_end (en : option Z) :
  let endStr := kept (option_map toString en) in
  let end_ :=
    match endStr with
    | Some end_s => if truthy endStr then parseInt end_s else None
    | None => None
    end in
  (if truthy_num end_ && negb (isNaN end_) then end_ else None)
  = kept_num en.
Proof.
  destruct en as [n|]; [|reflexivity].
  unfold kept. cbn [option_map]. rewrite truthy_toString.
  cbv zeta. rewrite truthy_toString, parseInt_toString.
  unfold kept_num. cbn [isNaN negb]. now rewrite andb_true_r.
Qed.

Lemma parse_serialize e id_ pubkey_ created_at_ sig_ :
  let raw_event :=
    merged (serializeCalendarEvent e) id_ pubkey_ created_at_ sig_ in
  Base.d (base_of e) <> "" ->
  Base.title (base_of e) <> "" ->
  wire_start e <> "" ->
  parseCalendarEvent raw_event = Some (reread e raw_event).
Proof.
  intros raw_event Hd Ht Hs.
  apply truthy_Some in Hd, Ht, Hs.
  unfold parseCalendarEvent, getTagValue, getTagValues, reread.
  subst raw_event. unfold reread_base. rewrite !merged_tags.
  rewrite read_d, read_title, read_start, read_summary, read_image,
    read_geohash, read_locations, read_hashtags, read_references,
    read_calendarRefs, read_participant_tags, read_end, read_start_tzid,
    read_end_tzid.
  rewrite Hd, Ht, Hs. cbn [negb orb]. rewrite map_map.
  destruct e as [b s en | b s en tz1 tz2].
  - reflexivity.
  - cbn [merged serializeCalendarEvent kind p_kind negb andb
         wire_start wire_end wire_tzids fst snd base_of
         id pubkey created_at content p_content].
    change (31923 =? 31922) with false. cbn iota. cbn [negb andb].
    rewrite parseInt_toString.
    pose proof (reread_end en) as Hen. cbv zeta in Hen. rewrite Hen.
    reflexivity.
Qed.

Lemma merged_kind e id_ pubkey_ created_at_ sig_ :
  kind (merged (serializeCalendarEvent e) id_ pubkey_ created_at_ sig_)
  = kind_of e.
Proof. destruct e; reflexivity. Qed.


Lemma kept_not_empty (v : JS.value) : not_empty v -> kept v = v.
Proof.
  unfold not_empty, kept. destruct v as [s|]; [|reflexivity]. simpl.
  destruct (String.eqb_spec s ""); [congruence | reflexivity].
Qed.

Lemma reread_participant_id (p : ParticipantInfo) :
  not_empty (Participant.relayUrl p) ->
  not_empty (Participant.role p) ->
  (Participant.role p <> None -> Participant.relayUrl p <> None) ->
  reread_participant p = p.
Proof.
  destruct p as [pk relay role_]. unfold not_empty. simpl.
  intros Hrelay Hrole Hpos.
  unfold reread_participant, participant_tag, participant_of_tag. simpl.
  destruct relay as [r|], role_ as [x|]; simpl;
    try (destruct (String.eqb_spec r ""); [congruence|]);
    try (destruct (String.eqb_spec x ""); [congruence|]);
    simpl; try reflexivity.
  exfalso. apply Hpos; [discriminate | reflexivity].
Qed.

Lemma reread_canonical e raw_event :
  optional_strings_not_empty e ->
  roles_have_relay e ->
  (forall b s tz1 tz2, e <> TimeBased b s (Some 0) tz1 tz2) ->
  reread e raw_event = with_wire e raw_event.
Proof.
  intros (Hsum & Himg & Hgeo & Hps & Hkind) Hroles Hend.
  assert (Hpart : map reread_participant (Base.participants (base_of e))
                  = Base.participants (base_of e)).
  { unfold roles_have_relay in Hroles.
    induction (Base.participants (base_of e)) as [|p ps IH]; simpl;
      [reflexivity|].
    inversion Hps as [|? ? [Hr1 Hr2] Hps']; subst.
    inversion Hroles as [|? ? Hpos Hroles']; subst.
    rewrite reread_participant_id by assumption.
    now rewrite IH. }
  destruct e as [b s en | b s en tz1 tz2]; simpl in *;
    unfold reread_base; rewrite Hpart, !kept_not_empty by tauto.
  - reflexivity.
  - replace (kept_num en) with en; [reflexivity|].
    unfold kept_num. destruct en as [n|]; [|reflexivity]. simpl.
    destruct (Z.eqb_spec n 0) as [->|_]; [|reflexivity].
    exfalso. now apply (Hend b s tz1 tz2).
Qed.




(** The same with the role of a participant who has no relay URL: the
    role is written in the relay's slot and read back as the relay URL. *)
Example parse_serialize_shifts_role :
  let raw_event :=
    merged (serializeCalendarEvent meetup_with_speaker)
           "id9" "pub1" 1717100000 "sig9" in
  validateCalendarEvent (fun _ => true) raw_event = true
  /\ participants_of (parseCalendarEvent raw_event)
     = Some [ {| Participant.pubkey := Some "pk3";
                 Participant.relayUrl := Some "speaker";
                 Participant.role := None |} ].
Proof. split; reflexivity. Qed.

(** ** When the two deduplications agree *)

Lemma dedupe_first_wins_ids (l : list CalendarEvent) :
  map ce_id (dedupe_first_wins l) = first_occurrences (map ce_id l).
Proof.
  induction l as [|e l IH]; simpl; [reflexivity|]. f_equal.
  rewrite <- IH. generalize (dedupe_first_wins l). intros l'.
  induction l' as [|x l' IH']; simpl; [reflexivity|].
  destruct (ce_id x =? ce_id e)%string; simpl; now rewrite IH'.
Qed.

Lemma dedupe_first_wins_In (l : list CalendarEvent) e :
  In e (dedupe_first_wins l) -> In e l.
Proof.
  induction l as [|a l IH]; simpl; [tauto|].
  intros [->|Hin]; [now left|]. apply filter_In in Hin. tauto.
Qed.

Lemma map_injective_on (A B : Type) (f : A -> B) (l1 l2 : list A) :
  map f l1 = map f l2 ->
  (forall x y, In x l1 -> In y l2 -> f x = f y -> x = y) ->
  l1 = l2.
Proof.
  revert l2. induction l1 as [|a l1 IH]; intros [|b l2] Hmap Hinj;
    simpl in *; try congruence.
  injection Hmap as Hab Hmap. f_equal; [now apply Hinj; auto|].
  apply IH; auto.
Qed.

(** When no two objects of the two result sets share an id (as it is for
    events a relay has checked against their id), keeping the first or
    the last occurrence is the same. *)
Lemma uniqueEvents_first_wins_when_ids_determine
    (hashtagEvents parsedEvents : list CalendarEvent) :
  (forall x y, In x (hashtagEvents ++ parsedEvents) ->
               In y (hashtagEvents ++ parsedEvents) ->
               ce_id x = ce_id y -> x = y) ->
  uniqueEvents hashtagEvents parsedEvents
  = dedupe_first_wins (hashtagEvents ++ parsedEvents).
Proof.
  intros Hinj. apply map_injective_on with (f := ce_id).
  - now rewrite uniqueEvents_ids, dedupe_first_wins_ids.
  - intros x y Hx Hy. apply Hinj.
    + unfold uniqueEvents, Map_values in Hx.
      apply in_map_iff in Hx. destruct Hx as ([k v] & Hv & Hin).
      simpl in Hv. subst v.
      set (entries := map _ (hashtagEvents ++ parsedEvents)) in Hin.
      assert (Hnd : NoDup (Map_keys (Map_new entries)))
        by (rewrite Map_keys_new; apply first_occurrences_NoDup).
      pose proof (Map_get_In _ _ _ Hnd Hin) as Hg.
      rewrite Map_get_new in Hg. unfold entries in Hg.
      rewrite <- map_rev in Hg.
      change (fun event => (ce_id event, event)) with entry_of in Hg.
      rewrite assoc_entries in Hg. apply find_some in Hg.
      apply in_rev. tauto.
    + now apply dedupe_first_wins_In.
Qed.

(** ** What does hold of the upcoming pages *)

Lemma insert_In (A : Type) (cmp : A -> A -> option Z) x y (l : list A) :
  In y (insert cmp x l) <-> y = x \/ In y l.
Proof.
  induction l as [|a l IH]; simpl; [intuition congruence|].
  destruct (SortCompare cmp x a <=? 0); simpl; [intuition congruence|].
  rewrite IH. intuition congruence.
Qed.

Lemma sort_In (A : Type) (cmp : A -> A -> option Z) y (l : list A) :
  In y (sort cmp l) <-> In y l.
Proof.
  unfold sort. induction l as [|a l IH]; simpl; [tauto|].
  rewrite insert_In, IH. intuition congruence.
Qed.

Lemma parsed_wire_fields event e :
  parseCalendarEvent event = Some e ->
  ce_id e = id event /\ ce_created_at e = created_at event.
Proof.
  unfold parseCalendarEvent. intros H. split_if H;
    injection H as <-; split; reflexivity.
Qed.

(** With a non-zero cursor, every event of the page is at most as new as
    the cursor, and the next cursor is strictly smaller. *)
Lemma upcoming_cursor_decreases
    isValidTimeZone localeCompare query limit_ now today cursor next :
  honours_until query -> cursor <> 0 ->
  getNextPageParam
    (useUpcomingCalendarEvents_queryFn isValidTimeZone localeCompare query
                      limit_ now today (Some cursor)) = Some next ->
  next < cursor.
Proof.
  intros Hq Hc. unfold getNextPageParam.
  destruct (rev _) as [|last_ rest] eqn:Hrev; [discriminate|].
  intros Hn. injection Hn as <-.
  assert (Hin : In last_ (useUpcomingCalendarEvents_queryFn
                            isValidTimeZone localeCompare
                            query limit_ now today (Some cursor))).
  { apply in_rev. rewrite Hrev. now left. }
  unfold useUpcomingCalendarEvents_queryFn in Hin. apply sort_In in Hin.
  apply validate_parse_keep_In in Hin.
  destruct Hin as (r & Hr & _ & Hp & _).
  apply parsed_wire_fields in Hp. destruct Hp as [_ ->].
  assert (Ht : truthy_num (Some cursor) = true)
    by (simpl; destruct (Z.eqb_spec cursor 0); [congruence|reflexivity]).
  rewrite Ht in Hr. apply in_app_or in Hr.
  assert (created_at r <= cursor); [|lia].
  destruct Hr as [Hr|Hr]; eapply Hq; try exact Hr; reflexivity.
Qed.

(** A cursor of zero is falsy: [if (pageParam)] leaves [until] unset and
    the first page is fetched again. *)
Example upcoming_cursor_zero_restarts :
  map (map ce_id)
      (fetch_pages (fun _ => true) (fun _ _ => 0)
                   (Relay.query [published_at_second_one])
                   4 20 clock_now clock_today None)
  = [ ["Z"]; ["Z"]; ["Z"]; ["Z"] ].
Proof. reflexivity. Qed.

(* ===================================================================== *)
(** * Further properties of the code                                      *)
(* ===================================================================== *)

(** ** The tag accessor *)

(** X1.  The single-value lookup is the first entry of the multi-value
    lookup (undefined when there is none), and the multi-value lookup is
    empty exactly when no tag carries the name. *)
Theorem getTagValue_first_of_getTagValues (event : NostrEvent)
    (tagName : string) :
  getTagValue event tagName = hd None (getTagValues event tagName)
  /\ (getTagValues event tagName = []
      <-> existsb (has_name tagName) (tags event) = false).
Proof.
  unfold getTagValue, getTagValues, getTagValue_tags, getTagValues_tags.
  rewrite find_filter_hd. split.
  - destruct (filter (has_name tagName) (tags event)); reflexivity.
  - induction (tags event) as [|t ts IH]; simpl; [tauto|].
    destruct (has_name tagName t); simpl; [split; discriminate | exact IH].
Qed.

(** ** The validators, one kind each *)

(** X2.  No event is accepted by two validators: each one starts by
    fixing the kind, and the kinds differ. *)
Theorem validators_accept_disjoint_events
    (isValidTimeZone : string -> bool) (event : NostrEvent) :
  (validateCalendarEvent isValidTimeZone event = true ->
     validateCalendar event = false
     /\ validateCalendarEventRSVP event = Return false)
  /\ (validateCalendar event = true ->
        validateCalendarEvent isValidTimeZone event = false
        /\ validateCalendarEventRSVP event = Return false)
  /\ (validateCalendarEventRSVP event = Return true ->
        validateCalendarEvent isValidTimeZone event = false
        /\ validateCalendar event = false).
Proof.
  unfold validateCalendarEvent, validateCalendar, validateCalendarEventRSVP,
    includes_num. simpl existsb. rewrite orb_false_r.
  destruct (Z.eqb_spec (kind event) 31922) as [K2|K2];
    destruct (Z.eqb_spec (kind event) 31923) as [K3|K3];
    destruct (Z.eqb_spec (kind event) 31924) as [K4|K4];
    destruct (Z.eqb_spec (kind event) 31925) as [K5|K5];
    try lia; simpl; repeat split; try discriminate; try reflexivity.
Qed.

(** ** What parseCalendarEvent returns *)

(** X3.  A parsed object carries the wire event it came from: its kind
    is the event's kind and its id, pubkey, created_at, content and tags
    are the event's own. *)
Theorem parsed_event_carries_wire_event (event : NostrEvent)
    (e : CalendarEvent) :
  parseCalendarEvent event = Some e ->
  kind_of e = kind event
  /\ Base.id (base_of e) = id event
  /\ Base.pubkey (base_of e) = pubkey event
  /\ Base.created_at (base_of e) = created_at event
  /\ Base.content (base_of e) = content event
  /\ Base.tags (base_of e) = tags event.
Proof.
  unfold parseCalendarEvent.
  destruct (Z.eqb_spec (kind event) 31922) as [K2|K2];
    destruct (Z.eqb_spec (kind event) 31923) as [K3|K3];
    simpl; try discriminate;
    (destruct (getTagValue event "d") as [dv|]; [|discriminate]);
    (destruct (getTagValue event "title") as [tv|]; [|discriminate]);
    (destruct (getTagValue event "start") as [sv|]; [|discriminate]);
    (destruct (_ || _); [discriminate|]);
    try (destruct (parseInt sv) as [n|]; [|discriminate]);
    intros H; injection H as <-; simpl; repeat split; congruence.
Qed.

Lemma parsed_event_carries_wire_event_witness :
  kind_of countdown_parsed = kind at_last_second_of_june
  /\ Base.id (base_of countdown_parsed) = id at_last_second_of_june
  /\ Base.pubkey (base_of countdown_parsed) = pubkey at_last_second_of_june
  /\ Base.created_at (base_of countdown_parsed)
     = created_at at_last_second_of_june
  /\ Base.content (base_of countdown_parsed) = content at_last_second_of_june
  /\ Base.tags (base_of countdown_parsed) = tags at_last_second_of_june.
Proof.
  apply (@parsed_event_carries_wire_event at_last_second_of_june
           countdown_parsed).
  reflexivity.
Defined.

(** X4.  Whatever the wire event, a parsed object has a non-empty d and
    title; a date-based one has a non-empty start; a time-based one never
    has the end 0 (an end tag that reads as 0 is dropped like one that
    does not parse). *)
Theorem parsed_event_invariants (event : NostrEvent) (e : CalendarEvent) :
  parseCalendarEvent event = Some e ->
  Base.d (base_of e) <> ""
  /\ Base.title (base_of e) <> ""
  /\ match e with
     | DateBased _ start _ => start <> ""
     | TimeBased _ _ end_ _ _ => end_ <> Some 0
     end.
Proof.
  unfold parseCalendarEvent.
  destruct (negb (kind event =? 31922) && negb (kind event =? 31923));
    [discriminate|].
  destruct (getTagValue event "d") as [dv|]; [|discriminate].
  destruct (getTagValue event "title") as [tv|]; [|discriminate].
  destruct (getTagValue event "start") as [sv|]; [|discriminate].
  simpl.
  destruct (String.eqb_spec dv "") as [|Hd]; [discriminate|].
  destruct (String.eqb_spec tv "") as [|Ht]; [discriminate|].
  destruct (String.eqb_spec sv "") as [|Hs]; [discriminate|].
  simpl. destruct (kind event =? 31922).
  - intros H. injection H as <-. simpl. auto.
  - destruct (parseInt sv) as [n|]; [|discriminate].
    intros H. injection H as <-. simpl. repeat split; auto.
    destruct (getTagValue event "end") as [ev|]; simpl; [|discriminate].
    destruct (negb (ev =? "")%string); simpl; [|discriminate].
    destruct (parseInt ev) as [m|]; simpl; [|discriminate].
    destruct (Z.eqb_spec m 0) as [->|Hm]; simpl; congruence.
Qed.

Lemma parsed_event_invariants_witness :
  Base.d (base_of end_zero_parsed) <> ""
  /\ Base.title (base_of end_zero_parsed) <> ""
  /\ match end_zero_parsed with
     | DateBased _ start _ => start <> ""
     | TimeBased _ _ end_ _ _ => end_ <> Some 0
     end.
Proof.
  apply (@parsed_event_invariants time_event_end_zero end_zero_parsed).
  reflexivity.
Defined.

(** ** The round trip, once more *)

Lemma not_empty_kept (v : JS.value) : not_empty (kept v).
Proof.
  unfold not_empty, kept. destruct v as [s|]; simpl; [|discriminate].
  destruct (String.eqb_spec s ""); simpl; congruence.
Qed.

Lemma kept_num_not_zero (n : option Z) : kept_num n <> Some 0.
Proof.
  unfold kept_num. destruct n as [z|]; simpl; [|discriminate].
  destruct (Z.eqb_spec z 0); simpl; congruence.
Qed.

Lemma reread_participant_positional (p : ParticipantInfo) :
  not_empty (Participant.relayUrl (reread_participant p))
  /\ not_empty (Participant.role (reread_participant p))
  /\ (Participant.role (reread_participant p) <> None ->
      Participant.relayUrl (reread_participant p) <> None).
Proof.
  destruct p as [pk relay role_].
  unfold reread_participant, participant_tag, participant_of_tag, not_empty.
  simpl.
  destruct relay as [r|], role_ as [x|]; simpl;
    try destruct (String.eqb_spec r ""); try destruct (String.eqb_spec x "");
    unfold slot; simpl; repeat split; try congruence; intros H; congruence.
Qed.

Lemma parse_serialize_defined e id_ pubkey_ created_at_ sig_ :
  parseCalendarEvent
    (merged (serializeCalendarEvent e) id_ pubkey_ created_at_ sig_)
  <> None ->
  Base.d (base_of e) <> "" /\ Base.title (base_of e) <> ""
  /\ wire_start e <> "".
Proof.
  intros H. apply parseCalendarEvent_defined_iff in H.
  unfold parse_checks, getTagValue in H.
  rewrite !merged_tags, read_d, read_title, read_start in H.
  apply andb_true_iff in H. destruct H as [H _].
  apply andb_true_iff in H. destruct H as [H Hs].
  apply andb_true_iff in H. destruct H as [H Ht].
  apply andb_true_iff in H. destruct H as [_ Hd].
  apply truthy_Some in Hd, Ht, Hs. auto.
Qed.

Lemma reread_is_canonical e raw_event :
  optional_strings_not_empty (reread e raw_event)
  /\ roles_have_relay (reread e raw_event)
  /\ (forall b s tz1 tz2,
        reread e raw_event <> TimeBased b s (Some 0) tz1 tz2).
Proof.
  assert (Hps : forall ps : list ParticipantInfo,
            Forall (fun p => not_empty (Participant.relayUrl p)
                             /\ not_empty (Participant.role p))
                   (map reread_participant ps)
            /\ Forall (fun p => Participant.role p <> None ->
                                Participant.relayUrl p <> None)
                      (map reread_participant ps)).
  { induction ps as [|p ps [IH1 IH2]]; simpl; split; constructor; auto;
      destruct (reread_participant_positional p) as (H1 & H2 & H3); auto. }
  unfold optional_strings_not_empty, roles_have_relay.
  destruct e as [b s en | b s en tz1 tz2]; simpl;
    destruct (Hps (Base.participants b)) as [H1 H2];
    repeat split; auto using not_empty_kept.
  - intros b' s' tz1' tz2'. discriminate.
  - intros b' s' tz1' tz2' H. injection H as _ _ H _ _.
    now apply kept_num_not_zero in H.
Qed.

(** X5.  One pass through serializeCalendarEvent and parseCalendarEvent
    normalises an object, a second pass changes nothing: whatever object
    [e] was serialized, the object parsed back comes back as itself when
    it is serialized and parsed again (id, pubkey, created_at and tags
    being those of the second wire event). *)
Theorem parse_serialize_stable (e e1 : CalendarEvent)
    (id1 pubkey1 : string) (created_at1 : Z) (sig1 : string)
    (id2 pubkey2 : string) (created_at2 : Z) (sig2 : string) :
  parseCalendarEvent
    (merged (serializeCalendarEvent e) id1 pubkey1 created_at1 sig1)
  = Some e1 ->
  let raw2 := merged (serializeCalendarEvent e1)
                     id2 pubkey2 created_at2 sig2 in
  parseCalendarEvent raw2 = Some (with_wire e1 raw2).
Proof.
  intros Hp raw2.
  assert (Hdef : parseCalendarEvent
                   (merged (serializeCalendarEvent e)
                           id1 pubkey1 created_at1 sig1) <> None)
    by congruence.
  apply parse_serialize_defined in Hdef. destruct Hdef as (Hd & Ht & Hs).
  rewrite (parse_serialize _ _ _ _ _ Hd Ht Hs) in Hp.
  injection Hp as <-.
  set (raw1 := merged (serializeCalendarEvent e)
                      id1 pubkey1 created_at1 sig1) in *.
  destruct (reread_is_canonical e raw1) as (Hopt & Hroles & Hend).
  assert (Hd1 : Base.d (base_of (reread e raw1)) <> "")
    by (destruct e; exact Hd).
  assert (Ht1 : Base.title (base_of (reread e raw1)) <> "")
    by (destruct e; exact Ht).
  assert (Hs1 : wire_start (reread e raw1) <> "")
    by (destruct e; exact Hs).
  subst raw2.
  rewrite (parse_serialize _ _ _ _ _ Hd1 Ht1 Hs1).
  f_equal. now apply reread_canonical.
Qed.

Lemma parse_serialize_stable_witness :
  let e1 := reread meetup_with_speaker
              (merged (serializeCalendarEvent meetup_with_speaker)
                      "id9" "pub1" 1717100000 "sig9") in
  parseCalendarEvent
    (merged (serializeCalendarEvent e1) "id10" "pub1" 1717100001 "sig10")
  = Some (with_wire e1
            (merged (serializeCalendarEvent e1)
                    "id10" "pub1" 1717100001 "sig10")).
Proof.
  apply (@parse_serialize_stable meetup_with_speaker _
           "id9" "pub1" 1717100000 "sig9"
           "id10" "pub1" 1717100001 "sig10").
  reflexivity.
Defined.

(** ** From the publishing hooks to the validator *)


Lemma serialized_date_validates isValidTimeZone b s en
    id_ pubkey_ created_at_ sig_ :
  Base.d b <> "" -> Base.title b <> "" ->
  dateRegex_test s = true ->
  (forall e, en = Some e -> e <> "" ->
             dateRegex_test e = true /\ (e <=? s)%string = false) ->
  validateCalendarEvent isValidTimeZone
    (merged (serializeCalendarEvent (DateBased b s en))
            id_ pubkey_ created_at_ sig_) = true.
Proof.
  intros Hd Ht Hs Hen.
  assert (Hs0 : s <> "") by (intros ->; discriminate).
  apply truthy_Some in Hd, Ht, Hs0.
  unfold validateCalendarEvent, date_rules, getTagValue.
  rewrite !merged_tags, !merged_kind, read_d, read_title, read_start,
    read_end.
  cbn [base_of wire_start wire_end kind_of]. rewrite Hd, Ht, Hs0, Hs.
  change (includes_num [31922; 31923] 31922) with true.
  change (31922 =? 31922) with true. change (31922 =? 31923) with false.
  cbn [negb orb andb].
  unfold kept, truthy. destruct en as [e|]; [|reflexivity].
  destruct (String.eqb_spec e "") as [|Hne]; simpl; [reflexivity|].
  destruct (Hen e eq_refl Hne) as [-> ->].
  apply String.eqb_neq in Hne. rewrite ?Hne. reflexivity.
Qed.


Lemma Resolved_inj (A : Type) (a b : A) : Resolved a = Resolved b -> a = b.
Proof. intros H. now injection H. Qed.

(** X6.  What useDateBasedCalendarEvent hands to the publisher passes
    validateCalendarEvent, provided the title and the generated
    identifier are not empty (the hook itself checks neither). *)
Theorem published_date_event_is_valid
    (isValidTimeZone : string -> bool) (user : option string) (now : Z)
    (generatedId : string) (props : CreateDateEventProps)
    (published : PartialNostrEvent)
    (id_ pubkey_ : string) (created_at_ : Z) (sig_ : string) :
  useDateBasedCalendarEvent_mutationFn user now generatedId props
  = Resolved published ->
  generatedId <> "" ->
  DateProps.title props <> "" ->
  validateCalendarEvent isValidTimeZone
    (merged published id_ pubkey_ created_at_ sig_) = true.
Proof.
  unfold useDateBasedCalendarEvent_mutationFn.
  destruct user as [user_pubkey|]; [|discriminate].
  destruct (dateRegex_test (DateProps.start props)) eqn:Hs;
    [|discriminate]. cbn [negb].
  destruct (DateProps.end_ props) as [e|] eqn:He.
  - destruct (truthy (Some e) && negb (dateRegex_test e)) eqn:H1;
      [discriminate|].
    destruct (truthy (Some e) && (e <=? DateProps.start props)%string)
      eqn:H2; [discriminate|].
    intros H Hg Ht. apply Resolved_inj in H. subst published.
    apply serialized_date_validates; auto.
    intros e' He' Hne. injection He' as <-.
    apply truthy_Some in Hne. rewrite Hne in H1, H2. simpl in H1, H2.
    destruct (dateRegex_test e); [|discriminate]. auto.
  - intros H Hg Ht. apply Resolved_inj in H. subst published.
    apply serialized_date_validates; auto. discriminate.
Qed.

Lemma published_date_event_is_valid_witness :
  validateCalendarEvent two_zones
    (merged picnic_wire "id1" "pub1" 1717000001 "sig1") = true.
Proof.
  apply (@published_date_event_is_valid two_zones (Some "pub1") 1717000000
           "k3x9" picnic_props picnic_wire "id1" "pub1" 1717000001 "sig1").
  - reflexivity.
  - discriminate.
  - discriminate.
Defined.



(** ** RSVPs: the hook, the serializer and the validator *)

(** X8.  The RSVP hook builds its tags by hand; whenever it does not
    reject, what it hands to the publisher is what serializeCalendarRSVP
    returns for the same fields (content being the note, or the empty
    string). *)
Theorem rsvp_hook_agrees_with_serializer
    (user : option string) (now : Z) (generatedId : string)
    (args : RSVPArgs) (published : PartialNostrEvent) :
  useCalendarEventRSVP_mutationFn user generatedId args
  = Resolved published ->
  exists user_pubkey,
    user = Some user_pubkey
    /\ published
       = serializeCalendarRSVP
           (rsvp_of_args user_pubkey now generatedId args).
Proof.
  unfold useCalendarEventRSVP_mutationFn.
  destruct user as [user_pubkey|]; [|discriminate].
  destruct (_ && _); [discriminate|].
  intros H. apply Resolved_inj in H. subst published.
  exists user_pubkey. split; reflexivity.
Qed.

Lemma split_nonempty (sep : ascii) (s : string) : split sep s <> [].
Proof.
  induction s as [|c s IH]; simpl; [discriminate|].
  destruct (Ascii.eqb c sep); [discriminate|].
  destruct (split sep s); [congruence | discriminate].
Qed.

Lemma split_length_app_sep (sep : ascii) (a b : string) :
  (2 <= List.length (split sep (a ++ String sep b)))%nat.
Proof.
  induction a as [|c a IH]; simpl.
  - rewrite Ascii.eqb_refl. simpl.
    pose proof (split_nonempty sep b) as Hb.
    destruct (split sep b); [congruence | simpl; lia].
  - destruct (Ascii.eqb c sep); simpl; [lia|].
    destruct (split sep (a ++ String sep b)); simpl in *; lia.
Qed.

(** The parts of a coordinate of kind 31922 or 31923: the kind first,
    and at least two more. *)
Lemma split_coordinate (kind_ : Z) (pubkey_ identifier : string) :
  kind_ = 31922 \/ kind_ = 31923 ->
  exists rest,
    split ":" (coordinate kind_ pubkey_ identifier) = toString kind_ :: rest
    /\ (2 <= List.length rest)%nat.
Proof.
  intros [-> | ->]; unfold coordinate;
    exists (split ":" (pubkey_ ++ String ":" identifier)%string);
    (split; [reflexivity | apply split_length_app_sep]).
Qed.

Lemma status_is_known (s : RSVPStatus) :
  JS.includes ["accepted"; "declined"; "tentative"] (status_string s) = true.
Proof. destruct s; reflexivity. Qed.

(** What validateCalendarEventRSVP says of a serialized RSVP: only an
    empty d or a bad coordinate can fail it. *)
Lemma serialized_rsvp_validation (rsvp : CalendarEventRSVP)
    id_ pubkey_ created_at_ sig_ :
  validateCalendarEventRSVP
    (merged (serializeCalendarRSVP rsvp) id_ pubkey_ created_at_ sig_)
  = if (RSVP.d rsvp =? "")%string then Return false
    else
      let aParts := split ":" (RSVP.eventCoordinates rsvp) in
      if (Z.of_nat (List.length aParts) <? 3) then Return false else
      match parseInt (nth 0 aParts "") with
      | None => Return false
      | Some k =>
          if negb (includes_num [31922; 31923] k) then Return false
          else Return true
      end.
Proof.
  unfold validateCalendarEventRSVP, getTagValue, getTagValue_tags,
    serializeCalendarRSVP, push_if, truthy.
  cbn [merged kind tags p_kind p_tags Z.eqb negb].
  change (31925 =? 31925) with true. cbn [negb].
  destruct (RSVP.d rsvp =? "")%string eqn:Hd;
    destruct (RSVP.status rsvp);
    destruct (RSVP.freebusy rsvp) as [[|]|];
    destruct (RSVP.eventId rsvp) as [e|];
    try destruct (e =? "")%string;
    destruct (RSVP.authorPubkey rsvp) as [p|];
    try destruct (p =? "")%string;
    simpl; rewrite ?Hd; reflexivity.
Qed.

(** X9.  validateCalendarEventRSVP never throws on an event built by
    serializeCalendarRSVP: the a-tag it reads always has its value. *)
Theorem serialized_rsvp_never_throws (rsvp : CalendarEventRSVP)
    (id_ pubkey_ : string) (created_at_ : Z) (sig_ : string) :
  exists result,
    validateCalendarEventRSVP
      (merged (serializeCalendarRSVP rsvp) id_ pubkey_ created_at_ sig_)
    = Return result.
Proof.
  rewrite serialized_rsvp_validation.
  destruct (RSVP.d rsvp =? "")%string; [eauto|]. cbv zeta.
  destruct (_ <? 3); [eauto|].
  destruct (parseInt _); [|eauto].
  destruct (negb _); eauto.
Qed.

Lemma serialized_rsvp_validates (rsvp : CalendarEventRSVP)
    (kind_ : Z) (event_pubkey identifier : string)
    id_ pubkey_ created_at_ sig_ :
  RSVP.d rsvp <> "" ->
  kind_ = 31922 \/ kind_ = 31923 ->
  RSVP.eventCoordinates rsvp = coordinate kind_ event_pubkey identifier ->
  validateCalendarEventRSVP
    (merged (serializeCalendarRSVP rsvp) id_ pubkey_ created_at_ sig_)
  = Return true.
Proof.
  intros Hd Hk Hc. rewrite serialized_rsvp_validation.
  apply String.eqb_neq in Hd. rewrite Hd, Hc. cbv zeta.
  destruct (split_coordinate event_pubkey identifier Hk)
    as (rest & -> & Hlen).
  cbn [List.length nth]. rewrite parseInt_toString.
  destruct (Z.ltb_spec (Z.of_nat (S (List.length rest))) 3); [lia|].
  destruct Hk as [-> | ->]; reflexivity.
Qed.

(** X10.  A serialized RSVP passes validateCalendarEventRSVP as soon as
    its d is not empty and its coordinates have the form
    kind:pubkey:identifier with kind 31922 or 31923: status, fb and the
    other tags are right by construction. *)
Theorem serialized_rsvp_is_valid (rsvp : CalendarEventRSVP)
    (kind_ : Z) (event_pubkey identifier : string)
    (id_ pubkey_ : string) (created_at_ : Z) (sig_ : string) :
  RSVP.d rsvp <> "" ->
  kind_ = 31922 \/ kind_ = 31923 ->
  RSVP.eventCoordinates rsvp = coordinate kind_ event_pubkey identifier ->
  validateCalendarEventRSVP
    (merged (serializeCalendarRSVP rsvp) id_ pubkey_ created_at_ sig_)
  = Return true.
Proof. apply serialized_rsvp_validates. Qed.

Lemma serialized_rsvp_is_valid_witness :
  validateCalendarEventRSVP
    (merged (serializeCalendarRSVP going) "id3" "pub2" 1717000501 "sig3")
  = Return true.
Proof.
  apply (@serialized_rsvp_is_valid going 31923 "pub1" "abc"
           "id3" "pub2" 1717000501 "sig3").
  - discriminate.
  - right. reflexivity.
  - reflexivity.
Defined.

(** X11.  The RSVP a card sends for an event it shows is never rejected
    by the hook (a declined RSVP is sent without free/busy) and passes
    validateCalendarEventRSVP, for a logged-in user and a non-empty
    generated identifier. *)
Theorem card_rsvp_is_published_and_valid
    (event : CalendarEvent) (status_ : RSVPStatus)
    (user_pubkey generatedId : string)
    (id_ pubkey_ : string) (created_at_ : Z) (sig_ : string) :
  generatedId <> "" ->
  exists published,
    useCalendarEventRSVP_mutationFn (Some user_pubkey) generatedId
      (handleRSVP event status_) = Resolved published
    /\ validateCalendarEventRSVP
         (merged published id_ pubkey_ created_at_ sig_) = Return true.
Proof.
  intros Hg.
  exists (serializeCalendarRSVP
            (rsvp_of_args user_pubkey 0 generatedId
                          (handleRSVP event status_))).
  split.
  - destruct status_; reflexivity.
  - apply serialized_rsvp_validates
      with (kind_ := kind_of event)
           (event_pubkey := Base.pubkey (base_of event))
           (identifier := Base.d (base_of event)).
    + exact Hg.
    + destruct event; auto.
    + reflexivity.
Qed.

Lemma card_rsvp_is_published_and_valid_witness :
  exists published,
    useCalendarEventRSVP_mutationFn (Some "pub2") "r7"
      (handleRSVP countdown_parsed declined) = Resolved published
    /\ validateCalendarEventRSVP
         (merged published "id4" "pub2" 1717000501 "sig4") = Return true.
Proof.
  apply (@card_rsvp_is_published_and_valid countdown_parsed declined
           "pub2" "r7" "id4" "pub2" 1717000501 "sig4").
  discriminate.
Defined.

Lemma rsvp_hook_agrees_with_serializer_witness :
  exists user_pubkey,
    Some "pub2" = Some user_pubkey
    /\ serializeCalendarRSVP going
       = serializeCalendarRSVP
           (rsvp_of_args user_pubkey 1717000500 "r7"
              {| RSVPArgs.eventId := Some "e1";
                 RSVPArgs.eventCoordinates := "31923:pub1:abc";
                 RSVPArgs.status := accepted;
                 RSVPArgs.freebusy := Some busy;
                 RSVPArgs.note := None;
                 RSVPArgs.authorPubkey := Some "pub1" |}).
Proof.
  apply (@rsvp_hook_agrees_with_serializer (Some "pub2") 1717000500 "r7").
  reflexivity.
Defined.

(** ** The form's hashtag field *)

Lemma trim_start_no_leading (s : string) :
  no_leading_whitespace (trim_start s).
Proof.
  induction s as [|c s IH]; simpl; [exact I|].
  destruct (is_whitespace c) eqn:H; [exact IH | exact H].
Qed.

Lemma trim_start_fixed (s : string) :
  no_leading_whitespace s -> trim_start s = s.
Proof. destruct s as [|c s]; simpl; [reflexivity|]. now intros ->. Qed.

Lemma trim_end_no_leading (s : string) :
  no_leading_whitespace s -> no_leading_whitespace (JSString.trim_end s).
Proof.
  destruct s as [|c s]; simpl; [auto|]. intros H.
  destruct (JSString.trim_end s); [rewrite H|]; exact H.
Qed.

Lemma trim_end_idempotent (s : string) :
  JSString.trim_end (JSString.trim_end s) = JSString.trim_end s.
Proof.
  induction s as [|c s IH]; simpl; [reflexivity|].
  destruct (JSString.trim_end s) as [|c' r] eqn:Hr.
  - destruct (is_whitespace c) eqn:Hc; simpl; [reflexivity|].
    now rewrite Hc.
  - change (JSString.trim_end (String c (String c' r)))
      with (match JSString.trim_end (String c' r) with
            | EmptyString => if is_whitespace c then EmptyString
                             else String c EmptyString
            | rest => String c rest
            end).
    rewrite IH. reflexivity.
Qed.

Lemma trim_idempotent (s : string) :
  JSString.trim (JSString.trim s) = JSString.trim s.
Proof.
  unfold JSString.trim.
  rewrite trim_start_fixed
    by apply trim_end_no_leading, trim_start_no_leading.
  apply trim_end_idempotent.
Qed.

Lemma includes_char_cons (sep c : ascii) (s : string) :
  JSString.includes (String sep "") (String c s)
  = Ascii.eqb c sep || JSString.includes (String sep "") s.
Proof.
  cbn [JSString.includes String.prefix].
  destruct (ascii_dec sep c) as [->|Hne].
  - rewrite Ascii.eqb_refl. now destruct s.
  - assert (Ascii.eqb c sep = false) as ->
      by (apply Ascii.eqb_neq; congruence).
    reflexivity.
Qed.

Lemma includes_char_empty (sep : ascii) :
  JSString.includes (String sep "") "" = false.
Proof. reflexivity. Qed.

Lemma split_pieces_lack_separator (sep : ascii) (s : string) :
  Forall (fun piece => JSString.includes (String sep "") piece = false)
         (split sep s).
Proof.
  induction s as [|c s IH]; simpl.
  - repeat constructor.
  - destruct (Ascii.eqb c sep) eqn:Hc.
    + constructor; [reflexivity | exact IH].
    + destruct (split sep s) as [|piece rest].
      * repeat constructor. rewrite includes_char_cons, Hc. reflexivity.
      * inversion IH as [|? ? Hp Hrest]; subst.
        constructor; [|exact Hrest].
        rewrite includes_char_cons, Hc, Hp. reflexivity.
Qed.

Lemma trim_start_lacks (sep : ascii) (s : string) :
  JSString.includes (String sep "") s = false ->
  JSString.includes (String sep "") (trim_start s) = false.
Proof.
  induction s as [|c s IH]; simpl trim_start; [auto|].
  destruct (is_whitespace c); [|auto].
  rewrite includes_char_cons. intros H.
  apply orb_false_iff in H. apply IH, H.
Qed.

Lemma trim_end_lacks (sep : ascii) (s : string) :
  JSString.includes (String sep "") s = false ->
  JSString.includes (String sep "") (JSString.trim_end s) = false.
Proof.
  induction s as [|c s IH]; [auto|].
  rewrite includes_char_cons. intros H.
  apply orb_false_iff in H. destruct H as [Hc Hs].
  specialize (IH Hs). cbn [JSString.trim_end]. fold JSString.trim_end.
  destruct (JSString.trim_end s) as [|c' r].
  - destruct (is_whitespace c); [reflexivity|].
    rewrite includes_char_cons, Hc. reflexivity.
  - rewrite includes_char_cons, Hc, IH. reflexivity.
Qed.

(** X12.  Every hashtag the form derives from its comma-separated field
    is non-empty, carries no white space at either end (trimming it again
    changes nothing) and contains no comma, whatever was typed. *)
Theorem processHashtags_entries_are_clean (hashtagsStr : JS.value) :
  Forall (fun tag => tag <> ""
                     /\ JSString.trim tag = tag
                     /\ JSString.includes "," tag = false)
         (processHashtags hashtagsStr).
Proof.
  unfold processHashtags.
  destruct hashtagsStr as [s|]; [|constructor].
  destruct (negb (truthy (Some s))); [constructor|].
  apply Forall_forall. intros tag Hin.
  apply filter_In in Hin. destruct Hin as [Hin Hne].
  apply in_map_iff in Hin. destruct Hin as (piece & <- & Hpiece).
  split; [|split].
  - unfold JSString.nonempty in Hne. apply negb_true_iff in Hne.
    now apply String.eqb_neq in Hne.
  - apply trim_idempotent.
  - pose proof (split_pieces_lack_separator "," s) as Hall.
    rewrite Forall_forall in Hall. specialize (Hall piece Hpiece).
    unfold JSString.trim. now apply trim_end_lacks, trim_start_lacks.
Qed.

(** ** Order and content of the pages *)

Lemma starts_no_later_trans (a b c : CalendarEvent) :
  starts_no_later a b -> starts_no_later b c -> starts_no_later a c.
Proof.
  unfold starts_no_later.
  destruct (time_start a), (time_start b), (time_start c); try tauto; lia.
Qed.

Section SortedInsertion.

Variable A : Type.
Variable comparefn : A -> A -> option Z.

(** The elements the callback orders, and the order it realises. *)
Variable P : A -> Prop.
Variable R : A -> A -> Prop.

Hypothesis R_trans : forall a b c, R a b -> R b c -> R a c.

Hypothesis comparefn_R :
  forall a b, P a -> P b ->
    ((SortCompare comparefn a b <=? 0) = true -> R a b)
    /\ ((SortCompare comparefn a b <=? 0) = false -> R b a).

Lemma insert_sorted (x : A) (l : list A) :
  P x -> Forall P l -> StronglySorted R l ->
  StronglySorted R (insert comparefn x l).
Proof.
  intros Hx. induction l as [|y l IH]; intros Hl Hs; simpl.
  - repeat constructor.
  - inversion Hl as [|? ? Hy Hl']; subst.
    inversion Hs as [|? ? Hs' Hys]; subst.
    destruct (comparefn_R Hx Hy) as [Hle Hgt].
    destruct (SortCompare comparefn x y <=? 0).
    + constructor; [exact Hs|].
      constructor; [auto|].
      eapply Forall_impl; [|exact Hys].
      intros z Hz. eapply R_trans; [|exact Hz]. auto.
    + constructor; [auto|].
      apply Forall_forall. intros z Hz. apply insert_In in Hz.
      destruct Hz as [->|Hz]; [auto|].
      rewrite Forall_forall in Hys. auto.
Qed.

Lemma sort_sorted (l : list A) :
  Forall P l -> StronglySorted R (sort comparefn l).
Proof.
  unfold sort. induction l as [|x l IH]; intros Hl; simpl.
  - constructor.
  - inversion Hl as [|? ? Hx Hl']; subst.
    apply insert_sorted; auto.
    apply Forall_forall. intros z Hz.
    change (fold_right (insert comparefn) [] l) with (sort comparefn l)
      in Hz.
    apply sort_In in Hz. rewrite Forall_forall in Hl'. auto.
Qed.

End SortedInsertion.

Section SortedByStart.

Variable comparefn : CalendarEvent -> CalendarEvent -> option Z.

(** On time-based events the callback is the difference of the starts. *)
Hypothesis comparefn_time :
  forall a_b a_start a_end a_tz1 a_tz2 b_b b_start b_end b_tz1 b_tz2,
    comparefn (TimeBased a_b a_start a_end a_tz1 a_tz2)
              (TimeBased b_b b_start b_end b_tz1 b_tz2)
    = Some (a_start - b_start).

Lemma SortCompare_time (a b : CalendarEvent) :
  is_time_based a -> is_time_based b ->
  ((SortCompare comparefn a b <=? 0) = true -> starts_no_later a b)
  /\ ((SortCompare comparefn a b <=? 0) = false -> starts_no_later b a).
Proof.
  unfold is_time_based, starts_no_later, SortCompare.
  destruct a, b; simpl; try congruence. intros _ _.
  rewrite comparefn_time. split; intros H.
  - apply Z.leb_le in H. lia.
  - apply Z.leb_gt in H. lia.
Qed.

Lemma sort_sorted_by_start (l : list CalendarEvent) :
  Forall is_time_based l ->
  StronglySorted starts_no_later (sort comparefn l).
Proof.
  apply sort_sorted.
  - exact starts_no_later_trans.
  - exact SortCompare_time.
Qed.

End SortedByStart.

Lemma Forall_sort (A : Type) (cmp : A -> A -> option Z) (P : A -> Prop)
    (l : list A) :
  Forall P (sort cmp l) <-> Forall P l.
Proof.
  rewrite !Forall_forall. split; intros H x Hx; apply H;
    [apply sort_In | apply sort_In in Hx]; exact Hx.
Qed.

(** X13.  A page of upcoming events that holds time-based events only
    is in the order of their starts, earliest first. *)
Theorem upcoming_page_sorted_by_start
    (isValidTimeZone : string -> bool)
    (localeCompare : string -> string -> Z)
    (query : Filter -> list NostrEvent)
    (limit_ now : Z) (today : string) (pageParam : option Z) :
  Forall is_time_based
    (useUpcomingCalendarEvents_queryFn isValidTimeZone localeCompare query
       limit_ now today pageParam) ->
  StronglySorted starts_no_later
    (useUpcomingCalendarEvents_queryFn isValidTimeZone localeCompare query
       limit_ now today pageParam).
Proof.
  unfold useUpcomingCalendarEvents_queryFn. intros H.
  apply Forall_sort in H. apply sort_sorted_by_start; [|exact H].
  reflexivity.
Qed.

Lemma upcoming_page_sorted_by_start_witness :
  StronglySorted starts_no_later
    (useUpcomingCalendarEvents_queryFn (fun _ => true) (fun _ _ => 0)
       two_event_relay 20 clock_now clock_today None).
Proof.
  apply (@upcoming_page_sorted_by_start (fun _ => true) (fun _ _ => 0)
           two_event_relay 20 clock_now clock_today None).
  repeat constructor; discriminate.
Defined.

(** X14.  The list of recent events, when it holds time-based events
    only, is in the order of their starts, earliest first. *)
Theorem recent_events_sorted_by_start
    (isValidTimeZone : string -> bool)
    (localeCompare : string -> string -> Z)
    (query : Filter -> list NostrEvent) (limit_ : Z) :
  Forall is_time_based
    (useRecentCalendarEvents_queryFn isValidTimeZone localeCompare query
       limit_) ->
  StronglySorted starts_no_later
    (useRecentCalendarEvents_queryFn isValidTimeZone localeCompare query
       limit_).
Proof.
  unfold useRecentCalendarEvents_queryFn. intros H.
  apply Forall_sort in H. apply sort_sorted_by_start; [|exact H].
  reflexivity.
Qed.

Lemma recent_events_sorted_by_start_witness :
  StronglySorted starts_no_later
    (useRecentCalendarEvents_queryFn (fun _ => true) (fun _ _ => 0)
       two_event_relay 20).
Proof.
  apply (@recent_events_sorted_by_start (fun _ => true) (fun _ _ => 0)
           two_event_relay 20).
  repeat constructor; discriminate.
Defined.

(** X15.  Every event of a page of upcoming events has not begun: a
    time-based one starts after now and, if it has an end, ends after
    its start; a date-based one starts today or later, on a start of the
    form YYYY-MM-DD. *)
Theorem upcoming_page_events_have_not_begun
    (isValidTimeZone : string -> bool)
    (localeCompare : string -> string -> Z)
    (query : Filter -> list NostrEvent)
    (limit_ now : Z) (today : string) (pageParam : option Z) :
  Forall (fun e =>
            match e with
            | TimeBased _ start end_ _ _ =>
                0 < start /\ now < start
                /\ (forall n, end_ = Some n -> start < n)
            | DateBased _ start _ =>
                (today <=? start)%string = true
                /\ dateRegex_test start = true
            end)
    (useUpcomingCalendarEvents_queryFn isValidTimeZone localeCompare query
       limit_ now today pageParam).
Proof.
  apply Forall_forall. intros e He.
  unfold useUpcomingCalendarEvents_queryFn in He. apply sort_In in He.
  apply validate_parse_keep_In in He.
  destruct He as (raw_event & _ & Hv & Hp & Hup).
  destruct e as [b s en | b s en tz1 tz2]; simpl in Hup.
  - split; [exact Hup|].
    now destruct (validated_parsed_date _ _ Hv Hp).
  - destruct (validated_parsed_time _ _ Hv Hp) as [H0 Hen].
    apply Z.ltb_lt in Hup. auto.
Qed.

(** X16.  With a relay that honours [until], every event of the page
    fetched with the cursor of a page was published strictly before that
    page's last item, so the last item is not fetched again (its
    created_at must not be 1: the cursor 0 is read as no cursor). *)
Theorem next_page_is_older_than_last_item
    (isValidTimeZone : string -> bool)
    (localeCompare : string -> string -> Z)
    (query : Filter -> list NostrEvent)
    (limit_ now : Z) (today : string)
    (lastPage rest : list CalendarEvent) (last_ : CalendarEvent) :
  honours_until query ->
  rev lastPage = last_ :: rest ->
  ce_created_at last_ <> 1 ->
  Forall (fun e => ce_created_at e < ce_created_at last_)
    (useUpcomingCalendarEvents_queryFn isValidTimeZone localeCompare query
       limit_ now today (getNextPageParam lastPage)).
Proof.
  intros Hq Hrev Hne. unfold getNextPageParam. rewrite Hrev.
  apply Forall_forall. intros e He.
  unfold useUpcomingCalendarEvents_queryFn in He. apply sort_In in He.
  apply validate_parse_keep_In in He.
  destruct He as (r & Hr & _ & Hp & _).
  apply parsed_wire_fields in Hp. destruct Hp as [_ ->].
  assert (Ht : truthy_num (Some (ce_created_at last_ - 1)) = true).
  { simpl. destruct (Z.eqb_spec (ce_created_at last_ - 1) 0);
      [lia | reflexivity]. }
  rewrite Ht in Hr. apply in_app_or in Hr.
  assert (created_at r <= ce_created_at last_ - 1); [|lia].
  destruct Hr as [Hr|Hr]; eapply Hq; try exact Hr; reflexivity.
Qed.

Lemma In_firstn (A : Type) (n : nat) (l : list A) (x : A) :
  In x (firstn n l) -> In x l.
Proof.
  revert l. induction n as [|n IH]; intros [|a l]; simpl; try tauto.
  intros [H|H]; auto.
Qed.

Lemma Relay_query_honours_until (stored : list NostrEvent) :
  honours_until (Relay.query stored).
Proof.
  intros f u event Hu Hin. unfold Relay.query in Hin.
  apply In_firstn, sort_In, filter_In in Hin. destruct Hin as [_ Hm].
  unfold Relay.matches in Hm. rewrite Hu in Hm.
  apply andb_true_iff in Hm. destruct Hm as [_ Hm].
  now apply Z.leb_le in Hm.
Qed.

Lemma next_page_is_older_than_last_item_witness :
  Forall (fun e => ce_created_at e < ce_created_at autumn_fair)
    (useUpcomingCalendarEvents_queryFn (fun _ => true) (fun _ _ => 0)
       two_event_relay 20 clock_now clock_today
       (getNextPageParam [summer_picnic; autumn_fair])).
Proof.
  apply (@next_page_is_older_than_last_item (fun _ => true) (fun _ _ => 0)
           two_event_relay 20 clock_now clock_today
           [summer_picnic; autumn_fair] [summer_picnic] autumn_fair).
  - apply Relay_query_honours_until.
  - reflexivity.
  - discriminate.
Defined.

(** ** The search hook *)

Lemma filter_throwing_In (A : Type) (f : A -> completion bool)
    (l r : list A) (x : A) :
  filter_throwing f l = Return r ->
  In x r <-> In x l /\ f x = Return true.
Proof.
  revert r. induction l as [|a l IH]; simpl; intros r H.
  - injection H as <-. simpl. tauto.
  - destruct (f a) as [keep|] eqn:Hfa; [|discriminate].
    destruct (filter_throwing f l) as [rest|]; [|discriminate].
    injection H as <-. specialize (IH rest eq_refl).
    destruct keep; simpl; rewrite IH; intuition (subst; congruence).
Qed.

Lemma filter_throwing_returns (A : Type) (f : A -> completion bool)
    (l : list A) :
  (forall x, In x l -> f x <> ThrowTypeError) ->
  exists r, filter_throwing f l = Return r.
Proof.
  induction l as [|a l IH]; simpl; intros H; [eauto|].
  destruct (f a) as [keep|] eqn:Hfa; [|exfalso; eapply H; eauto].
  destruct IH as [rest ->]; [auto|]. eauto.
Qed.

Lemma uniqueEvents_In hashtagEvents parsedEvents e :
  In e (uniqueEvents hashtagEvents parsedEvents) ->
  In e (hashtagEvents ++ parsedEvents).
Proof.
  intros Hin. unfold uniqueEvents, Map_values in Hin.
  apply in_map_iff in Hin. destruct Hin as ([k v] & Hv & Hin).
  simpl in Hv. subst v.
  set (entries := map _ (hashtagEvents ++ parsedEvents)) in Hin.
  assert (Hnd : NoDup (Map_keys (Map_new entries)))
    by (rewrite Map_keys_new; apply first_occurrences_NoDup).
  pose proof (Map_get_In _ _ _ Hnd Hin) as Hg.
  rewrite Map_get_new in Hg. unfold entries in Hg.
  rewrite <- map_rev in Hg. change (fun event => (ce_id event, event))
    with entry_of in Hg. rewrite assoc_entries in Hg.
  apply find_some in Hg. destruct Hg as [Hg _]. now apply in_rev.
Qed.

Lemma search_unfold isValidTimeZone nostr_query query_ limit_ result :
  useCalendarEventSearch_queryFn isValidTimeZone nostr_query query_ limit_
  = Return result ->
  search_term query_ = "" /\ result = []
  \/ search_term query_ <> ""
     /\ exists parsedEvents,
          filter_throwing (search_matches (search_term query_))
            (validate_parse_keep isValidTimeZone (fun _ => true)
               (nostr_query (broad_filter limit_)))
          = Return parsedEvents
          /\ result
             = uniqueEvents
                 (if JSString.startsWith "#" (search_term query_)
                  then validate_parse_keep isValidTimeZone (fun _ => true)
                         (nostr_query
                            (hashtag_filter
                               (JSString.slice1 (search_term query_))
                               limit_))
                  else [])
                 parsedEvents.
Proof.
  unfold useCalendarEventSearch_queryFn, JSString.nonempty.
  fold (search_term query_). fold (broad_filter limit_).
  fold (hashtag_filter (JSString.slice1 (search_term query_)) limit_).
  destruct (String.eqb_spec (search_term query_) "") as [He|Hne]; simpl.
  - intros H. injection H as <-. auto.
  - destruct (filter_throwing _ _) as [parsedEvents|]; [|discriminate].
    intros H. injection H as <-. right. eauto.
Qed.

(** X17.  Whatever the relay answers, the search returns no id twice,
    and each of its events is a validated and parsed event of one of the
    two queries: one the text filter kept, or one of the hashtag query
    (sent only when the normalised query begins with #). *)
Theorem search_results_are_unique_valid_hits
    (isValidTimeZone : string -> bool)
    (nostr_query : NostrFilter -> list NostrEvent)
    (query_ : string) (limit_ : Z) (result : list CalendarEvent) :
  useCalendarEventSearch_queryFn isValidTimeZone nostr_query query_ limit_
  = Return result ->
  NoDup (map ce_id result)
  /\ Forall
       (fun e =>
          exists raw_event,
            validateCalendarEvent isValidTimeZone raw_event = true
            /\ parseCalendarEvent raw_event = Some e
            /\ (In raw_event (nostr_query (broad_filter limit_))
                /\ search_matches (search_term query_) e = Return true
                \/ JSString.startsWith "#" (search_term query_) = true
                   /\ In raw_event
                        (nostr_query
                           (hashtag_filter
                              (JSString.slice1 (search_term query_))
                              limit_))))
       result.
Proof.
  intros H. apply search_unfold in H.
  destruct H as [[_ ->] | (_ & parsedEvents & Hf & ->)].
  - split; constructor.
  - split; [rewrite uniqueEvents_ids; apply first_occurrences_NoDup|].
    apply Forall_forall. intros e He. apply uniqueEvents_In in He.
    apply in_app_or in He. destruct He as [He|He].
    + destruct (JSString.startsWith "#" (search_term query_)) eqn:Hs;
        [|destruct He].
      apply validate_parse_keep_In in He.
      destruct He as (raw_event & Hin & Hv & Hp & _).
      exists raw_event. auto.
    + apply (filter_throwing_In _ _ e Hf) in He. destruct He as [He Hm].
      apply validate_parse_keep_In in He.
      destruct He as (raw_event & Hin & Hv & Hp & _).
      exists raw_event. auto.
Qed.

Lemma search_results_are_unique_valid_hits_witness :
  NoDup (map ce_id [garden_parsed])
  /\ Forall
       (fun e =>
          exists raw_event,
            validateCalendarEvent two_zones raw_event = true
            /\ parseCalendarEvent raw_event = Some e
            /\ (In raw_event (library_relay (broad_filter 50))
                /\ search_matches (search_term "  Garden ") e = Return true
                \/ JSString.startsWith "#" (search_term "  Garden ") = true
                   /\ In raw_event
                        (library_relay
                           (hashtag_filter
                              (JSString.slice1 (search_term "  Garden "))
                              50))))
       [garden_parsed].
Proof.
  apply (@search_results_are_unique_valid_hits two_zones library_relay
           "  Garden " 50 [garden_parsed]).
  reflexivity.
Defined.

Lemma parsed_locations event e :
  parseCalendarEvent event = Some e ->
  Base.locations (base_of e) = getTagValues event "location".
Proof.
  unfold parseCalendarEvent. intros H. split_if H;
    injection H as <-; reflexivity.
Qed.

Lemma some_location_includes_returns (normalizedQuery : string)
    (locations : list JS.value) :
  Forall (fun loc => loc <> None) locations ->
  some_location_includes normalizedQuery locations <> ThrowTypeError.
Proof.
  induction 1 as [|loc locations Hloc _ IH]; simpl; [discriminate|].
  destruct loc as [s|]; [|congruence].
  destruct (JSString.includes _ _); [discriminate | exact IH].
Qed.

(** X18.  The search returns (it does not throw) whenever every location
    tag of the events the broad query answers with has a value: the only
    call that can fail is [loc.toLowerCase()] on a location tag of one
    element. *)
Theorem search_returns_when_locations_have_values
    (isValidTimeZone : string -> bool)
    (nostr_query : NostrFilter -> list NostrEvent)
    (query_ : string) (limit_ : Z) :
  (forall raw_event,
     In raw_event (nostr_query (broad_filter limit_)) ->
     Forall (fun loc => loc <> None) (getTagValues raw_event "location")) ->
  exists result,
    useCalendarEventSearch_queryFn isValidTimeZone nostr_query query_ limit_
    = Return result.
Proof.
  intros Hloc. unfold useCalendarEventSearch_queryFn.
  fold (search_term query_). fold (broad_filter limit_).
  destruct (negb _); [eauto|].
  destruct (@filter_throwing_returns _
              (search_matches (search_term query_))
              (validate_parse_keep isValidTimeZone (fun _ => true)
                 (nostr_query (broad_filter limit_)))) as [r Hr].
  - intros e He. apply validate_parse_keep_In in He.
    destruct He as (raw_event & Hin & _ & Hp & _).
    unfold search_matches.
    destruct (JSString.includes _ _); [discriminate|].
    destruct (JSString.includes _ _); [discriminate|].
    destruct (match Base.summary (base_of e) with
              | Some s => _
              | None => false
              end); [discriminate|].
    rewrite (parsed_locations _ Hp).
    apply some_location_includes_returns. auto.
  - rewrite Hr. eauto.
Qed.

Lemma search_returns_when_locations_have_values_witness :
  exists result,
    useCalendarEventSearch_queryFn two_zones library_relay "botanic" 50
    = Return result.
Proof.
  apply (@search_returns_when_locations_have_values two_zones library_relay
           "botanic" 50).
  intros raw_event Hin. vm_compute in Hin.
  destruct Hin as [<- | [<- | [<- | []]]]; vm_compute;
    repeat constructor; discriminate.
Defined.

(** X19.  The text search misses no title: when it returns, an event of
    the broad query that validates, parses and has the normalised query
    inside its lower-cased title is among the results, under its id. *)
Theorem search_finds_title_matches
    (isValidTimeZone : string -> bool)
    (nostr_query : NostrFilter -> list NostrEvent)
    (query_ : string) (limit_ : Z) (result : list CalendarEvent)
    (raw_event : NostrEvent) (e : CalendarEvent) :
  useCalendarEventSearch_queryFn isValidTimeZone nostr_query query_ limit_
  = Return result ->
  search_term query_ <> "" ->
  In raw_event (nostr_query (broad_filter limit_)) ->
  validateCalendarEvent isValidTimeZone raw_event = true ->
  parseCalendarEvent raw_event = Some e ->
  JSString.includes (search_term query_)
    (JSString.toLowerCase (Base.title (base_of e))) = true ->
  In (id raw_event) (map ce_id result).
Proof.
  intros H Hq Hin Hv Hp Ht. apply search_unfold in H.
  destruct H as [[Hq' _] | (_ & parsedEvents & Hf & ->)]; [congruence|].
  rewrite uniqueEvents_ids. apply first_occurrences_In.
  rewrite map_app. apply in_or_app. right.
  destruct (parsed_wire_fields _ Hp) as [<- _].
  apply in_map. apply (filter_throwing_In _ _ e Hf). split.
  - apply validate_parse_keep_In. exists raw_event. auto.
  - unfold search_matches. rewrite Ht. reflexivity.
Qed.

Lemma search_finds_title_matches_witness :
  In (id garden_party) (map ce_id [garden_parsed]).
Proof.
  apply (@search_finds_title_matches two_zones library_relay
           "  Garden " 50 [garden_parsed] garden_party garden_parsed).
  - reflexivity.
  - discriminate.
  - vm_compute. auto.
  - reflexivity.
  - reflexivity.
  - reflexivity.
Defined.

(** X20.  A query that begins with # finds what the relay answers to
    the hashtag filter: when the search returns, every event of that
    answer that validates and parses is among the results, whether or
    not its text contains the query. *)
Theorem search_finds_hashtag_answers
    (isValidTimeZone : string -> bool)
    (nostr_query : NostrFilter -> list NostrEvent)
    (query_ : string) (limit_ : Z) (result : list CalendarEvent)
    (raw_event : NostrEvent) (e : CalendarEvent) :
  useCalendarEventSearch_queryFn isValidTimeZone nostr_query query_ limit_
  = Return result ->
  JSString.startsWith "#" (search_term query_) = true ->
  In raw_event
     (nostr_query
        (hashtag_filter (JSString.slice1 (search_term query_)) limit_)) ->
  validateCalendarEvent isValidTimeZone raw_event = true ->
  parseCalendarEvent raw_event = Some e ->
  In (id raw_event) (map ce_id result).
Proof.
  intros H Hs Hin Hv Hp. apply search_unfold in H.
  destruct H as [[Hq' _] | (_ & parsedEvents & Hf & ->)].
  - rewrite Hq' in Hs. discriminate.
  - rewrite uniqueEvents_ids. apply first_occurrences_In.
    rewrite map_app. apply in_or_app. left. rewrite Hs.
    destruct (parsed_wire_fields _ Hp) as [<- _].
    apply in_map. apply validate_parse_keep_In. exists raw_event. auto.
Qed.

Lemma search_finds_hashtag_answers_witness :
  In (id garden_party) (map ce_id [garden_parsed]).
Proof.
  apply (@search_finds_hashtag_answers two_zones library_relay
           "#Music" 50 [garden_parsed] garden_party garden_parsed).
  - reflexivity.
  - reflexivity.
  - vm_compute. auto.
  - reflexivity.
  - reflexivity.
Defined.

(** ** The by-id hook *)

(** X21.  With a relay that honours [ids], the event useCalendarEvent
    returns carries the id that was asked for; the id is not empty and
    the event is the parse of a wire event that validates. *)
Theorem useCalendarEvent_returns_the_event_asked_for
    (isValidTimeZone : string -> bool)
    (nostr_query : NostrFilter -> list NostrEvent)
    (id_ : string) (e : CalendarEvent) :
  honours_ids nostr_query ->
  useCalendarEvent_queryFn isValidTimeZone nostr_query id_ = Some e ->
  ce_id e = id_
  /\ id_ <> ""
  /\ exists raw_event,
       validateCalendarEvent isValidTimeZone raw_event = true
       /\ parseCalendarEvent raw_event = Some e.
Proof.
  intros Hids. unfold useCalendarEvent_queryFn, JSString.nonempty.
  destruct (String.eqb_spec id_ "") as [|Hne]; simpl; [discriminate|].
  destruct (nostr_query _) as [|event rest] eqn:Hq; [discriminate|].
  destruct (validateCalendarEvent isValidTimeZone event) eqn:Hv;
    simpl; [|discriminate].
  intros Hp. split; [|split; [exact Hne | eauto]].
  destruct (parsed_wire_fields _ Hp) as [-> _].
  assert (Hin : In (id event) [id_]).
  { eapply Hids; [|rewrite Hq; left; reflexivity]. reflexivity. }
  destruct Hin as [<-|[]]. reflexivity.
Qed.

Lemma stored_query_honours_ids (stored : list NostrEvent) :
  honours_ids (stored_query stored).
Proof.
  intros f ids event Hids Hin. unfold stored_query in Hin.
  assert (Hin' : In event
                   (sort Relay.newest_first
                      (filter (nostr_matches f) stored)))
    by (destruct (nf_limit f); [eapply In_firstn|]; exact Hin).
  apply sort_In, filter_In in Hin'. destruct Hin' as [_ Hm].
  unfold nostr_matches in Hm. rewrite Hids in Hm.
  apply andb_true_iff in Hm. destruct Hm as [Hm _].
  apply andb_true_iff in Hm. destruct Hm as [_ Hm].
  unfold JS.includes in Hm. apply existsb_exists in Hm.
  destruct Hm as (x & Hx & Heq). apply String.eqb_eq in Heq. now subst.
Qed.

Lemma useCalendarEvent_returns_the_event_asked_for_witness :
  ce_id garden_parsed = "g1"
  /\ "g1" <> ""
  /\ exists raw_event,
       validateCalendarEvent two_zones raw_event = true
       /\ parseCalendarEvent raw_event = Some garden_parsed.
Proof.
  apply (@useCalendarEvent_returns_the_event_asked_for two_zones
           library_relay "g1" garden_parsed).
  - apply stored_query_honours_ids.
  - reflexivity.
Defined.

(** ** Dates as strings and as days *)

Lemma is_digit_bounds (c : ascii) :
  is_digit c = true -> 0 <= digit c <= 9.
Proof.
  unfold is_digit, digit. intros H. apply andb_true_iff in H.
  destruct H as [H1 H2]. apply N.leb_le in H1, H2. lia.
Qed.

Lemma ascii_compare_digit (c1 c2 : ascii) :
  Ascii.compare c1 c2 = (digit c1 ?= digit c2).
Proof.
  unfold Ascii.compare, digit.
  destruct (N.compare_spec (N_of_ascii c1) (N_of_ascii c2));
    destruct (Z.compare_spec (Z.of_N (N_of_ascii c1) - 48)
                             (Z.of_N (N_of_ascii c2) - 48));
    try reflexivity; lia.
Qed.

Lemma date_shape (s : string) :
  dateRegex_test s = true ->
  exists y1 y2 y3 y4 m1 m2 d1 d2,
    s = String y1 (String y2 (String y3 (String y4 (String "-"
          (String m1 (String m2 (String "-"
            (String d1 (String d2 EmptyString)))))))))
    /\ is_digit y1 = true /\ is_digit y2 = true /\ is_digit y3 = true
    /\ is_digit y4 = true /\ is_digit m1 = true /\ is_digit m2 = true
    /\ is_digit d1 = true /\ is_digit d2 = true.
Proof.
  destruct s
    as [|y1 [|y2 [|y3 [|y4 [|h1 [|m1 [|m2 [|h2 [|d1 [|d2 [|x s]]]]]]]]]]];
    try discriminate;
    (destruct h1 as [[] [] [] [] [] [] [] []]; try discriminate);
    (destruct h2 as [[] [] [] [] [] [] [] []]; try discriminate).
  cbn [dateRegex_test]. intros H.
  do 7 (apply andb_true_iff in H; destruct H as [H ?]).
  exists y1, y2, y3, y4, m1, m2, d1, d2.
  repeat split; first [assumption | reflexivity].
Qed.

Lemma civil_of_string_shape (s : string) (y m d : Z) :
  civil_of_string s = Some (y, m, d) ->
  exists y1 y2 y3 y4 m1 m2 d1 d2,
    s = String y1 (String y2 (String y3 (String y4 (String "-"
          (String m1 (String m2 (String "-"
            (String d1 (String d2 EmptyString)))))))))
    /\ (0 <= digit y1 <= 9 /\ 0 <= digit y2 <= 9 /\ 0 <= digit y3 <= 9
        /\ 0 <= digit y4 <= 9 /\ 0 <= digit m1 <= 9 /\ 0 <= digit m2 <= 9
        /\ 0 <= digit d1 <= 9 /\ 0 <= digit d2 <= 9)
    /\ y = digit y1 * 1000 + digit y2 * 100 + digit y3 * 10 + digit y4
    /\ m = digit m1 * 10 + digit m2
    /\ d = digit d1 * 10 + digit d2.
Proof.
  intros H.
  assert (Ht : dateRegex_test s = true).
  { destruct (dateRegex_test s) eqn:E; [reflexivity|].
    unfold civil_of_string in H. rewrite E in H.
    destruct s
    as [|y1 [|y2 [|y3 [|y4 [|h1 [|m1 [|m2 [|h2 [|d1 [|d2 [|x s]]]]]]]]]]];
      try discriminate;
      (destruct h1 as [[] [] [] [] [] [] [] []]; try discriminate);
      (destruct h2 as [[] [] [] [] [] [] [] []]; discriminate). }
  destruct (date_shape _ Ht)
    as (y1 & y2 & y3 & y4 & m1 & m2 & d1 & d2 & -> & H1 & H2 & H3 & H4
        & H5 & H6 & H7 & H8).
  exists y1, y2, y3, y4, m1, m2, d1, d2.
  unfold civil_of_string in H. rewrite Ht in H. injection H as <- <- <-.
  auto 20 using is_digit_bounds.
Qed.

Lemma date_strings_order_by_key (a b : string) (ca cb : Z * Z * Z) :
  civil_of_string a = Some ca -> civil_of_string b = Some cb ->
  (a <=? b)%string = true <-> date_key ca <= date_key cb.
Proof.
  destruct ca as [[ya ma] da], cb as [[yb mb] db]. intros Ha Hb.
  apply civil_of_string_shape in Ha, Hb.
  destruct Ha as (a1 & a2 & a3 & a4 & a5 & a6 & a7 & a8 & -> & Ba
                  & -> & -> & ->).
  destruct Hb as (b1 & b2 & b3 & b4 & b5 & b6 & b7 & b8 & -> & Bb
                  & -> & -> & ->).
  unfold String.leb, date_key. cbn [String.compare].
  rewrite !ascii_compare_digit, !Z.compare_refl.
  destruct (Z.compare_spec (digit a1) (digit b1));
    [|cbv beta iota; split; intros; try discriminate; try reflexivity; lia ..].
  destruct (Z.compare_spec (digit a2) (digit b2));
    [|cbv beta iota; split; intros; try discriminate; try reflexivity; lia ..].
  destruct (Z.compare_spec (digit a3) (digit b3));
    [|cbv beta iota; split; intros; try discriminate; try reflexivity; lia ..].
  destruct (Z.compare_spec (digit a4) (digit b4));
    [|cbv beta iota; split; intros; try discriminate; try reflexivity; lia ..].
  destruct (Z.compare_spec (digit a5) (digit b5));
    [|cbv beta iota; split; intros; try discriminate; try reflexivity; lia ..].
  destruct (Z.compare_spec (digit a6) (digit b6));
    [|cbv beta iota; split; intros; try discriminate; try reflexivity; lia ..].
  destruct (Z.compare_spec (digit a7) (digit b7));
    [|cbv beta iota; split; intros; try discriminate; try reflexivity; lia ..].
  destruct (Z.compare_spec (digit a8) (digit b8));
    cbv beta iota; split; intros; try discriminate; try reflexivity; lia.
Qed.

Lemma is_leap_true (y : Z) :
  is_leap y = true ->
  (y mod 4 = 0 /\ y mod 100 <> 0) \/ y mod 400 = 0.
Proof.
  unfold is_leap.
  rewrite orb_true_iff, andb_true_iff, negb_true_iff, !Z.eqb_eq, Z.eqb_neq.
  tauto.
Qed.

Lemma is_leap_false (y : Z) :
  is_leap y = false ->
  (y mod 4 <> 0 \/ y mod 100 = 0) /\ y mod 400 <> 0.
Proof.
  unfold is_leap.
  rewrite orb_false_iff, andb_false_iff, negb_false_iff, !Z.eqb_eq,
    !Z.eqb_neq.
  tauto.
Qed.

Ltac split_tests :=
  repeat match goal with
  | |- context [?a <=? ?b] => destruct (Z.leb_spec a b)
  | |- context [?a <? ?b] => destruct (Z.ltb_spec a b)
  | |- context [?a =? ?b] => destruct (Z.eqb_spec a b)
  | H : context [?a <=? ?b] |- _ => destruct (Z.leb_spec a b)
  | H : context [?a <? ?b] |- _ => destruct (Z.ltb_spec a b)
  | H : context [?a =? ?b] |- _ => destruct (Z.eqb_spec a b)
  end.

Ltac month_cases m Hm :=
  let H := fresh in
  assert (H : m = 1 \/ m = 2 \/ m = 3 \/ m = 4 \/ m = 5 \/ m = 6
              \/ m = 7 \/ m = 8 \/ m = 9 \/ m = 10 \/ m = 11 \/ m = 12)
    by lia;
  clear Hm;
  destruct H as [H|[H|[H|[H|[H|[H|[H|[H|[H|[H|[H|H]]]]]]]]]]]; subst m.

(** A date as the first of January of its year and the days since. *)
Lemma days_from_civil_in_year (y m d : Z) :
  1 <= m <= 12 ->
  days_from_civil y m d
  = days_from_civil y 1 1 + days_before_month (is_leap y) m + d - 1.
Proof.
  intros Hm. unfold days_from_civil, days_before_month.
  change (1 <=? 2) with true. change (2 <? 1) with false. cbv iota.
  destruct (is_leap y) eqn:E;
    [apply is_leap_true in E | apply is_leap_false in E];
    split_tests; try lia; Z.div_mod_to_equations; lia.
Qed.

Lemma days_from_civil_next_year (y : Z) :
  days_from_civil (y + 1) 1 1
  = days_from_civil y 1 1 + 365 + (if is_leap y then 1 else 0).
Proof.
  unfold days_from_civil.
  change (1 <=? 2) with true. change (2 <? 1) with false. cbv iota.
  destruct (is_leap y) eqn:E;
    [apply is_leap_true in E | apply is_leap_false in E];
    Z.div_mod_to_equations; lia.
Qed.

Lemma days_from_civil_years (y1 y2 : Z) :
  y1 <= y2 -> days_from_civil y1 1 1 <= days_from_civil y2 1 1.
Proof.
  intros H. replace y2 with (y1 + Z.of_nat (Z.to_nat (y2 - y1))) by lia.
  induction (Z.to_nat (y2 - y1)) as [|n IH].
  - rewrite Z.add_0_r. lia.
  - replace (y1 + Z.of_nat (S n)) with (y1 + Z.of_nat n + 1) by lia.
    rewrite days_from_civil_next_year.
    destruct (is_leap (y1 + Z.of_nat n)); lia.
Qed.

Lemma valid_civil_bounds (y m d : Z) :
  valid_civil (y, m, d) = true ->
  1 <= m <= 12 /\ 1 <= d <= days_in_month y m.
Proof.
  unfold valid_civil. intros H.
  repeat (apply andb_true_iff in H; destruct H as [H ?]).
  apply Z.leb_le in H. lia.
Qed.

(** Within a year the days run with month and day. *)
Lemma day_of_year_order (y m1 d1 m2 d2 : Z) :
  1 <= m1 <= 12 -> 1 <= d1 <= days_in_month y m1 ->
  1 <= m2 <= 12 -> 1 <= d2 <= days_in_month y m2 ->
  m1 * 100 + d1 < m2 * 100 + d2 ->
  days_before_month (is_leap y) m1 + d1
  < days_before_month (is_leap y) m2 + d2.
Proof.
  unfold days_before_month, days_in_month.
  destruct (is_leap y); intros Hm1 Hd1 Hm2 Hd2 H;
    month_cases m1 Hm1; month_cases m2 Hm2;
    cbn [Z.eqb Pos.eqb orb] in Hd1, Hd2 |- *; lia.
Qed.

Lemma day_of_year_bounds (y m d : Z) :
  1 <= m <= 12 -> 1 <= d <= days_in_month y m ->
  1 <= days_before_month (is_leap y) m + d
    <= 365 + (if is_leap y then 1 else 0).
Proof.
  unfold days_before_month, days_in_month.
  destruct (is_leap y); intros Hm Hd; month_cases m Hm;
    cbn [Z.eqb Pos.eqb orb] in Hd |- *; lia.
Qed.

Lemma days_in_month_bound (y m : Z) : days_in_month y m <= 31.
Proof.
  unfold days_in_month.
  destruct (is_leap y), (m =? 2), ((m =? 4) || (m =? 6) || (m =? 9)
                                   || (m =? 11)); lia.
Qed.

Lemma days_from_civil_strict (y1 m1 d1 y2 m2 d2 : Z) :
  valid_civil (y1, m1, d1) = true -> valid_civil (y2, m2, d2) = true ->
  date_key (y1, m1, d1) < date_key (y2, m2, d2) ->
  days_from_civil y1 m1 d1 < days_from_civil y2 m2 d2.
Proof.
  intros V1 V2 Hk.
  apply valid_civil_bounds in V1, V2.
  destruct V1 as [Hm1 Hd1], V2 as [Hm2 Hd2].
  rewrite (days_from_civil_in_year y1 d1 Hm1),
    (days_from_civil_in_year y2 d2 Hm2).
  pose proof (day_of_year_bounds y1 Hm1 Hd1) as B1.
  pose proof (day_of_year_bounds y2 Hm2 Hd2) as B2.
  pose proof (days_in_month_bound y1 m1).
  pose proof (days_in_month_bound y2 m2).
  unfold date_key in Hk.
  destruct (Z.lt_trichotomy y1 y2) as [Hy | [-> | Hy]]; [| |lia].
  - pose proof (@days_from_civil_years (y1 + 1) y2 ltac:(lia)) as Hy'.
    rewrite days_from_civil_next_year in Hy'. lia.
  - pose proof (@day_of_year_order y2 m1 d1 m2 d2 Hm1 Hd1 Hm2 Hd2
                  ltac:(lia)). lia.
Qed.

Lemma date_key_injective (y1 m1 d1 y2 m2 d2 : Z) :
  valid_civil (y1, m1, d1) = true -> valid_civil (y2, m2, d2) = true ->
  date_key (y1, m1, d1) = date_key (y2, m2, d2) ->
  (y1, m1, d1) = (y2, m2, d2).
Proof.
  intros V1 V2 Hk. apply valid_civil_bounds in V1, V2.
  pose proof (days_in_month_bound y1 m1).
  pose proof (days_in_month_bound y2 m2).
  unfold date_key in Hk.
  assert (y1 = y2) by lia. assert (m1 = m2) by lia.
  assert (d1 = d2) by lia. congruence.
Qed.

Lemma days_from_civil_order (ca cb : Z * Z * Z) :
  valid_civil ca = true -> valid_civil cb = true ->
  date_key ca <= date_key cb
  <-> (let '(y, m, d) := ca in days_from_civil y m d)
      <= (let '(y, m, d) := cb in days_from_civil y m d).
Proof.
  destruct ca as [[y1 m1] d1], cb as [[y2 m2] d2]. intros V1 V2.
  split; intros H.
  - destruct (Z.lt_trichotomy (date_key (y1, m1, d1))
                              (date_key (y2, m2, d2))) as [Hlt|[Heq|Hgt]].
    + pose proof (@days_from_civil_strict _ _ _ _ _ _ V1 V2 Hlt). lia.
    + apply date_key_injective in Heq; auto.
      injection Heq as -> -> ->. lia.
    + lia.
  - destruct (Z.lt_trichotomy (date_key (y2, m2, d2))
                              (date_key (y1, m1, d1))) as [Hlt|[Heq|Hgt]].
    + pose proof (@days_from_civil_strict _ _ _ _ _ _ V2 V1 Hlt). lia.
    + lia.
    + lia.
Qed.

Lemma Date_getTime_civil (s : string) (t : Z) :
  Date_getTime s = Some t ->
  exists y m d,
    civil_of_string s = Some (y, m, d)
    /\ valid_civil (y, m, d) = true
    /\ t = days_from_civil y m d * 86400000.
Proof.
  unfold Date_getTime.
  destruct (civil_of_string s) as [[[y m] d]|]; [|discriminate].
  destruct (valid_civil (y, m, d)) eqn:V; [|discriminate].
  intros H. injection H as <-. exists y, m, d. auto.
Qed.

(** On strings that denote calendar dates the order of the strings is
    the order of the days. *)
Lemma date_strings_order (a b : string) (ta tb : Z) :
  Date_getTime a = Some ta -> Date_getTime b = Some tb ->
  (a <=? b)%string = true <-> ta <= tb.
Proof.
  intros Ha Hb.
  apply Date_getTime_civil in Ha, Hb.
  destruct Ha as (y1 & m1 & d1 & Ca & Va & ->).
  destruct Hb as (y2 & m2 & d2 & Cb & Vb & ->).
  rewrite (@date_strings_order_by_key _ _ _ _ Ca Cb).
  rewrite (@days_from_civil_order _ _ Va Vb). lia.
Qed.

Lemma civil_of_string_regex (s : string) (c : Z * Z * Z) :
  civil_of_string s = Some c -> dateRegex_test s = true.
Proof.
  intros H. destruct (dateRegex_test s) eqn:E; [reflexivity|].
  unfold civil_of_string in H. rewrite E in H.
  destruct s
    as [|y1 [|y2 [|y3 [|y4 [|h1 [|m1 [|m2 [|h2 [|d1 [|d2 [|x s]]]]]]]]]]];
    try discriminate;
    (destruct h1 as [[] [] [] [] [] [] [] []]; try discriminate);
    (destruct h2 as [[] [] [] [] [] [] [] []]; discriminate).
Qed.

Lemma Date_getTime_regex (s : string) (t : Z) :
  Date_getTime s = Some t -> dateRegex_test s = true.
Proof.
  intros H. apply Date_getTime_civil in H.
  destruct H as (y & m & d & H & _). eapply civil_of_string_regex, H.
Qed.

Lemma Date_getTime_truthy (s : string) (t : Z) :
  Date_getTime s = Some t -> truthy (Some s) = true.
Proof.
  intros H. apply truthy_Some. intros ->. discriminate.
Qed.

(** X22.  The upcoming filter compares a date-based start with today as
    strings; when both are calendar dates this is the comparison of the
    days: the event is kept exactly when its day is today or later. *)
Theorem upcoming_date_filter_is_chronological
    (b : BaseCalendarEvent) (start : string) (end_ : JS.value)
    (now : Z) (today : string) (today_ms start_ms : Z) :
  Date_getTime today = Some today_ms ->
  Date_getTime start = Some start_ms ->
  is_upcoming now today (DateBased b start end_) = true
  <-> today_ms <= start_ms.
Proof.
  intros Ht Hs. simpl. now apply date_strings_order.
Qed.

Lemma upcoming_date_filter_is_chronological_witness :
  is_upcoming clock_now clock_today all_day_june_first = true
  <-> 1717200000000 <= 1717200000000.
Proof.
  apply (@upcoming_date_filter_is_chronological
           (base_with "id4" "Open day") "2024-06-01" None
           clock_now clock_today 1717200000000 1717200000000).
  - reflexivity.
  - reflexivity.
Defined.

(** X23.  The by-date-range filter compares dates as strings; when the
    range and the event carry calendar dates this is the comparison of
    the days: a date-based event is kept exactly when its days, from its
    start to its end (its start when it has no end), meet the days of the
    range. *)
Theorem date_range_filter_is_chronological
    (b : BaseCalendarEvent) (start : string) (end_ : JS.value)
    (startTimestamp endTimestamp : Z) (startIsoDate endIsoDate : string)
    (range_start_ms range_end_ms start_ms end_ms : Z) :
  Date_getTime startIsoDate = Some range_start_ms ->
  Date_getTime endIsoDate = Some range_end_ms ->
  Date_getTime start = Some start_ms ->
  match end_ with
  | Some e => Date_getTime e = Some end_ms
  | None => end_ms = start_ms
  end ->
  in_date_range startTimestamp endTimestamp startIsoDate endIsoDate
    (DateBased b start end_) = true
  <-> start_ms <= range_end_ms /\ range_start_ms <= end_ms.
Proof.
  intros Hrs Hre Hs He. simpl. destruct end_ as [e|].
  - rewrite (@Date_getTime_truthy _ _ He), andb_true_iff.
    rewrite (@date_strings_order _ _ _ _ Hs Hre),
      (@date_strings_order _ _ _ _ Hrs He).
    reflexivity.
  - subst end_ms. rewrite andb_true_iff.
    rewrite (@date_strings_order _ _ _ _ Hs Hre),
      (@date_strings_order _ _ _ _ Hrs Hs).
    tauto.
Qed.

Lemma date_range_filter_is_chronological_witness :
  in_date_range june_start june_end "2024-06-01" "2024-06-30"
    all_day_june_first = true
  <-> 1717200000000 <= 1719705600000
      /\ 1717200000000 <= 1717200000000.
Proof.
  apply (@date_range_filter_is_chronological
           (base_with "id4" "Open day") "2024-06-01" None
           june_start june_end "2024-06-01" "2024-06-30"
           1717200000000 1719705600000 1717200000000 1717200000000).
  - reflexivity.
  - reflexivity.
  - reflexivity.
  - reflexivity.
Defined.

(** X24.  A date-based event that validates and parses with calendar
    dates for its start and its end ends on a later day than it starts:
    the validator's string comparison rules out an end on or before the
    start. *)
Theorem validated_date_event_ends_after_it_starts
    (isValidTimeZone : string -> bool) (event : NostrEvent)
    (b : BaseCalendarEvent) (start end_ : string) (start_ms end_ms : Z) :
  validateCalendarEvent isValidTimeZone event = true ->
  parseCalendarEvent event = Some (DateBased b start (Some end_)) ->
  Date_getTime start = Some start_ms ->
  Date_getTime end_ = Some end_ms ->
  start_ms < end_ms.
Proof.
  intros Hv Hp Hs He.
  destruct (@validated_parsed_date _ _ _ _ _ Hv Hp) as [_ Hen].
  destruct (Hen end_ eq_refl) as [_ Hle].
  { intros ->. discriminate. }
  destruct (Z.lt_ge_cases start_ms end_ms) as [|Hge]; [assumption|].
  apply (@date_strings_order _ _ _ _ He Hs) in Hge. congruence.
Qed.

Lemma validated_date_event_ends_after_it_starts_witness :
  1720224000000 < 1720310400000.
Proof.
  apply (@validated_date_event_ends_after_it_starts two_zones weekend_fair
           weekend_fair_parsed_base "2024-07-06" "2024-07-07"
           1720224000000 1720310400000).
  - reflexivity.
  - reflexivity.
  - reflexivity.
  - reflexivity.
Defined.

Lemma begins_no_later_trans (a b c : CalendarEvent) :
  begins_no_later a b -> begins_no_later b c -> begins_no_later a c.
Proof.
  unfold begins_no_later.
  destruct (start_instant a), (start_instant b), (start_instant c);
    try tauto; lia.
Qed.

Lemma upcoming_compare_instants (localeCompare : string -> string -> Z)
    (a b : CalendarEvent) :
  (forall x y, dateRegex_test x = true -> dateRegex_test y = true ->
               (localeCompare x y <=? 0) = (x <=? y)%string) ->
  start_instant a <> None -> start_instant b <> None ->
  ((SortCompare (upcoming_compare localeCompare) a b <=? 0) = true ->
   begins_no_later a b)
  /\ ((SortCompare (upcoming_compare localeCompare) a b <=? 0) = false ->
      begins_no_later b a).
Proof.
  intros Hlc.
  destruct a as [ab sa ea | ab sa ea az1 az2],
           b as [bb sb eb | bb sb eb bz1 bz2];
    unfold begins_no_later, SortCompare; cbn [start_instant upcoming_compare].
  - destruct (Date_getTime sa) as [ta|] eqn:Ha; [|congruence].
    destruct (Date_getTime sb) as [tb|] eqn:Hb; [|congruence].
    intros _ _.
    rewrite (Hlc _ _ (@Date_getTime_regex _ _ Ha) (@Date_getTime_regex _ _ Hb)).
    split; intros H.
    + apply (@date_strings_order _ _ _ _ Ha Hb) in H.
      apply Z.div_le_mono; lia.
    + apply string_leb_false in H.
      apply (@date_strings_order _ _ _ _ Hb Ha) in H.
      apply Z.div_le_mono; lia.
  - destruct (Date_getTime sa) as [ta|]; [|congruence]. intros _ _.
    split; intros H; [apply Z.leb_le in H | apply Z.leb_gt in H]; lia.
  - destruct (Date_getTime sb) as [tb|]; [|congruence]. intros _ _.
    split; intros H; [apply Z.leb_le in H | apply Z.leb_gt in H]; lia.
  - intros _ _.
    split; intros H; [apply Z.leb_le in H | apply Z.leb_gt in H]; lia.
Qed.

(** X25.  A page of upcoming events, time-based and date-based mixed, is
    in the order in which the events begin (a date-based one at 00:00 UTC
    of its start date), provided every date-based start on it is a
    calendar date and the runtime's collation orders date strings as
    their code units do. *)
Theorem upcoming_page_sorted_by_instant
    (isValidTimeZone : string -> bool)
    (localeCompare : string -> string -> Z)
    (query : Filter -> list NostrEvent)
    (limit_ now : Z) (today : string) (pageParam : option Z) :
  (forall x y, dateRegex_test x = true -> dateRegex_test y = true ->
               (localeCompare x y <=? 0) = (x <=? y)%string) ->
  Forall (fun e => start_instant e <> None)
    (useUpcomingCalendarEvents_queryFn isValidTimeZone localeCompare query
       limit_ now today pageParam) ->
  StronglySorted begins_no_later
    (useUpcomingCalendarEvents_queryFn isValidTimeZone localeCompare query
       limit_ now today pageParam).
Proof.
  unfold useUpcomingCalendarEvents_queryFn. intros Hlc H.
  apply Forall_sort in H.
  apply sort_sorted with (P := fun e => start_instant e <> None);
    [exact begins_no_later_trans | | exact H].
  intros a b. now apply upcoming_compare_instants.
Qed.

Lemma code_unit_compare_leb (x y : string) :
  (code_unit_compare x y <=? 0) = (x <=? y)%string.
Proof.
  unfold code_unit_compare, String.leb.
  destruct (String.compare x y); reflexivity.
Qed.

Lemma upcoming_page_sorted_by_instant_witness :
  StronglySorted begins_no_later
    (useUpcomingCalendarEvents_queryFn two_zones code_unit_compare
       small_relay 20 clock_now clock_today None).
Proof.
  apply (@upcoming_page_sorted_by_instant two_zones code_unit_compare
           small_relay 20 clock_now clock_today None).
  - intros x y _ _. apply code_unit_compare_leb.
  - repeat constructor; discriminate.
Defined.

(** ** From the form to the wire *)

Lemma kept_or_undefined (v : JS.value) :
  kept (or_undefined v) = or_undefined v.
Proof.
  unfold kept, or_undefined. destruct (truthy v) eqn:H; [now rewrite H|].
  reflexivity.
Qed.

(** X26.  What is typed into the date-based form reaches the wire: when
    the hook resolves, the published event has one t tag for each cleaned
    hashtag of the field, in order, the location as its only location tag
    (none when the field is empty), the title, and the summary unless it
    is empty. *)
Theorem date_form_fields_reach_the_wire
    (user : option string) (now : Z) (generatedId : string)
    (values : DateBasedFormValues) (startDate : string) (endDate : JS.value)
    (published : PartialNostrEvent) :
  useDateBasedCalendarEvent_mutationFn user now generatedId
    (onDateBasedSubmit_props values startDate endDate)
  = Resolved published ->
  getTagValues_tags (p_tags published) "t"
  = map Some (processHashtags (DateForm.hashtags values))
  /\ getTagValues_tags (p_tags published) "location"
     = (if truthy (DateForm.location values)
        then [DateForm.location values] else [])
  /\ getTagValue_tags (p_tags published) "title"
     = Some (DateForm.title values)
  /\ getTagValue_tags (p_tags published) "summary"
     = or_undefined (DateForm.summary values)
  /\ p_content published = DateForm.content values.
Proof.
  unfold useDateBasedCalendarEvent_mutationFn.
  destruct user as [user_pubkey|]; [|discriminate].
  destruct (negb _); [discriminate|].
  destruct (match DateProps.end_ _ with
            | Some e => truthy _ && negb (dateRegex_test e)
            | None => false
            end); [discriminate|].
  destruct (match DateProps.end_ _ with
            | Some e => truthy _ && (e <=? _)%string
            | None => false
            end); [discriminate|].
  intros H. apply Resolved_inj in H. subst published.
  rewrite serialized_tags.
  cbn [base_of wire_start wire_end wire_tzids fst snd].
  match goal with
  | |- context [common_tags ?b ++ kind_tags ?s ?e ?z1 ?z2] =>
      change (common_tags b ++ kind_tags s e z1 z2)
        with (wire_tags b s e z1 z2)
  end.
  rewrite read_hashtags, read_locations, read_title, read_summary.
  cbn [Base.hashtags Base.locations Base.title Base.summary
       onDateBasedSubmit_props DateProps.hashtags DateProps.locations
       DateProps.title DateProps.summary DateProps.content or_empty].
  rewrite kept_or_undefined. repeat split; reflexivity.
Qed.

Lemma date_form_fields_reach_the_wire_witness :
  getTagValues_tags (p_tags picnic_form_wire) "t"
  = map Some (processHashtags (DateForm.hashtags picnic_form))
  /\ getTagValues_tags (p_tags picnic_form_wire) "location"
     = (if truthy (DateForm.location picnic_form)
        then [DateForm.location picnic_form] else [])
  /\ getTagValue_tags (p_tags picnic_form_wire) "title"
     = Some (DateForm.title picnic_form)
  /\ getTagValue_tags (p_tags picnic_form_wire) "summary"
     = or_undefined (DateForm.summary picnic_form)
  /\ p_content picnic_form_wire = DateForm.content picnic_form.
Proof.
  apply (@date_form_fields_reach_the_wire (Some "pub1") 1717000000 "k3x9"
           picnic_form "2024-06-01" None picnic_form_wire).
  reflexivity.
Defined.
